(** * Merchant lifecycle engine and admin login of the dabdub backend

    A shallow embedding of [MerchantService] (merchant.service.ts) and of the
    collaborators it talks to, followed by the properties of the lifecycle
    state machine: status transitions, KYC decisions, API quota accounting,
    registration, e-mail verification, currency and bank-account updates.

    Conventions.
    - A JavaScript string is a [string], held as its UTF-8 bytes
      ([utf16Length] is its [length]); [Date] values are milliseconds since
      the epoch, in [Z]; JavaScript numbers that count things are in [Z].
    - An optional property ([T | undefined | null]) is an [option].
    - An [async] method is a computation in the monad [M]: it reads and
      writes the [World] (database rows, outbox of the mailer, error log) and
      either returns or throws.  A throw keeps the writes made before it, as
      a rejected promise does.
    - Informational [logger.log] lines are not part of the state; the
      [logger.error] lines of the [catch] blocks are. *)

From Stdlib Require Import String Ascii List ZArith Lia Bool Arith.
Import ListNotations.
Open Scope string_scope.
Open Scope Z_scope.

Set Implicit Arguments.

(** ** Entities (merchant.entity.ts) *)

Inductive MerchantStatus := PENDING | ACTIVE | INACTIVE | SUSPENDED | CLOSED.

Inductive KycStatus :=
| KYC_NOT_STARTED | KYC_PENDING | KYC_IN_REVIEW
| KYC_APPROVED | KYC_REJECTED | KYC_EXPIRED.

Inductive BusinessType :=
| INDIVIDUAL | SOLE_PROPRIETORSHIP | PARTNERSHIP | LLC | CORPORATION | NON_PROFIT.

Inductive BankAccountStatus :=
| BANK_NOT_VERIFIED | BANK_PENDING | BANK_VERIFIED | BANK_FAILED.

Inductive KycDocumentStatus := DOC_PENDING | DOC_APPROVED | DOC_REJECTED.

Definition Date := Z.
Definition MerchantId := nat.
Bind Scope nat_scope with MerchantId.

Record KycDocument := {
  doc_type : string;
  doc_fileName : string;
  doc_fileUrl : string;
  doc_uploadedAt : Date;
  doc_status : KycDocumentStatus;
  doc_rejectionReason : option string
}.

(** The interface declares eight booleans.  The object that
    [updateNotificationPreferences] builds can hold [null] or [undefined]
    in a property (the request may carry one), so each property is
    optional here: [None] is a property that is missing or holds [null] or
    [undefined]. *)
Record NotificationPreferences := {
  emailNotifications : option bool;
  smsNotifications : option bool;
  pushNotifications : option bool;
  paymentReceived : option bool;
  settlementCompleted : option bool;
  kycStatusUpdate : option bool;
  securityAlerts : option bool;
  marketingEmails : option bool
}.

(** The columns of the [merchants] table.  The two ORM-maintained timestamps
    ([createdAt], [updatedAt]), the free-form [metadata] and the relations
    are left out: no method of the service reads or writes them. *)
Record Merchant := {
  id : MerchantId;
  name : string;
  businessName : option string;
  email : string;
  passwordHash : option string;
  phone : option string;
  website : option string;
  businessType : option BusinessType;
  businessRegistrationNumber : option string;
  taxId : option string;
  businessDescription : option string;
  businessCategory : option string;
  addressLine1 : option string;
  addressLine2 : option string;
  city : option string;
  state : option string;
  postalCode : option string;
  country : option string;
  status : MerchantStatus;
  kycStatus : KycStatus;
  kycSubmittedAt : option Date;
  kycVerifiedAt : option Date;
  kycRejectionReason : option string;
  kycDocuments : option (list KycDocument);
  emailVerified : bool;
  emailVerificationToken : option string;
  emailVerificationExpiresAt : option Date;
  emailVerifiedAt : option Date;
  bankAccountNumber : option string;
  bankRoutingNumber : option string;
  bankAccountHolderName : option string;
  bankName : option string;
  bankSwiftCode : option string;
  bankIban : option string;
  bankAccountStatus : BankAccountStatus;
  bankVerifiedAt : option Date;
  supportedCurrencies : list string;
  defaultCurrency : string;
  settlementFrequency : string;
  minimumSettlementAmount : Z;
  autoSettlementEnabled : bool;
  notificationPreferences : option NotificationPreferences;
  apiQuotaLimit : Z;
  apiQuotaUsed : Z;
  apiQuotaResetAt : option Date;
  suspensionReason : option string;
  closedAt : option Date;
  closedReason : option string
}.

(** *** Field assignment

    [Partial<Merchant>] objects are lists of field assignments.  A setter
    rebuilds the record from its projections with one of them replaced; the
    tactic below derives it from the eta-expansion of the record, so that no
    setter can mix two columns up. *)

Definition eta_Merchant (m : Merchant) : Merchant :=
  Build_Merchant
    (id m) (name m) (businessName m) (email m) (passwordHash m) (phone m)
    (website m) (businessType m) (businessRegistrationNumber m) (taxId m)
    (businessDescription m) (businessCategory m) (addressLine1 m)
    (addressLine2 m) (city m) (state m) (postalCode m) (country m)
    (status m) (kycStatus m) (kycSubmittedAt m) (kycVerifiedAt m)
    (kycRejectionReason m) (kycDocuments m) (emailVerified m)
    (emailVerificationToken m) (emailVerificationExpiresAt m)
    (emailVerifiedAt m) (bankAccountNumber m) (bankRoutingNumber m)
    (bankAccountHolderName m) (bankName m) (bankSwiftCode m) (bankIban m)
    (bankAccountStatus m) (bankVerifiedAt m) (supportedCurrencies m)
    (defaultCurrency m) (settlementFrequency m) (minimumSettlementAmount m)
    (autoSettlementEnabled m) (notificationPreferences m) (apiQuotaLimit m)
    (apiQuotaUsed m) (apiQuotaResetAt m) (suspensionReason m) (closedAt m)
    (closedReason m).

Ltac assign proj :=
  let v := fresh "v" in
  let m := fresh "m" in
  intros v m;
  let e := eval cbv [eta_Merchant] in (eta_Merchant m) in
  match eval pattern (proj m) in e with
  | ?g _ => let r := eval cbv beta in (g v) in exact r
  end.

Definition set_status : MerchantStatus -> Merchant -> Merchant.
Proof. assign status. Defined.
Definition set_suspensionReason : option string -> Merchant -> Merchant.
Proof. assign suspensionReason. Defined.
Definition set_closedAt : option Date -> Merchant -> Merchant.
Proof. assign closedAt. Defined.
Definition set_closedReason : option string -> Merchant -> Merchant.
Proof. assign closedReason. Defined.
Definition set_kycStatus : KycStatus -> Merchant -> Merchant.
Proof. assign kycStatus. Defined.
Definition set_kycSubmittedAt : option Date -> Merchant -> Merchant.
Proof. assign kycSubmittedAt. Defined.
Definition set_kycVerifiedAt : option Date -> Merchant -> Merchant.
Proof. assign kycVerifiedAt. Defined.
Definition set_kycRejectionReason : option string -> Merchant -> Merchant.
Proof. assign kycRejectionReason. Defined.
Definition set_kycDocuments : option (list KycDocument) -> Merchant -> Merchant.
Proof. assign kycDocuments. Defined.
Definition set_emailVerified : bool -> Merchant -> Merchant.
Proof. assign emailVerified. Defined.
Definition set_emailVerificationToken : option string -> Merchant -> Merchant.
Proof. assign emailVerificationToken. Defined.
Definition set_emailVerificationExpiresAt : option Date -> Merchant -> Merchant.
Proof. assign emailVerificationExpiresAt. Defined.
Definition set_emailVerifiedAt : option Date -> Merchant -> Merchant.
Proof. assign emailVerifiedAt. Defined.
Definition set_bankAccountNumber : option string -> Merchant -> Merchant.
Proof. assign bankAccountNumber. Defined.
Definition set_bankRoutingNumber : option string -> Merchant -> Merchant.
Proof. assign bankRoutingNumber. Defined.
Definition set_bankAccountHolderName : option string -> Merchant -> Merchant.
Proof. assign bankAccountHolderName. Defined.
Definition set_bankName : option string -> Merchant -> Merchant.
Proof. assign bankName. Defined.
Definition set_bankSwiftCode : option string -> Merchant -> Merchant.
Proof. assign bankSwiftCode. Defined.
Definition set_bankIban : option string -> Merchant -> Merchant.
Proof. assign bankIban. Defined.
Definition set_bankAccountStatus : BankAccountStatus -> Merchant -> Merchant.
Proof. assign bankAccountStatus. Defined.
Definition set_bankVerifiedAt : option Date -> Merchant -> Merchant.
Proof. assign bankVerifiedAt. Defined.
Definition set_supportedCurrencies : list string -> Merchant -> Merchant.
Proof. assign supportedCurrencies. Defined.
Definition set_defaultCurrency : string -> Merchant -> Merchant.
Proof. assign defaultCurrency. Defined.
Definition set_apiQuotaLimit : Z -> Merchant -> Merchant.
Proof. assign apiQuotaLimit. Defined.
Definition set_apiQuotaUsed : Z -> Merchant -> Merchant.
Proof. assign apiQuotaUsed. Defined.
Definition set_apiQuotaResetAt : option Date -> Merchant -> Merchant.
Proof. assign apiQuotaResetAt. Defined.
Definition set_name : string -> Merchant -> Merchant.
Proof. assign name. Defined.
Definition set_email : string -> Merchant -> Merchant.
Proof. assign email. Defined.
Definition set_passwordHash : option string -> Merchant -> Merchant.
Proof. assign passwordHash. Defined.
Definition set_businessName : option string -> Merchant -> Merchant.
Proof. assign businessName. Defined.
Definition set_phone : option string -> Merchant -> Merchant.
Proof. assign phone. Defined.
Definition set_website : option string -> Merchant -> Merchant.
Proof. assign website. Defined.
Definition set_businessType : option BusinessType -> Merchant -> Merchant.
Proof. assign businessType. Defined.
Definition set_settlementFrequency : string -> Merchant -> Merchant.
Proof. assign settlementFrequency. Defined.
Definition set_minimumSettlementAmount : Z -> Merchant -> Merchant.
Proof. assign minimumSettlementAmount. Defined.
Definition set_autoSettlementEnabled : bool -> Merchant -> Merchant.
Proof. assign autoSettlementEnabled. Defined.
Definition set_notificationPreferences :
  option NotificationPreferences -> Merchant -> Merchant.
Proof. assign notificationPreferences. Defined.

(** A [Partial<Merchant>] literal [{ a: x, b: y }] is the list
    [[set_a x; set_b y]], applied left to right. *)
Definition Partial := list (Merchant -> Merchant).

Definition assignAll (data : Partial) (m : Merchant) : Merchant :=
  fold_left (fun acc f => f acc) data m.

(** [===] on the enums. *)
Definition MerchantStatus_eqb (a b : MerchantStatus) : bool :=
  match a, b with
  | PENDING, PENDING | ACTIVE, ACTIVE | INACTIVE, INACTIVE
  | SUSPENDED, SUSPENDED | CLOSED, CLOSED => true
  | _, _ => false
  end.

Definition KycStatus_eqb (a b : KycStatus) : bool :=
  match a, b with
  | KYC_NOT_STARTED, KYC_NOT_STARTED | KYC_PENDING, KYC_PENDING
  | KYC_IN_REVIEW, KYC_IN_REVIEW | KYC_APPROVED, KYC_APPROVED
  | KYC_REJECTED, KYC_REJECTED | KYC_EXPIRED, KYC_EXPIRED => true
  | _, _ => false
  end.

Definition BankAccountStatus_eqb (a b : BankAccountStatus) : bool :=
  match a, b with
  | BANK_NOT_VERIFIED, BANK_NOT_VERIFIED | BANK_PENDING, BANK_PENDING
  | BANK_VERIFIED, BANK_VERIFIED | BANK_FAILED, BANK_FAILED => true
  | _, _ => false
  end.

(** [Array.prototype.includes] for an element type with a boolean equality. *)
Definition includes {A : Type} (eqb : A -> A -> bool) (l : list A) (x : A) : bool :=
  existsb (fun y => eqb y x) l.

(** JavaScript truthiness of an optional string: [undefined], [null] and the
    empty string are falsy. *)
Definition truthy (s : option string) : bool :=
  match s with
  | Some EmptyString | None => false
  | Some _ => true
  end.

(** [String.prototype.length]: the number of UTF-16 code units of the text,
    read off its UTF-8 bytes.  A byte that starts a character of one to
    three bytes counts one unit, a byte that starts a character of four
    bytes counts two (a surrogate pair), a continuation byte counts none. *)
Definition utf16Units (c : ascii) : nat :=
  let n := nat_of_ascii c in
  if (n <? 128)%nat then 1%nat
  else if (n <? 192)%nat then 0%nat
  else if (n <? 240)%nat then 1%nat
  else 2%nat.

Fixpoint utf16Length (s : string) : nat :=
  match s with
  | EmptyString => 0%nat
  | String c s' => (utf16Units c + utf16Length s')%nat
  end.

(** [String.prototype.toLowerCase] on texts of ASCII characters: the
    letters A-Z are lowered, every other character is kept.  The source's
    method also lowers letters outside ASCII; the statements that depend on
    the lowering are made for ASCII texts ([asciiText], below). *)
Definition toLowerCaseChar (c : ascii) : ascii :=
  let n := nat_of_ascii c in
  if ((65 <=? n) && (n <=? 90))%nat then ascii_of_nat (n + 32) else c.

Fixpoint toLowerCase (s : string) : string :=
  match s with
  | EmptyString => EmptyString
  | String c s' => String (toLowerCaseChar c) (toLowerCase s')
  end.

(** ** Request objects (merchant.dto.ts) *)

Module RegisterMerchantDto.
Record t := {
  name : string;
  email : string;
  password : string;
  businessName : option string;
  phone : option string;
  website : option string;
  businessType : option BusinessType
}.
End RegisterMerchantDto.

Module BankAccountDto.
Record t := {
  accountNumber : string;
  routingNumber : string;
  accountHolderName : string;
  bankName : string;
  swiftCode : option string;
  iban : option string
}.
End BankAccountDto.

Module KycDocumentDto.
Record t := { type : string; fileName : string; fileUrl : string }.
End KycDocumentDto.

Module SubmitKycDto.
Record t := { documents : list KycDocumentDto.t }.
End SubmitKycDto.

Inductive KycDecision := approved | rejected.

Module VerifyKycDto.
Record t := { decision : KycDecision; rejectionReason : option string }.
End VerifyKycDto.

Module CurrencySettingsDto.
Record t := { supportedCurrencies : list string; defaultCurrency : string }.
End CurrencySettingsDto.

Module UpdateApiQuotaDto.
Record t := { apiQuotaLimit : Z }.
End UpdateApiQuotaDto.

Module ChangeMerchantStatusDto.
Record t := { status : MerchantStatus; reason : option string }.
End ChangeMerchantStatusDto.

(** ** Exceptions (merchant.exceptions.ts), with the arguments the service
    passes to their constructors *)

Inductive Exception :=
| MerchantNotFoundException (id : option MerchantId)
| MerchantAlreadyExistsException (email : string)
| MerchantSuspendedException (reason : option string)
| MerchantClosedException
| MerchantInvalidStatusException (current requested : MerchantStatus)
| MerchantEmailNotVerifiedException
| MerchantEmailAlreadyVerifiedException
| MerchantVerificationTokenInvalidException
| MerchantVerificationTokenExpiredException
| KycAlreadySubmittedException
| KycAlreadyApprovedException
| KycDocumentRequiredException (missing : string)
| KycInvalidStatusException (current : KycStatus) (decision : KycDecision)
| BankAccountNotFoundException
| BankAccountVerificationFailedException (error : option string)
| BankAccountAlreadyVerifiedException
| BankAccountInvalidException (message : string)
| ApiQuotaExceededException (limit : Z) (resetAt : option Date)
| CollaboratorError (message : string).

(** ** Collaborators *)

(** One constructor per method of [IEmailService], with its arguments. *)
Inductive Email :=
| sendVerificationEmail (to token name : string)
| sendWelcomeEmail (to name : string)
| sendKycSubmittedEmail (to name : string)
| sendKycApprovedEmail (to name : string)
| sendKycRejectedEmail (to name reason : string)
| sendBankAccountVerifiedEmail (to name : string)
| sendAccountSuspendedEmail (to name : string) (reason : option string)
| sendAccountReactivatedEmail (to name : string).

Record BankVerificationResult := { success : bool; error : option string }.

(** What the outside answers during one call of the service: the clock, the
    local time of the process, the random source, the password hash, the
    mailer (which may reject: [Some] carries the message of the rejection)
    and the bank-verification provider.

    [setHours env d h] is [d.setHours(d.getHours() + h)]: the instant whose
    wall-clock reading, in the time zone of the process, is [h] hours after
    that of [d].  It is [h] hours after [d] unless the clocks of that zone
    are changed in between. *)
Record Env := {
  now : Date;
  setHours : Date -> Z -> Date;
  randomBytesHex : string;
  bcryptHash : string -> string;
  emailService : Email -> option string;
  bankVerificationService : string -> string -> string -> BankVerificationResult
}.

Record LogEntry := { log_message : string; log_error : Exception }.

Record World := {
  merchants : list Merchant;
  nextId : MerchantId;
  outbox : list Email;
  errorLog : list LogEntry
}.

(** ** The monad of [async] methods *)

Inductive Completion (A : Type) :=
| Return (a : A)
| Throw (e : Exception).
Arguments Throw {A} e.

Definition M (A : Type) := World -> Completion A * World.

Definition ret {A} (a : A) : M A := fun w => (Return a, w).

Definition throw {A} (e : Exception) : M A := fun w => (Throw e, w).

Definition bind {A B} (c : M A) (k : A -> M B) : M B :=
  fun w =>
    match c w with
    | (Return a, w') => k a w'
    | (Throw e, w') => (Throw e, w')
    end.

Definition tryCatch {A} (body : M A) (handler : Exception -> M A) : M A :=
  fun w =>
    match body w with
    | (Return a, w') => (Return a, w')
    | (Throw e, w') => handler e w'
    end.

Declare Scope async_scope.
Delimit Scope async_scope with async.
Notation "x <- c ;; k" := (bind c (fun x => k))
  (at level 61, c at next level, right associativity) : async_scope.
Notation "c ;; k" := (bind c (fun _ => k))
  (at level 61, right associativity) : async_scope.
Open Scope async_scope.

Definition getRows : M (list Merchant) := fun w => (Return (merchants w), w).

Definition setRows (rows : list Merchant) (w : World) : World :=
  {| merchants := rows; nextId := nextId w;
     outbox := outbox w; errorLog := errorLog w |}.

Definition putRows (rows : list Merchant) : M unit :=
  fun w => (Return tt, setRows rows w).

Definition logger_error (message : string) (e : Exception) : M unit :=
  fun w => (Return tt,
            {| merchants := merchants w; nextId := nextId w;
               outbox := outbox w;
               errorLog := errorLog w ++ [{| log_message := message; log_error := e |}] |}).

Definition setOutbox (o : list Email) : M unit :=
  fun w => (Return tt,
            {| merchants := merchants w; nextId := nextId w;
               outbox := o; errorLog := errorLog w |}).

(** A method of the mailer: delivered to the outbox, or rejected. *)
Definition deliver (env : Env) (e : Email) : M unit :=
  fun w =>
    match emailService env e with
    | None => setOutbox (outbox w ++ [e]) w
    | Some message => (Throw (CollaboratorError message), w)
    end.

(** ** Regular expressions

    The four patterns of [validateBankAccountDetails] are anchored at both
    ends and built from character classes, concatenation, bounded
    repetition and an optional group.  [RegExp.test] is a backtracking
    matcher for that fragment. *)

Module RegExp.

Inductive t :=
| Class (p : ascii -> bool)
| Cat (r1 r2 : t)
| Opt (r : t)
| Rep (r : t) (lo hi : nat).

Section Repeat.
Variable step : list ascii -> (list ascii -> bool) -> bool.

(** [r{lo,hi}]: at least [lo] and at most [hi] iterations of [step]. *)
Fixpoint repeat (lo hi : nat) (s : list ascii) (k : list ascii -> bool) : bool :=
  match hi with
  | O => match lo with O => k s | S _ => false end
  | S hi' =>
    match lo with
    | O => step s (fun s' => repeat O hi' s' k) || k s
    | S lo' => step s (fun s' => repeat lo' hi' s' k)
    end
  end.
End Repeat.

(** [run r s k]: some prefix of [s] matches [r] and the rest satisfies [k]. *)
Fixpoint run (r : t) (s : list ascii) (k : list ascii -> bool) : bool :=
  match r with
  | Class p => match s with c :: s' => p c && k s' | [] => false end
  | Cat r1 r2 => run r1 s (fun s' => run r2 s' k)
  | Opt r' => run r' s k || k s
  | Rep r' lo hi => repeat (run r') lo hi s k
  end.

Definition atEnd (s : list ascii) : bool :=
  match s with [] => true | _ :: _ => false end.

(** [/^r$/.test(s)] *)
Definition test (r : t) (s : string) : bool :=
  run r (list_ascii_of_string s) atEnd.

Definition between (lo hi : nat) (c : ascii) : bool :=
  let n := nat_of_ascii c in ((lo <=? n) && (n <=? hi))%nat.

(** [\d], [[A-Z]] and [[A-Z0-9]] *)
Definition digit : ascii -> bool := between 48 57.
Definition upper : ascii -> bool := between 65 90.
Definition upperOrDigit (c : ascii) : bool := upper c || digit c.

End RegExp.

(** [/^\d{4,17}$/] *)
Definition ACCOUNT_NUMBER_RE : RegExp.t :=
  RegExp.Rep (RegExp.Class RegExp.digit) 4 17.

(** [/^\d{9}$/] *)
Definition ROUTING_NUMBER_RE : RegExp.t :=
  RegExp.Rep (RegExp.Class RegExp.digit) 9 9.

(** [/^[A-Z]{6}[A-Z0-9]{2}([A-Z0-9]{3})?$/] *)
Definition SWIFT_CODE_RE : RegExp.t :=
  RegExp.Cat (RegExp.Rep (RegExp.Class RegExp.upper) 6 6)
    (RegExp.Cat (RegExp.Rep (RegExp.Class RegExp.upperOrDigit) 2 2)
       (RegExp.Opt (RegExp.Rep (RegExp.Class RegExp.upperOrDigit) 3 3))).

(** [/^[A-Z]{2}\d{2}[A-Z0-9]{4,30}$/] *)
Definition IBAN_RE : RegExp.t :=
  RegExp.Cat (RegExp.Rep (RegExp.Class RegExp.upper) 2 2)
    (RegExp.Cat (RegExp.Rep (RegExp.Class RegExp.digit) 2 2)
       (RegExp.Rep (RegExp.Class RegExp.upperOrDigit) 4 30)).

(** ** The record store (merchant.repository.ts)

    The repository class is not among the sources; its methods are modelled
    from the contract the specification gives for the record store. *)

Module MerchantRepository.

(** Modelled from the spec: the column defaults of a new row (the entity's
    [default:] values; nullable columns start empty). *)
Definition newRow (i : MerchantId) : Merchant :=
  {| id := i; name := ""; businessName := None; email := "";
     passwordHash := None; phone := None; website := None;
     businessType := None; businessRegistrationNumber := None;
     taxId := None; businessDescription := None; businessCategory := None;
     addressLine1 := None; addressLine2 := None; city := None;
     state := None; postalCode := None; country := None;
     status := PENDING; kycStatus := KYC_NOT_STARTED;
     kycSubmittedAt := None; kycVerifiedAt := None;
     kycRejectionReason := None; kycDocuments := None;
     emailVerified := false; emailVerificationToken := None;
     emailVerificationExpiresAt := None; emailVerifiedAt := None;
     bankAccountNumber := None; bankRoutingNumber := None;
     bankAccountHolderName := None; bankName := None;
     bankSwiftCode := None; bankIban := None;
     bankAccountStatus := BANK_NOT_VERIFIED; bankVerifiedAt := None;
     supportedCurrencies := ["USD"]; defaultCurrency := "USD";
     settlementFrequency := "daily"; minimumSettlementAmount := 0;
     autoSettlementEnabled := true; notificationPreferences := None;
     apiQuotaLimit := 1000; apiQuotaUsed := 0; apiQuotaResetAt := None;
     suspensionReason := None; closedAt := None; closedReason := None |}.

Definition hasId (i : MerchantId) (m : Merchant) : bool := Nat.eqb (id m) i.

(** Rewrites the row(s) whose primary key is [i]. *)
Definition mapRow (i : MerchantId) (f : Merchant -> Merchant)
           (rows : list Merchant) : list Merchant :=
  map (fun m => if hasId i m then f m else m) rows.

(** Modelled from the spec: lookup by id. *)
Definition findById (i : MerchantId) : M (option Merchant) :=
  rows <- getRows ;; ret (find (hasId i) rows).

(** Modelled from the spec: lookup by e-mail, case-insensitive ("a merchant
    with that email (case-insensitive) exists"). *)
Definition sameEmail (e : string) (m : Merchant) : bool :=
  String.eqb (toLowerCase (email m)) (toLowerCase e).

Definition findByEmail (e : string) : M (option Merchant) :=
  rows <- getRows ;; ret (find (sameEmail e) rows).

(** Modelled from the spec: lookup by verification token. *)
Definition holdsToken (token : string) (m : Merchant) : bool :=
  match emailVerificationToken m with
  | Some t => String.eqb t token
  | None => false
  end.

Definition findByVerificationToken (token : string) : M (option Merchant) :=
  rows <- getRows ;; ret (find (holdsToken token) rows).

(** Modelled from the spec: create; the store picks the primary key and
    fills the columns the caller leaves out with their defaults. *)
Definition create (data : Partial) : M Merchant :=
  fun w =>
    let merchant := assignAll data (newRow (nextId w)) in
    (Return merchant,
     {| merchants := merchants w ++ [merchant]; nextId := S (nextId w);
        outbox := outbox w; errorLog := errorLog w |}).

(** Modelled from the spec: partial update; a key given as [undefined]
    empties the column ("clear token and expiry").  Answers the updated
    row, or [null] when there is none. *)
Definition update (i : MerchantId) (data : Partial) : M (option Merchant) :=
  rows <- getRows ;;
  putRows (mapRow i (assignAll data) rows) ;;
  findById i.

(** Modelled from the spec: status update, with additional columns. *)
Definition updateStatus (i : MerchantId) (s : MerchantStatus)
           (additionalData : Partial) : M (option Merchant) :=
  update i (set_status s :: additionalData).

(** Modelled from the spec: KYC-status update, with additional columns. *)
Definition updateKycStatus (i : MerchantId) (s : KycStatus)
           (additionalData : Partial) : M (option Merchant) :=
  update i (set_kycStatus s :: additionalData).

(** Modelled from the spec: bank-account-status update ("on success sets
    VERIFIED and bankVerifiedAt=now"). *)
Definition updateBankAccountStatus (env : Env) (i : MerchantId)
           (s : BankAccountStatus) : M (option Merchant) :=
  update i (set_bankAccountStatus s ::
            match s with
            | BANK_VERIFIED => [set_bankVerifiedAt (Some (now env))]
            | _ => []
            end).

(** Modelled from the spec: "increments used by one as a single atomic
    operation against the store". *)
Definition incrementApiQuota (i : MerchantId) : M unit :=
  rows <- getRows ;;
  putRows (mapRow i (fun m => set_apiQuotaUsed (apiQuotaUsed m + 1) m) rows).

(** Modelled from the spec: "resets all merchants' apiQuotaUsed to 0". *)
Definition resetApiQuotas : M unit :=
  rows <- getRows ;; putRows (map (set_apiQuotaUsed 0) rows).

(** Modelled from the spec: the rows with an "expired, unconsumed
    verification token". *)
Definition tokenExpired (env : Env) (m : Merchant) : bool :=
  match emailVerificationToken m, emailVerificationExpiresAt m with
  | Some _, Some e => negb (emailVerified m) && (e <? now env)
  | _, _ => false
  end.

Definition findExpiredVerificationTokens (env : Env) : M (list Merchant) :=
  rows <- getRows ;; ret (filter (tokenExpired env) rows).

End MerchantRepository.

(** ** Columns and request objects of the remaining methods *)

Definition set_businessRegistrationNumber : option string -> Merchant -> Merchant.
Proof. assign businessRegistrationNumber. Defined.
Definition set_taxId : option string -> Merchant -> Merchant.
Proof. assign taxId. Defined.
Definition set_businessDescription : option string -> Merchant -> Merchant.
Proof. assign businessDescription. Defined.
Definition set_businessCategory : option string -> Merchant -> Merchant.
Proof. assign businessCategory. Defined.
Definition set_addressLine1 : option string -> Merchant -> Merchant.
Proof. assign addressLine1. Defined.
Definition set_addressLine2 : option string -> Merchant -> Merchant.
Proof. assign addressLine2. Defined.
Definition set_city : option string -> Merchant -> Merchant.
Proof. assign city. Defined.
Definition set_state : option string -> Merchant -> Merchant.
Proof. assign state. Defined.
Definition set_postalCode : option string -> Merchant -> Merchant.
Proof. assign postalCode. Defined.
Definition set_country : option string -> Merchant -> Merchant.
Proof. assign country. Defined.

(** [String.prototype.toUpperCase] on the ASCII letters. *)
Definition toUpperCaseChar (c : ascii) : ascii :=
  let n := nat_of_ascii c in
  if ((97 <=? n) && (n <=? 122))%nat then ascii_of_nat (n - 32) else c.

Fixpoint toUpperCase (s : string) : string :=
  match s with
  | EmptyString => EmptyString
  | String c s' => String (toUpperCaseChar c) (toUpperCase s')
  end.

Module UpdateBusinessDetailsDto.
Record t := {
  businessName : string;
  businessType : BusinessType;
  businessRegistrationNumber : option string;
  taxId : option string;
  businessDescription : option string;
  businessCategory : option string
}.
End UpdateBusinessDetailsDto.

Module AddressDto.
Record t := {
  addressLine1 : string;
  addressLine2 : option string;
  city : string;
  state : string;
  postalCode : string;
  country : string
}.
End AddressDto.

(** Every property of the request is optional and passes validation also
    with the value [null] or [undefined].  [None]: the request has no such
    property of its own; [Some v]: it has one, holding [v], where [v] is
    [None] for [null] and [undefined]. *)
Module NotificationPreferencesDto.
Record t := {
  emailNotifications : option (option bool);
  smsNotifications : option (option bool);
  pushNotifications : option (option bool);
  paymentReceived : option (option bool);
  settlementCompleted : option (option bool);
  kycStatusUpdate : option (option bool);
  securityAlerts : option (option bool);
  marketingEmails : option (option bool)
}.
End NotificationPreferencesDto.

Module SearchMerchantsDto.
Record t := {
  search : option string;
  status : option MerchantStatus;
  kycStatus : option KycStatus;
  businessType : option BusinessType;
  country : option string;
  page : option Z;
  limit : option Z;
  sortBy : option string;
  sortOrder : option string
}.
End SearchMerchantsDto.

(** The answer of [searchMerchants]. *)
Record PaginatedMerchants := {
  data : list Merchant;
  total : Z;
  page : Z;
  limit : Z;
  totalPages : Z
}.

(** A plain [Error]: what [throw new Error(message)] throws, and what a
    collaborator rejects with. *)
Definition PlainError (message : string) : Exception := CollaboratorError message.

(** ** The service (merchant.service.ts) *)

Definition VALID_STATUS_TRANSITIONS (s : MerchantStatus) : list MerchantStatus :=
  match s with
  | PENDING => [ACTIVE; SUSPENDED; CLOSED]
  | ACTIVE => [INACTIVE; SUSPENDED; CLOSED]
  | INACTIVE => [ACTIVE; SUSPENDED; CLOSED]
  | SUSPENDED => [ACTIVE; CLOSED]
  | CLOSED => []
  end.

Definition VALID_KYC_TRANSITIONS (s : KycStatus) : list KycStatus :=
  match s with
  | KYC_NOT_STARTED => [KYC_PENDING]
  | KYC_PENDING => [KYC_IN_REVIEW; KYC_REJECTED]
  | KYC_IN_REVIEW => [KYC_APPROVED; KYC_REJECTED]
  | KYC_APPROVED => [KYC_EXPIRED]
  | KYC_REJECTED => [KYC_PENDING]
  | KYC_EXPIRED => [KYC_PENDING]
  end.

Module MerchantService.
Section Service.

Variable env : Env.

Definition VERIFICATION_TOKEN_EXPIRY_HOURS : Z := 24.

(** [crypto.randomBytes(32).toString('hex')] *)
Definition generateVerificationToken : string := randomBytesHex env.

Definition getDefaultNotificationPreferences : NotificationPreferences :=
  {| emailNotifications := Some true; smsNotifications := Some false;
     pushNotifications := Some true; paymentReceived := Some true;
     settlementCompleted := Some true; kycStatusUpdate := Some true;
     securityAlerts := Some true; marketingEmails := Some false |}.

(** [s || undefined] on an optional string *)
Definition orUndefined (s : option string) : option string :=
  if truthy s then s else None.

Definition validateMerchantActive (merchant : Merchant) : M unit :=
  if MerchantStatus_eqb (status merchant) SUSPENDED then
    throw (MerchantSuspendedException (orUndefined (suspensionReason merchant)))
  else if MerchantStatus_eqb (status merchant) CLOSED then
    throw MerchantClosedException
  else ret tt.

Definition validateBankAccountDetails (dto : BankAccountDto.t) : M unit :=
  if negb (RegExp.test ACCOUNT_NUMBER_RE (BankAccountDto.accountNumber dto)) then
    throw (BankAccountInvalidException "Invalid account number format")
  else if truthy (Some (BankAccountDto.routingNumber dto))
          && negb (RegExp.test ROUTING_NUMBER_RE (BankAccountDto.routingNumber dto)) then
    throw (BankAccountInvalidException "Invalid routing number format")
  else if match BankAccountDto.swiftCode dto with
          | Some s => truthy (Some s) && negb (RegExp.test SWIFT_CODE_RE s)
          | None => false
          end then
    throw (BankAccountInvalidException "Invalid SWIFT code format")
  else if match BankAccountDto.iban dto with
          | Some s => truthy (Some s) && negb (RegExp.test IBAN_RE s)
          | None => false
          end then
    throw (BankAccountInvalidException "Invalid IBAN format")
  else ret tt.

Definition getMerchantById (i : MerchantId) : M Merchant :=
  merchant <- MerchantRepository.findById i ;;
  match merchant with
  | None => throw (MerchantNotFoundException (Some i))
  | Some m => ret m
  end.

Definition registerMerchant (dto : RegisterMerchantDto.t) : M Merchant :=
  existingMerchant <- MerchantRepository.findByEmail (RegisterMerchantDto.email dto) ;;
  match existingMerchant with
  | Some _ => throw (MerchantAlreadyExistsException (RegisterMerchantDto.email dto))
  | None =>
    let passwordHash := bcryptHash env (RegisterMerchantDto.password dto) in
    let verificationToken := generateVerificationToken in
    let verificationExpiry := setHours env (now env) VERIFICATION_TOKEN_EXPIRY_HOURS in
    merchant <- MerchantRepository.create
      [ set_name (RegisterMerchantDto.name dto);
        set_email (toLowerCase (RegisterMerchantDto.email dto));
        set_passwordHash (Some passwordHash);
        set_businessName (RegisterMerchantDto.businessName dto);
        set_phone (RegisterMerchantDto.phone dto);
        set_website (RegisterMerchantDto.website dto);
        set_businessType (RegisterMerchantDto.businessType dto);
        set_status PENDING;
        set_kycStatus KYC_NOT_STARTED;
        set_emailVerified false;
        set_emailVerificationToken (Some verificationToken);
        set_emailVerificationExpiresAt (Some verificationExpiry);
        set_bankAccountStatus BANK_NOT_VERIFIED;
        set_supportedCurrencies ["USD"];
        set_defaultCurrency "USD";
        set_settlementFrequency "daily";
        set_minimumSettlementAmount 0;
        set_autoSettlementEnabled true;
        set_apiQuotaLimit 1000;
        set_apiQuotaUsed 0;
        set_notificationPreferences (Some getDefaultNotificationPreferences) ] ;;
    tryCatch
      (deliver env (sendVerificationEmail (RegisterMerchantDto.email dto)
                      verificationToken (RegisterMerchantDto.name dto)))
      (logger_error ("Failed to send verification email to "
                     ++ RegisterMerchantDto.email dto)) ;;
    ret merchant
  end.

Definition verifyEmail (token : string) : M (option Merchant) :=
  found <- MerchantRepository.findByVerificationToken token ;;
  match found with
  | None => throw MerchantVerificationTokenInvalidException
  | Some merchant =>
    if emailVerified merchant then throw MerchantEmailAlreadyVerifiedException
    else if match emailVerificationExpiresAt merchant with
            | Some expiresAt => expiresAt <? now env
            | None => false
            end then
      throw MerchantVerificationTokenExpiredException
    else
      updatedMerchant <- MerchantRepository.update (id merchant)
        [ set_emailVerified true;
          set_emailVerifiedAt (Some (now env));
          set_emailVerificationToken None;
          set_emailVerificationExpiresAt None ] ;;
      tryCatch
        (deliver env (sendWelcomeEmail (email merchant) (name merchant)))
        (logger_error ("Failed to send welcome email to " ++ email merchant)) ;;
      ret updatedMerchant
  end.

Definition resendVerificationEmail (email : string) : M unit :=
  found <- MerchantRepository.findByEmail email ;;
  match found with
  | None => throw (MerchantNotFoundException None)
  | Some merchant =>
    if emailVerified merchant then throw MerchantEmailAlreadyVerifiedException
    else
      let verificationToken := generateVerificationToken in
      let verificationExpiry := setHours env (now env) VERIFICATION_TOKEN_EXPIRY_HOURS in
      MerchantRepository.update (id merchant)
        [ set_emailVerificationToken (Some verificationToken);
          set_emailVerificationExpiresAt (Some verificationExpiry) ] ;;
      deliver env (sendVerificationEmail email verificationToken (name merchant))
  end.

Definition submitKycDocuments (i : MerchantId) (dto : SubmitKycDto.t)
  : M (option Merchant) :=
  merchant <- getMerchantById i ;;
  if negb (emailVerified merchant) then throw MerchantEmailNotVerifiedException
  else if KycStatus_eqb (kycStatus merchant) KYC_APPROVED then
    throw KycAlreadyApprovedException
  else if KycStatus_eqb (kycStatus merchant) KYC_IN_REVIEW then
    throw KycAlreadySubmittedException
  else
    let requiredDocTypes := ["government_id"; "proof_of_address"] in
    let submittedTypes := map KycDocumentDto.type (SubmitKycDto.documents dto) in
    let missingDocs :=
      filter (fun type => negb (includes String.eqb submittedTypes type))
             requiredDocTypes in
    if (0 <? length missingDocs)%nat then
      throw (KycDocumentRequiredException (String.concat ", " missingDocs))
    else
      let kycDocuments :=
        map (fun doc =>
               {| doc_type := KycDocumentDto.type doc;
                  doc_fileName := KycDocumentDto.fileName doc;
                  doc_fileUrl := KycDocumentDto.fileUrl doc;
                  doc_uploadedAt := now env;
                  doc_status := DOC_PENDING;
                  doc_rejectionReason := None |})
            (SubmitKycDto.documents dto) in
      updatedMerchant <- MerchantRepository.updateKycStatus i KYC_PENDING
        [ set_kycDocuments (Some kycDocuments);
          set_kycSubmittedAt (Some (now env)) ] ;;
      tryCatch
        (deliver env (sendKycSubmittedEmail (email merchant) (name merchant)))
        (logger_error ("Failed to send KYC submitted email to " ++ email merchant)) ;;
      ret updatedMerchant.

(** [dto.rejectionReason || 'Documents could not be verified'] *)
Definition orDefault (s : option string) (d : string) : string :=
  match s with
  | Some v => if truthy s then v else d
  | None => d
  end.

Definition verifyKyc (i : MerchantId) (dto : VerifyKycDto.t) : M (option Merchant) :=
  merchant <- getMerchantById i ;;
  if negb (KycStatus_eqb (kycStatus merchant) KYC_PENDING)
     && negb (KycStatus_eqb (kycStatus merchant) KYC_IN_REVIEW) then
    throw (KycInvalidStatusException (kycStatus merchant) (VerifyKycDto.decision dto))
  else
    match VerifyKycDto.decision dto with
    | approved =>
      updatedMerchant <- MerchantRepository.updateKycStatus i KYC_APPROVED
        [ set_kycVerifiedAt (Some (now env)) ] ;;
      updatedMerchant <-
        (if emailVerified merchant && MerchantStatus_eqb (status merchant) PENDING then
           MerchantRepository.updateStatus i ACTIVE [] ;;
           reloaded <- getMerchantById i ;;
           ret (Some reloaded)
         else ret updatedMerchant) ;;
      tryCatch
        (deliver env (sendKycApprovedEmail (email merchant) (name merchant)))
        (logger_error ("Failed to send KYC approved email to " ++ email merchant)) ;;
      ret updatedMerchant
    | rejected =>
      updatedMerchant <- MerchantRepository.updateKycStatus i KYC_REJECTED
        [ set_kycRejectionReason (VerifyKycDto.rejectionReason dto) ] ;;
      tryCatch
        (deliver env (sendKycRejectedEmail (email merchant) (name merchant)
                        (orDefault (VerifyKycDto.rejectionReason dto)
                                   "Documents could not be verified")))
        (logger_error ("Failed to send KYC rejected email to " ++ email merchant)) ;;
      ret updatedMerchant
    end.

Definition updateBankAccount (i : MerchantId) (dto : BankAccountDto.t)
  : M (option Merchant) :=
  merchant <- getMerchantById i ;;
  validateMerchantActive merchant ;;
  validateBankAccountDetails dto ;;
  MerchantRepository.update i
    [ set_bankAccountNumber (Some (BankAccountDto.accountNumber dto));
      set_bankRoutingNumber (Some (BankAccountDto.routingNumber dto));
      set_bankAccountHolderName (Some (BankAccountDto.accountHolderName dto));
      set_bankName (Some (BankAccountDto.bankName dto));
      set_bankSwiftCode (BankAccountDto.swiftCode dto);
      set_bankIban (BankAccountDto.iban dto);
      set_bankAccountStatus BANK_PENDING ].

Definition verifyBankAccount (i : MerchantId) : M (option Merchant) :=
  merchant <- getMerchantById i ;;
  if negb (truthy (bankAccountNumber merchant))
     || negb (truthy (bankRoutingNumber merchant)) then
    throw BankAccountNotFoundException
  else if BankAccountStatus_eqb (bankAccountStatus merchant) BANK_VERIFIED then
    throw BankAccountAlreadyVerifiedException
  else
    let result :=
      bankVerificationService env
        (orDefault (bankAccountNumber merchant) "")
        (orDefault (bankRoutingNumber merchant) "")
        (orDefault (bankAccountHolderName merchant) "") in
    if negb (success result) then
      MerchantRepository.updateBankAccountStatus env i BANK_FAILED ;;
      throw (BankAccountVerificationFailedException (error result))
    else
      updatedMerchant <- MerchantRepository.updateBankAccountStatus env i BANK_VERIFIED ;;
      tryCatch
        (deliver env (sendBankAccountVerifiedEmail (email merchant) (name merchant)))
        (logger_error ("Failed to send bank verified email to " ++ email merchant)) ;;
      ret updatedMerchant.

(** The request's array is extended in place by [push]; the extended
    array is the one handed to the store. *)
Definition updateCurrencySettings (i : MerchantId) (dto : CurrencySettingsDto.t)
  : M (option Merchant) :=
  merchant <- getMerchantById i ;;
  validateMerchantActive merchant ;;
  let supportedCurrencies :=
    if negb (includes String.eqb (CurrencySettingsDto.supportedCurrencies dto)
               (CurrencySettingsDto.defaultCurrency dto)) then
      (CurrencySettingsDto.supportedCurrencies dto
         ++ [CurrencySettingsDto.defaultCurrency dto])%list
    else CurrencySettingsDto.supportedCurrencies dto in
  MerchantRepository.update i
    [ set_supportedCurrencies supportedCurrencies;
      set_defaultCurrency (CurrencySettingsDto.defaultCurrency dto) ].

Definition changeMerchantStatus (i : MerchantId) (dto : ChangeMerchantStatusDto.t)
  : M (option Merchant) :=
  merchant <- getMerchantById i ;;
  let validTransitions := VALID_STATUS_TRANSITIONS (status merchant) in
  if negb (includes MerchantStatus_eqb validTransitions
             (ChangeMerchantStatusDto.status dto)) then
    throw (MerchantInvalidStatusException (status merchant)
             (ChangeMerchantStatusDto.status dto))
  else
    let updateData : Partial :=
      match ChangeMerchantStatusDto.status dto with
      | SUSPENDED => [ set_suspensionReason (ChangeMerchantStatusDto.reason dto) ]
      | CLOSED => [ set_closedAt (Some (now env));
                    set_closedReason (ChangeMerchantStatusDto.reason dto) ]
      | _ => []
      end in
    updatedMerchant <- MerchantRepository.updateStatus i
      (ChangeMerchantStatusDto.status dto) updateData ;;
    tryCatch
      (if MerchantStatus_eqb (ChangeMerchantStatusDto.status dto) SUSPENDED then
         deliver env (sendAccountSuspendedEmail (email merchant) (name merchant)
                        (ChangeMerchantStatusDto.reason dto))
       else if MerchantStatus_eqb (ChangeMerchantStatusDto.status dto) ACTIVE
               && MerchantStatus_eqb (status merchant) SUSPENDED then
         deliver env (sendAccountReactivatedEmail (email merchant) (name merchant))
       else ret tt)
      (logger_error ("Failed to send status change email to " ++ email merchant)) ;;
    ret updatedMerchant.

Definition activateMerchant (i : MerchantId) : M (option Merchant) :=
  changeMerchantStatus i
    {| ChangeMerchantStatusDto.status := ACTIVE;
       ChangeMerchantStatusDto.reason := None |}.

Definition suspendMerchant (i : MerchantId) (reason : option string)
  : M (option Merchant) :=
  changeMerchantStatus i
    {| ChangeMerchantStatusDto.status := SUSPENDED;
       ChangeMerchantStatusDto.reason := reason |}.

Definition closeMerchantAccount (i : MerchantId) (reason : option string)
  : M (option Merchant) :=
  changeMerchantStatus i
    {| ChangeMerchantStatusDto.status := CLOSED;
       ChangeMerchantStatusDto.reason := reason |}.

Definition updateApiQuota (i : MerchantId) (dto : UpdateApiQuotaDto.t)
  : M (option Merchant) :=
  _ <- getMerchantById i ;;
  MerchantRepository.update i
    [ set_apiQuotaLimit (UpdateApiQuotaDto.apiQuotaLimit dto) ].

Definition checkAndIncrementApiQuota (i : MerchantId) : M unit :=
  merchant <- getMerchantById i ;;
  if apiQuotaUsed merchant >=? apiQuotaLimit merchant then
    throw (ApiQuotaExceededException (apiQuotaLimit merchant)
             (apiQuotaResetAt merchant))
  else MerchantRepository.incrementApiQuota i.

Definition resetApiQuotas : M unit := MerchantRepository.resetApiQuotas.

Fixpoint forEach {A} (l : list A) (body : A -> M unit) : M unit :=
  match l with
  | [] => ret tt
  | x :: rest => body x ;; forEach rest body
  end.

Definition cleanupExpiredTokens : M unit :=
  expiredMerchants <- MerchantRepository.findExpiredVerificationTokens env ;;
  forEach expiredMerchants (fun merchant =>
    MerchantRepository.update (id merchant)
      [ set_emailVerificationToken None;
        set_emailVerificationExpiresAt None ] ;;
    ret tt).

(** *** The remaining methods *)

Definition getMerchantByEmail (e : string) : M Merchant :=
  merchant <- MerchantRepository.findByEmail e ;;
  match merchant with
  | None => throw (MerchantNotFoundException None)
  | Some m => ret m
  end.

Definition validateBusinessRegistrationNumber (regNumber : string) : M unit :=
  if ((utf16Length regNumber <? 5) || (50 <? utf16Length regNumber))%nat then
    throw (PlainError "Invalid business registration number format")
  else ret tt.

Definition validateTaxId (taxId : string) : M unit :=
  if ((utf16Length taxId <? 5) || (50 <? utf16Length taxId))%nat then
    throw (PlainError "Invalid tax ID format")
  else ret tt.

Definition updateBusinessDetails (i : MerchantId) (dto : UpdateBusinessDetailsDto.t)
  : M (option Merchant) :=
  merchant <- getMerchantById i ;;
  validateMerchantActive merchant ;;
  match UpdateBusinessDetailsDto.businessRegistrationNumber dto with
  | Some regNumber =>
    if truthy (Some regNumber) then validateBusinessRegistrationNumber regNumber
    else ret tt
  | None => ret tt
  end ;;
  match UpdateBusinessDetailsDto.taxId dto with
  | Some taxId => if truthy (Some taxId) then validateTaxId taxId else ret tt
  | None => ret tt
  end ;;
  MerchantRepository.update i
    [ set_businessName (Some (UpdateBusinessDetailsDto.businessName dto));
      set_businessType (Some (UpdateBusinessDetailsDto.businessType dto));
      set_businessRegistrationNumber
        (UpdateBusinessDetailsDto.businessRegistrationNumber dto);
      set_taxId (UpdateBusinessDetailsDto.taxId dto);
      set_businessDescription (UpdateBusinessDetailsDto.businessDescription dto);
      set_businessCategory (UpdateBusinessDetailsDto.businessCategory dto) ].

Definition updateAddress (i : MerchantId) (dto : AddressDto.t) : M (option Merchant) :=
  merchant <- getMerchantById i ;;
  validateMerchantActive merchant ;;
  MerchantRepository.update i
    [ set_addressLine1 (Some (AddressDto.addressLine1 dto));
      set_addressLine2 (AddressDto.addressLine2 dto);
      set_city (Some (AddressDto.city dto));
      set_state (Some (AddressDto.state dto));
      set_postalCode (Some (AddressDto.postalCode dto));
      set_country (Some (toUpperCase (AddressDto.country dto))) ].

(** [{ ...currentPrefs, ...dto }]: every own property of the request is
    copied over the current one, whatever it holds ([null] and [undefined]
    included); the properties the request does not have are kept. *)
Definition spreadPreferences (currentPrefs : NotificationPreferences)
           (dto : NotificationPreferencesDto.t) : NotificationPreferences :=
  let pick (given : option (option bool)) (current : option bool) : option bool :=
    match given with Some v => v | None => current end in
  {| emailNotifications :=
       pick (NotificationPreferencesDto.emailNotifications dto)
            (emailNotifications currentPrefs);
     smsNotifications :=
       pick (NotificationPreferencesDto.smsNotifications dto)
            (smsNotifications currentPrefs);
     pushNotifications :=
       pick (NotificationPreferencesDto.pushNotifications dto)
            (pushNotifications currentPrefs);
     paymentReceived :=
       pick (NotificationPreferencesDto.paymentReceived dto)
            (paymentReceived currentPrefs);
     settlementCompleted :=
       pick (NotificationPreferencesDto.settlementCompleted dto)
            (settlementCompleted currentPrefs);
     kycStatusUpdate :=
       pick (NotificationPreferencesDto.kycStatusUpdate dto)
            (kycStatusUpdate currentPrefs);
     securityAlerts :=
       pick (NotificationPreferencesDto.securityAlerts dto)
            (securityAlerts currentPrefs);
     marketingEmails :=
       pick (NotificationPreferencesDto.marketingEmails dto)
            (marketingEmails currentPrefs) |}.

Definition updateNotificationPreferences (i : MerchantId)
           (dto : NotificationPreferencesDto.t) : M (option Merchant) :=
  merchant <- getMerchantById i ;;
  let currentPrefs :=
    match notificationPreferences merchant with
    | Some prefs => prefs
    | None => getDefaultNotificationPreferences
    end in
  let newPrefs := spreadPreferences currentPrefs dto in
  MerchantRepository.update i [ set_notificationPreferences (Some newPrefs) ].

(** [n || d] on an optional number: [undefined] and [0] are falsy. *)
Definition numberOr (n : option Z) (d : Z) : Z :=
  match n with
  | Some v => if v =? 0 then d else v
  | None => d
  end.

(** [Math.ceil(total / limit)] on integers, for a divisor other than zero. *)
Definition ceilDiv (total limit : Z) : Z := - ((- total) / limit).

(** The search itself is the store's; the service pages its answer. *)
Variable search : SearchMerchantsDto.t -> M (list Merchant * Z).

Definition searchMerchants (dto : SearchMerchantsDto.t) : M PaginatedMerchants :=
  found <- search dto ;;
  let page := numberOr (SearchMerchantsDto.page dto) 1 in
  let limit := numberOr (SearchMerchantsDto.limit dto) 20 in
  let totalPages := ceilDiv (snd found) limit in
  ret {| data := fst found; total := snd found; page := page;
         limit := limit; totalPages := totalPages |}.

End Service.
End MerchantService.

(** ** Admin login (admin-auth.service.ts)

    Only the test-suite of the admin authentication service is among the
    sources; the service itself is modelled from section 4.2 of the
    specification, step by step. *)

Module AdminAuthService.

Inductive UserRole := USER | ADMIN | SUPPORT_ADMIN.

Record UserEntity := {
  id : string;
  email : string;
  password : string;
  role : UserRole;
  isActive : bool
}.

Record AdminLoginAttemptEntity := {
  attemptEmail : string;
  successful : bool;
  createdAt : Date
}.

Record AdminSessionEntity := {
  userId : string;
  refreshToken : string;
  sessionIsActive : bool;
  expiresAt : Date;
  userAgent : string;
  ipAddress : string
}.

Record AdminWorld := {
  users : list UserEntity;
  sessions : list AdminSessionEntity;
  attempts : list AdminLoginAttemptEntity
}.

Inductive TokenKind := admin_access | admin_refresh.

(** The clock, the configuration and the two cryptographic collaborators
    ([PasswordService.comparePassword], [JwtService.sign]). *)
Record AdminEnv := {
  clock : Date;
  lockoutWindow : Z;
  accessTokenTtl : Z;
  sessionTtl : Z;
  comparePassword : string -> string -> bool;
  sign : TokenKind -> string -> string
}.

Inductive AuthException :=
| UnauthorizedException
| ForbiddenException.

Record AdminLoginDto := { loginEmail : string; loginPassword : string }.

Record AdminLoginResponse := {
  access_token : string;
  expires_in : Z;
  adminId : string;
  adminEmail : string;
  adminRole : UserRole;
  refresh_token : string
}.

(** Modelled from the spec: the lockout threshold, "threshold (5)". *)
Definition MAX_LOGIN_ATTEMPTS : nat := 5.

(** Modelled from the spec: "recent failed attempts for the email within a
    lockout window". *)
Definition recentFailure (env : AdminEnv) (e : string)
           (a : AdminLoginAttemptEntity) : bool :=
  String.eqb (attemptEmail a) e && negb (successful a)
  && (clock env - lockoutWindow env <=? createdAt a).

Definition countRecentFailures (env : AdminEnv) (e : string) (w : AdminWorld) : nat :=
  length (filter (recentFailure env e) (attempts w)).

Definition isAdminRole (r : UserRole) : bool :=
  match r with ADMIN | SUPPORT_ADMIN => true | USER => false end.

(** Modelled from the spec: "record the failed attempt ... before
    returning". *)
Definition recordFailedAttempt (env : AdminEnv) (e : string) (w : AdminWorld)
  : AdminWorld :=
  {| users := users w; sessions := sessions w;
     attempts := attempts w
                 ++ [{| attemptEmail := e; successful := false;
                        createdAt := clock env |}] |}.

(** Modelled from the spec: the state machine of one login attempt
    (section 4.2, steps 1 to 4). *)
Definition login (env : AdminEnv) (dto : AdminLoginDto) (ua ip : string)
           (w : AdminWorld) : (AdminLoginResponse + AuthException) * AdminWorld :=
  if (MAX_LOGIN_ATTEMPTS <=? countRecentFailures env (loginEmail dto) w)%nat then
    (inr ForbiddenException, w)
  else
    match find (fun u => String.eqb (email u) (loginEmail dto)) (users w) with
    | None =>
      (inr UnauthorizedException, recordFailedAttempt env (loginEmail dto) w)
    | Some user =>
      if negb (isAdminRole (role user)) then
        (inr UnauthorizedException, recordFailedAttempt env (loginEmail dto) w)
      else if negb (comparePassword env (loginPassword dto) (password user)) then
        (inr UnauthorizedException, recordFailedAttempt env (loginEmail dto) w)
      else
        let refresh := sign env admin_refresh (id user) in
        (inl {| access_token := sign env admin_access (id user);
                expires_in := accessTokenTtl env;
                adminId := id user;
                adminEmail := email user;
                adminRole := role user;
                refresh_token := refresh |},
         {| users := users w;
            sessions := sessions w
                        ++ [{| userId := id user; refreshToken := refresh;
                               sessionIsActive := true;
                               expiresAt := clock env + sessionTtl env;
                               userAgent := ua; ipAddress := ip |}];
            attempts := attempts w |})
    end.

End AdminAuthService.

(** ** Vocabulary of the statements *)

(** [stored w i m]: the row with primary key [i] is [m]. *)
Definition stored (w : World) (i : MerchantId) (m : Merchant) : Prop :=
  find (MerchantRepository.hasId i) (merchants w) = Some m.

(** [sameRows w w']: the two worlds hold the same rows and the same key
    counter; they may differ in what was mailed and what was logged. *)
Definition sameRows (w w' : World) : Prop :=
  merchants w' = merchants w /\ nextId w' = nextId w.

(** ** Sample data, for running the service *)

Definition emptyWorld : World :=
  {| merchants := []; nextId := O; outbox := []; errorLog := [] |}.

(** A mailer that delivers everything and one that rejects everything. *)
Definition mailerUp (_ : Email) : option string := None.
Definition mailerDown (_ : Email) : option string := Some "SMTP connection refused".

(** Milliseconds in an hour, and the local time of a zone whose clocks are
    never changed (UTC, say). *)
Definition msPerHour : Z := 3600000.

Definition steadyClock (d : Date) (h : Z) : Date := d + h * msPerHour.

Definition sampleEnv (t : Date) (token : string)
           (mailer : Email -> option string) : Env :=
  {| now := t;
     setHours := steadyClock;
     randomBytesHex := token;
     bcryptHash := fun pw => "$2b$10$" ++ pw;
     emailService := mailer;
     bankVerificationService := fun _ _ _ => {| success := true; error := None |} |}.

Definition jane : RegisterMerchantDto.t :=
  {| RegisterMerchantDto.name := "Jane";
     RegisterMerchantDto.email := "jane@x.com";
     RegisterMerchantDto.password := "pw12345678";
     RegisterMerchantDto.businessName := None;
     RegisterMerchantDto.phone := None;
     RegisterMerchantDto.website := None;
     RegisterMerchantDto.businessType := None |}.

(** The row of a merchant with primary key [i] in the given status. *)
Definition sampleMerchant : MerchantId -> MerchantStatus -> Merchant :=
  Eval cbv in
    fun i s =>
      set_status s (set_email "jane@x.com" (set_name "Jane" (MerchantRepository.newRow i))).

Definition worldOf (rows : list Merchant) : World :=
  {| merchants := rows; nextId := length rows; outbox := []; errorLog := [] |}.


(** A merchant whose KYC documents await the admin's decision. *)
Definition kycPendingMerchant : MerchantId -> bool -> Merchant :=
  Eval cbv in
    fun i verified =>
      set_kycStatus KYC_PENDING (set_emailVerified verified (sampleMerchant i PENDING)).

(** The world after a sequence of [checkAndIncrementApiQuota] calls, one per
    listed merchant, whatever each call answers. *)
Definition afterQuotaCalls (calls : list MerchantId) (w : World) : World :=
  fold_left (fun w i => snd (MerchantService.checkAndIncrementApiQuota i w)) calls w.


(** An active merchant with the given quota counters. *)
Definition quotaMerchant : MerchantId -> Z -> Z -> Merchant :=
  Eval cbv in
    fun i used limit =>
      set_apiQuotaUsed used (set_apiQuotaLimit limit (sampleMerchant i ACTIVE)).

(** A reachable world: Jane registers, makes three API calls, and the admin
    then lowers her limit to two. *)
Definition overdrawnWorld : World :=
  let env := sampleEnv 0 "t0" mailerUp in
  let w1 := snd (MerchantService.registerMerchant env jane emptyWorld) in
  let w2 := afterQuotaCalls [O; O; O] w1 in
  snd (MerchantService.updateApiQuota O {| UpdateApiQuotaDto.apiQuotaLimit := 2 |} w2).


(** ** The bank-account rules in the words of the specification

    These follow the prose ("4-17 digits", "exactly 9 digits", "when
    present"), not the code; the theorems compare them with the regular
    expressions of [validateBankAccountDetails]. *)

Definition allDigits (s : string) : bool :=
  forallb RegExp.digit (list_ascii_of_string s).

(** "account number as 4-17 digits" *)
Definition accountNumberOk (s : string) : bool :=
  ((4 <=? String.length s) && (String.length s <=? 17))%nat && allDigits s.

(** "exactly 9 digits" *)
Definition nineDigits (s : string) : bool :=
  Nat.eqb (String.length s) 9 && allDigits s.

(** A string-valued property is present when it is neither missing nor
    empty. *)
Definition present (s : option string) : Prop :=
  exists v, s = Some v /\ v <> "".

(** All four checks of the specification, on one request. *)
Definition bankDetailsOk (dto : BankAccountDto.t) : Prop :=
  accountNumberOk (BankAccountDto.accountNumber dto) = true
  /\ (present (Some (BankAccountDto.routingNumber dto)) ->
      nineDigits (BankAccountDto.routingNumber dto) = true)
  /\ (forall s, BankAccountDto.swiftCode dto = Some s -> s <> "" ->
                RegExp.test SWIFT_CODE_RE s = true)
  /\ (forall s, BankAccountDto.iban dto = Some s -> s <> "" ->
                RegExp.test IBAN_RE s = true).

Definition bankDto (account routing : string) : BankAccountDto.t :=
  {| BankAccountDto.accountNumber := account;
     BankAccountDto.routingNumber := routing;
     BankAccountDto.accountHolderName := "Jane Doe";
     BankAccountDto.bankName := "Chase Bank";
     BankAccountDto.swiftCode := None;
     BankAccountDto.iban := None |}.


(** An optional property passes a pattern when it is absent, empty, or
    matches. *)
Definition optionalOk (re : RegExp.t) (o : option string) : bool :=
  match o with
  | Some s => negb (truthy (Some s)) || RegExp.test re s
  | None => true
  end.


(** How many rows carry the e-mail address [e], up to letter case. *)
Definition countByEmail (e : string) (w : World) : nat :=
  length (filter (MerchantRepository.sameEmail e) (merchants w)).

Definition janeShouting : RegisterMerchantDto.t :=
  {| RegisterMerchantDto.name := "Jane";
     RegisterMerchantDto.email := "Jane@X.COM";
     RegisterMerchantDto.password := "pw12345678";
     RegisterMerchantDto.businessName := None;
     RegisterMerchantDto.phone := None;
     RegisterMerchantDto.website := None;
     RegisterMerchantDto.businessType := None |}.


(** ** Sample data for the admin login *)

Definition adminEnv (t : Date) : AdminAuthService.AdminEnv :=
  {| AdminAuthService.clock := t;
     AdminAuthService.lockoutWindow := 900000;
     AdminAuthService.accessTokenTtl := 7200;
     AdminAuthService.sessionTtl := 604800000;
     AdminAuthService.comparePassword := String.eqb;
     AdminAuthService.sign := fun _ subject => "jwt:" ++ subject |}.

Definition userOf (e : string) (r : AdminAuthService.UserRole)
  : AdminAuthService.UserEntity :=
  {| AdminAuthService.id := "user_123";
     AdminAuthService.email := e;
     AdminAuthService.password := "password123";
     AdminAuthService.role := r;
     AdminAuthService.isActive := true |}.

Definition failedAt (e : string) (t : Date)
  : AdminAuthService.AdminLoginAttemptEntity :=
  {| AdminAuthService.attemptEmail := e;
     AdminAuthService.successful := false;
     AdminAuthService.createdAt := t |}.

Definition loginOf (e pw : string) : AdminAuthService.AdminLoginDto :=
  {| AdminAuthService.loginEmail := e; AdminAuthService.loginPassword := pw |}.

(** A plain user whose address has five failed attempts in the last minutes. *)
Definition lockedOutUserWorld : AdminAuthService.AdminWorld :=
  {| AdminAuthService.users := [userOf "bob@example.com" AdminAuthService.USER];
     AdminAuthService.sessions := [];
     AdminAuthService.attempts :=
       map (failedAt "bob@example.com") [1000; 2000; 3000; 4000; 5000] |}.

(** An administrator and nothing else. *)
Definition adminOnlyWorld : AdminAuthService.AdminWorld :=
  {| AdminAuthService.users := [userOf "admin@example.com" AdminAuthService.ADMIN];
     AdminAuthService.sessions := [];
     AdminAuthService.attempts := [] |}.

(** The world after the given login attempts, made one after the other. *)
Fixpoint afterLogins (tries : list (Date * string)) (e : string)
         (w : AdminAuthService.AdminWorld) : AdminAuthService.AdminWorld :=
  match tries with
  | [] => w
  | (t, pw) :: rest =>
    afterLogins rest e
      (snd (AdminAuthService.login (adminEnv t) (loginOf e pw) "agent" "127.0.0.1" w))
  end.


(** ** Histories of calls

    One constructor per state-changing entry point of the service that is
    modelled above; [perform] runs a call and keeps the world it leaves,
    whatever it answers; [history] runs a list of calls, each with what the
    outside answers during that call. *)

Inductive Call :=
| CallRegisterMerchant (dto : RegisterMerchantDto.t)
| CallVerifyEmail (token : string)
| CallResendVerificationEmail (email : string)
| CallSubmitKycDocuments (i : MerchantId) (dto : SubmitKycDto.t)
| CallVerifyKyc (i : MerchantId) (dto : VerifyKycDto.t)
| CallUpdateBankAccount (i : MerchantId) (dto : BankAccountDto.t)
| CallVerifyBankAccount (i : MerchantId)
| CallUpdateCurrencySettings (i : MerchantId) (dto : CurrencySettingsDto.t)
| CallChangeMerchantStatus (i : MerchantId) (dto : ChangeMerchantStatusDto.t)
| CallUpdateApiQuota (i : MerchantId) (dto : UpdateApiQuotaDto.t)
| CallCheckAndIncrementApiQuota (i : MerchantId)
| CallResetApiQuotas
| CallCleanupExpiredTokens.

Definition perform (env : Env) (c : Call) (w : World) : World :=
  match c with
  | CallRegisterMerchant dto => snd (MerchantService.registerMerchant env dto w)
  | CallVerifyEmail token => snd (MerchantService.verifyEmail env token w)
  | CallResendVerificationEmail e =>
    snd (MerchantService.resendVerificationEmail env e w)
  | CallSubmitKycDocuments i dto =>
    snd (MerchantService.submitKycDocuments env i dto w)
  | CallVerifyKyc i dto => snd (MerchantService.verifyKyc env i dto w)
  | CallUpdateBankAccount i dto => snd (MerchantService.updateBankAccount i dto w)
  | CallVerifyBankAccount i => snd (MerchantService.verifyBankAccount env i w)
  | CallUpdateCurrencySettings i dto =>
    snd (MerchantService.updateCurrencySettings i dto w)
  | CallChangeMerchantStatus i dto =>
    snd (MerchantService.changeMerchantStatus env i dto w)
  | CallUpdateApiQuota i dto => snd (MerchantService.updateApiQuota i dto w)
  | CallCheckAndIncrementApiQuota i =>
    snd (MerchantService.checkAndIncrementApiQuota i w)
  | CallResetApiQuotas => snd (MerchantService.resetApiQuotas w)
  | CallCleanupExpiredTokens => snd (MerchantService.cleanupExpiredTokens env w)
  end.

Definition history (calls : list (Env * Call)) (w : World) : World :=
  fold_left (fun w ec => perform (fst ec) (snd ec) w) calls w.

(** [spent token t rows]: every row that still holds [token] is already
    verified, or its token expired before [t]. *)
Definition spent (token : string) (t : Date) (rows : list Merchant) : Prop :=
  forall m,
    In m rows -> MerchantRepository.holdsToken token m = true ->
    emailVerified m = true
    \/ exists e, emailVerificationExpiresAt m = Some e /\ e < t.

(** [soleHolder token m rows]: [m] is the only row of [rows] holding [token]. *)
Definition soleHolder (token : string) (m : Merchant) (rows : list Merchant) : Prop :=
  forall m', In m' rows -> MerchantRepository.holdsToken token m' = true -> m' = m.

(** A history in which the clock never shows a time before [t] and the
    random source never issues [token] again. *)
Definition afterAndFresh (token : string) (t : Date) (calls : list (Env * Call)) : Prop :=
  Forall (fun ec => t <= now (fst ec) /\ randomBytesHex (fst ec) <> token) calls.

(** An assignment that gives no row the token [token]: the rows it
    rewrites either do not hold [token] afterwards or keep their three
    verification columns. *)
Definition tokenSafe (token : string) (f : Merchant -> Merchant) : Prop :=
  forall m,
    MerchantRepository.holdsToken token (f m) = false
    \/ (emailVerificationToken (f m) = emailVerificationToken m
        /\ emailVerified (f m) = emailVerified m
        /\ emailVerificationExpiresAt (f m) = emailVerificationExpiresAt m).


(** [preserves P c]: running [c] keeps the property [P] of the rows, whether
    [c] returns or throws. *)
Definition preserves {A} (P : list Merchant -> Prop) (c : M A) : Prop :=
  forall w, P (merchants w) -> P (merchants (snd (c w))).


(** A freshly registered merchant holding the given verification token. *)
Definition unverifiedMerchant : MerchantId -> string -> Date -> Merchant :=
  Eval cbv in
    fun i token expiresAt =>
      set_emailVerificationExpiresAt (Some expiresAt)
        (set_emailVerificationToken (Some token) (sampleMerchant i PENDING)).


(** The same outside world with another mailer. *)
Definition withMailer (env : Env) (mailer : Email -> option string) : Env :=
  {| now := now env;
     setHours := setHours env;
     randomBytesHex := randomBytesHex env;
     bcryptHash := bcryptHash env;
     emailService := mailer;
     bankVerificationService := bankVerificationService env |}.

(** [agree c1 c2]: from worlds with the same rows, the two computations
    give the same answer (the same value, or the same exception) and leave
    worlds with the same rows. *)
Definition agree {A} (c1 c2 : M A) : Prop :=
  forall w1 w2,
    sameRows w1 w2 ->
    fst (c1 w1) = fst (c2 w2) /\ sameRows (snd (c1 w1)) (snd (c2 w2)).


(** The two optional patterns, read as shapes: a SWIFT code is six capital
    letters, two capitals or digits and, optionally, three more; an IBAN is
    two capital letters, two digits and 4 to 30 capitals or digits. *)
Definition swiftShape (s : string) : Prop :=
  exists a b c,
    list_ascii_of_string s = (a ++ b ++ c)%list
    /\ length a = 6%nat /\ forallb RegExp.upper a = true
    /\ length b = 2%nat /\ forallb RegExp.upperOrDigit b = true
    /\ (c = [] \/ (length c = 3%nat /\ forallb RegExp.upperOrDigit c = true)).

Definition ibanShape (s : string) : Prop :=
  exists a b c,
    list_ascii_of_string s = (a ++ b ++ c)%list
    /\ length a = 2%nat /\ forallb RegExp.upper a = true
    /\ length b = 2%nat /\ forallb RegExp.digit b = true
    /\ (4 <= length c <= 30)%nat /\ forallb RegExp.upperOrDigit c = true.


(** ** Vocabulary of the further properties *)

(** The request carries a document of the given type. *)
Definition submits (type : string) (dto : SubmitKycDto.t) : Prop :=
  In type (map KycDocumentDto.type (SubmitKycDto.documents dto)).

(** A document as [submitKycDocuments] files it at time [t]. *)
Definition filedAt (t : Date) (d : KycDocument) : Prop :=
  doc_uploadedAt d = t /\ doc_status d = DOC_PENDING /\ doc_rejectionReason d = None.

Definition docOf (type : string) : KycDocumentDto.t :=
  {| KycDocumentDto.type := type;
     KycDocumentDto.fileName := type ++ ".pdf";
     KycDocumentDto.fileUrl := "https://storage.example.com/docs/" ++ type ++ ".pdf" |}.

Definition bothDocuments : SubmitKycDto.t :=
  {| SubmitKycDto.documents := [docOf "proof_of_address"; docOf "government_id"] |}.

(** [w'] holds what [w] holds, and the mailer was handed [mails] more. *)
Definition mailed (w w' : World) (mails : list Email) : Prop :=
  outbox w' = (outbox w ++ mails)%list /\ errorLog w' = errorLog w.


(** The documents of a request as [submitKycDocuments] files them at [t]. *)
Definition filedDocuments (t : Date) (dto : SubmitKycDto.t) : list KycDocument :=
  map (fun doc =>
         {| doc_type := KycDocumentDto.type doc;
            doc_fileName := KycDocumentDto.fileName doc;
            doc_fileUrl := KycDocumentDto.fileUrl doc;
            doc_uploadedAt := t;
            doc_status := DOC_PENDING;
            doc_rejectionReason := None |})
      (SubmitKycDto.documents dto).


(** The text a rejection e-mail carries: the admin's reason, or the stock
    sentence when there is none. *)
Definition rejectionText (dto : VerifyKycDto.t) : string :=
  match VerifyKycDto.rejectionReason dto with
  | Some EmptyString | None => "Documents could not be verified"
  | Some reason => reason
  end.


(** A merchant with bank details on file, in the given verification state. *)
Definition bankedMerchant : MerchantId -> BankAccountStatus -> Merchant :=
  Eval cbv in
    fun i s =>
      set_bankAccountStatus s
        (set_bankAccountHolderName (Some "Jane Doe")
           (set_bankRoutingNumber (Some "021000021")
              (set_bankAccountNumber (Some "1234567890") (sampleMerchant i ACTIVE)))).

(** The outside world with a bank-verification provider that declines. *)
Definition decliningBankEnv : Env :=
  {| now := 0;
     setHours := steadyClock;
     randomBytesHex := "t0";
     bcryptHash := fun pw => "$2b$10$" ++ pw;
     emailService := mailerUp;
     bankVerificationService :=
       fun _ _ _ => {| success := false; error := Some "account closed" |} |}.

(** What the provider is asked about a merchant: the account number, the
    routing number and the holder's name, or the empty string for a missing
    holder. *)
Definition providerAnswer (env : Env) (m : Merchant) : BankVerificationResult :=
  bankVerificationService env
    (MerchantService.orDefault (bankAccountNumber m) "")
    (MerchantService.orDefault (bankRoutingNumber m) "")
    (MerchantService.orDefault (bankAccountHolderName m) "").


Definition suspendedMerchant : MerchantId -> option string -> Merchant :=
  Eval cbv in
    fun i reason => set_suspensionReason reason (sampleMerchant i SUSPENDED).

Definition acmeDetails (regNumber : option string) : UpdateBusinessDetailsDto.t :=
  {| UpdateBusinessDetailsDto.businessName := "Acme Corporation";
     UpdateBusinessDetailsDto.businessType := CORPORATION;
     UpdateBusinessDetailsDto.businessRegistrationNumber := regNumber;
     UpdateBusinessDetailsDto.taxId := Some "TAX123456";
     UpdateBusinessDetailsDto.businessDescription := None;
     UpdateBusinessDetailsDto.businessCategory := None |}.

Definition mainStreet (country : string) : AddressDto.t :=
  {| AddressDto.addressLine1 := "123 Main St";
     AddressDto.addressLine2 := None;
     AddressDto.city := "San Francisco";
     AddressDto.state := "CA";
     AddressDto.postalCode := "94102";
     AddressDto.country := country |}.

(** An optional text is acceptable to [updateBusinessDetails] when it is
    missing, empty, or 5 to 50 UTF-16 code units long. *)
Definition lengthOk (s : option string) : Prop :=
  forall v, s = Some v -> v <> "" -> (5 <= utf16Length v <= 50)%nat.


(** A text made of ASCII characters only; on these the embeddings of
    [toLowerCase] and [toUpperCase] are those of the source. *)
Definition asciiText (s : string) : Prop :=
  Forall (fun c => (nat_of_ascii c < 128)%nat) (list_ascii_of_string s).

(** The two address requests differ at most in the country code. *)
Definition sameBut_country (a b : AddressDto.t) : Prop :=
  AddressDto.addressLine1 a = AddressDto.addressLine1 b
  /\ AddressDto.addressLine2 a = AddressDto.addressLine2 b
  /\ AddressDto.city a = AddressDto.city b
  /\ AddressDto.state a = AddressDto.state b
  /\ AddressDto.postalCode a = AddressDto.postalCode b.

Definition closedMerchant : MerchantId -> Merchant :=
  Eval cbv in fun i => sampleMerchant i CLOSED.

(** A request that turns SMS on and marketing off, carries [null] for the
    push notifications and has no other property. *)
Definition muteMarketing : NotificationPreferencesDto.t :=
  {| NotificationPreferencesDto.emailNotifications := None;
     NotificationPreferencesDto.smsNotifications := Some (Some true);
     NotificationPreferencesDto.pushNotifications := Some None;
     NotificationPreferencesDto.paymentReceived := None;
     NotificationPreferencesDto.settlementCompleted := None;
     NotificationPreferencesDto.kycStatusUpdate := None;
     NotificationPreferencesDto.securityAlerts := None;
     NotificationPreferencesDto.marketingEmails := Some (Some false) |}.

(** The eight properties: how to read each off a request and off a stored
    object. *)
Definition preferenceProperties
  : list ((NotificationPreferencesDto.t -> option (option bool))
          * (NotificationPreferences -> option bool)) :=
  [ (NotificationPreferencesDto.emailNotifications, emailNotifications);
    (NotificationPreferencesDto.smsNotifications, smsNotifications);
    (NotificationPreferencesDto.pushNotifications, pushNotifications);
    (NotificationPreferencesDto.paymentReceived, paymentReceived);
    (NotificationPreferencesDto.settlementCompleted, settlementCompleted);
    (NotificationPreferencesDto.kycStatusUpdate, kycStatusUpdate);
    (NotificationPreferencesDto.securityAlerts, securityAlerts);
    (NotificationPreferencesDto.marketingEmails, marketingEmails) ].

(** [laidOver dto current prefs]: property by property, [prefs] holds what
    the request holds where the request has the property, [null] and
    [undefined] included, and what [current] holds where it has not. *)
Definition laidOver (dto : NotificationPreferencesDto.t)
           (current prefs : NotificationPreferences) : Prop :=
  Forall (fun p =>
            match fst p dto with
            | Some v => snd p prefs = v
            | None => snd p prefs = snd p current
            end) preferenceProperties.

Definition firstPage (limit : option Z) : SearchMerchantsDto.t :=
  {| SearchMerchantsDto.search := None;
     SearchMerchantsDto.status := None;
     SearchMerchantsDto.kycStatus := None;
     SearchMerchantsDto.businessType := None;
     SearchMerchantsDto.country := None;
     SearchMerchantsDto.page := None;
     SearchMerchantsDto.limit := limit;
     SearchMerchantsDto.sortBy := None;
     SearchMerchantsDto.sortOrder := None |}.

(** A store whose search finds [total] rows and hands out none of them. *)
Definition countingSearch (total : Z) : SearchMerchantsDto.t -> M (list Merchant * Z) :=
  fun _ => ret ([], total).


(** The answer of a status change that went through: the stored row, now
    in the status [target]. *)
Definition nowIn (target : MerchantStatus) (i : MerchantId)
           (r : Completion (option Merchant) * World) (m' : Merchant) : Prop :=
  fst r = Return (Some m') /\ stored (snd r) i m' /\ status m' = target.


(** ** Sessions

    The histories above, extended by the entry points modelled last. *)

Inductive Request :=
| ServiceCall (c : Call)
| RequestUpdateBusinessDetails (i : MerchantId) (dto : UpdateBusinessDetailsDto.t)
| RequestUpdateAddress (i : MerchantId) (dto : AddressDto.t)
| RequestUpdateNotificationPreferences (i : MerchantId)
                                       (dto : NotificationPreferencesDto.t)
| RequestActivateMerchant (i : MerchantId)
| RequestSuspendMerchant (i : MerchantId) (reason : option string)
| RequestCloseMerchantAccount (i : MerchantId) (reason : option string).

Definition serve (env : Env) (r : Request) (w : World) : World :=
  match r with
  | ServiceCall c => perform env c w
  | RequestUpdateBusinessDetails i dto =>
    snd (MerchantService.updateBusinessDetails i dto w)
  | RequestUpdateAddress i dto => snd (MerchantService.updateAddress i dto w)
  | RequestUpdateNotificationPreferences i dto =>
    snd (MerchantService.updateNotificationPreferences i dto w)
  | RequestActivateMerchant i => snd (MerchantService.activateMerchant env i w)
  | RequestSuspendMerchant i reason =>
    snd (MerchantService.suspendMerchant env i reason w)
  | RequestCloseMerchantAccount i reason =>
    snd (MerchantService.closeMerchantAccount env i reason w)
  end.

Definition session (requests : list (Env * Request)) (w : World) : World :=
  fold_left (fun w er => serve (fst er) (snd er) w) requests w.

(** [rowHas i Q rows]: the row with primary key [i] exists and has [Q]. *)
Definition rowHas (i : MerchantId) (Q : Merchant -> Prop) (rows : list Merchant) : Prop :=
  exists m, find (MerchantRepository.hasId i) rows = Some m /\ Q m.


(** The account was closed at [closed], for the reason [reason]. *)
Definition closedSince (closed : option Date) (reason : option string)
           (m : Merchant) : Prop :=
  status m = CLOSED /\ closedAt m = closed /\ closedReason m = reason.

(** The KYC was approved at [verified]. *)
Definition approvedSince (verified : option Date) (m : Merchant) : Prop :=
  kycStatus m = KYC_APPROVED /\ kycVerifiedAt m = verified.


(** A closed merchant whose KYC documents still await a decision, and a
    merchant whose KYC was approved. *)
Definition closedWithPendingKyc : MerchantId -> Merchant :=
  Eval cbv in fun i => set_status CLOSED (kycPendingMerchant i true).

Definition approvedMerchant : MerchantId -> Date -> Merchant :=
  Eval cbv in
    fun i t =>
      set_kycVerifiedAt (Some t)
        (set_kycStatus KYC_APPROVED (kycPendingMerchant i true)).

Definition approval : VerifyKycDto.t :=
  {| VerifyKycDto.decision := approved; VerifyKycDto.rejectionReason := None |}.

Definition rejection : VerifyKycDto.t :=
  {| VerifyKycDto.decision := rejected;
     VerifyKycDto.rejectionReason := Some "Blurry scan" |}.


(** The default currency is one of the supported currencies. *)
Definition defaultSupported (m : Merchant) : Prop :=
  In (defaultCurrency m) (supportedCurrencies m).

(** The KYC is in one of the four states the service writes. *)
Definition kycWritten (m : Merchant) : Prop :=
  kycStatus m <> KYC_IN_REVIEW /\ kycStatus m <> KYC_EXPIRED.

Definition euroSettings : CurrencySettingsDto.t :=
  {| CurrencySettingsDto.supportedCurrencies := ["USD"; "GBP"];
     CurrencySettingsDto.defaultCurrency := "EUR" |}.


(** How many more calls the quota of [m] allows. *)
Definition remainingCalls (m : Merchant) : nat :=
  Z.to_nat (apiQuotaLimit m - apiQuotaUsed m).


(** What the hourly clean-up assigns to a row. *)
Definition clearToken : Merchant -> Merchant :=
  assignAll [set_emailVerificationToken None; set_emailVerificationExpiresAt None].

(** The primary keys of the rows are pairwise different. *)
Definition uniqueIds (w : World) : Prop := NoDup (map id (merchants w)).


(** When a verification token issued during the call [env] expires: 24
    hours later by the wall clock of the process. *)
Definition tokenExpiry (env : Env) : Date :=
  setHours env (now env) MerchantService.VERIFICATION_TOKEN_EXPIRY_HOURS.


(** What a successful verification assigns to the row. *)
Definition markVerified (env : Env) : Merchant -> Merchant :=
  assignAll [set_emailVerified true; set_emailVerifiedAt (Some (now env));
             set_emailVerificationToken None; set_emailVerificationExpiresAt None].

(** What a resent verification mail assigns to the row. *)
Definition newToken (env : Env) : Merchant -> Merchant :=
  assignAll [set_emailVerificationToken (Some (randomBytesHex env));
             set_emailVerificationExpiresAt (Some (tokenExpiry env))].

(** The store can take the registration: the address is free, the next
    primary key is unused and the token the random source issues is held
    by no row. *)
Definition canRegister (env : Env) (dto : RegisterMerchantDto.t) (w : World) : Prop :=
  find (MerchantRepository.sameEmail (RegisterMerchantDto.email dto)) (merchants w) = None
  /\ find (MerchantRepository.hasId (nextId w)) (merchants w) = None
  /\ find (MerchantRepository.holdsToken (randomBytesHex env)) (merchants w) = None.



(** No two rows carry the same e-mail address, upper and lower case taken
    as equal. *)
Definition distinctEmails (rows : list Merchant) : Prop :=
  NoDup (map (fun m => toLowerCase (email m)) rows).



(** Every stored address is made of ASCII characters, and every
    registration of a sequence of requests asks for such an address. *)
Definition asciiEmails (rows : list Merchant) : Prop :=
  Forall (fun m => asciiText (email m)) rows.

Definition asciiRegistration (r : Request) : Prop :=
  match r with
  | ServiceCall (CallRegisterMerchant dto) => asciiText (RegisterMerchantDto.email dto)
  | _ => True
  end.

Definition asciiRegistrations (requests : list (Env * Request)) : Prop :=
  Forall (fun er => asciiRegistration (snd er)) requests.

(** * Properties *)

(** ** The store *)

Section StoreLemmas.

Import MerchantRepository.

Lemma find_mapRow_same (i : MerchantId) (f : Merchant -> Merchant) rows :
  (forall m, id (f m) = id m) ->
  find (hasId i) (mapRow i f rows) = option_map f (find (hasId i) rows).
Proof.
  intros Hid. induction rows as [|m rows IH]; simpl; [reflexivity|].
  destruct (hasId i m) eqn:E.
  - unfold hasId in *. rewrite Hid, E. reflexivity.
  - rewrite E. exact IH.
Qed.

Lemma find_mapRow_other (i j : MerchantId) (f : Merchant -> Merchant) rows :
  (forall m, id (f m) = id m) -> i <> j ->
  find (hasId j) (mapRow i f rows) = find (hasId j) rows.
Proof.
  intros Hid Hne. induction rows as [|m rows IH]; simpl; [reflexivity|].
  destruct (hasId i m) eqn:E.
  - unfold hasId in *. rewrite Hid.
    apply Nat.eqb_eq in E. rewrite E.
    destruct (Nat.eqb i j) eqn:E'; [apply Nat.eqb_eq in E'; contradiction|].
    exact IH.
  - destruct (hasId j m); [reflexivity|exact IH].
Qed.

Lemma stored_id w i m : stored w i m -> id m = i.
Proof.
  unfold stored. intros H. apply find_some in H. destruct H as [_ H].
  apply Nat.eqb_eq. exact H.
Qed.

Lemma findById_stored w i m :
  stored w i m -> findById i w = (Return (Some m), w).
Proof. unfold stored, findById, bind, getRows, ret. intros ->. reflexivity. Qed.

Lemma update_stored w i m (data : Partial) :
  (forall m, id (assignAll data m) = id m) ->
  stored w i m ->
  update i data w
  = (Return (Some (assignAll data m)),
     setRows (mapRow i (assignAll data) (merchants w)) w).
Proof.
  intros Hid H. unfold update, findById, bind, getRows, putRows, ret.
  cbn [merchants setRows].
  rewrite find_mapRow_same by exact Hid. rewrite H. reflexivity.
Qed.

Lemma stored_after_mapRow w i m f :
  (forall m, id (f m) = id m) ->
  stored w i m ->
  stored (setRows (mapRow i f (merchants w)) w) i (f m).
Proof.
  intros Hid H. unfold stored. cbn [merchants setRows].
  rewrite find_mapRow_same by exact Hid.
  rewrite H. reflexivity.
Qed.

Lemma stored_other_mapRow w i j m f :
  (forall m, id (f m) = id m) -> i <> j ->
  stored w j m ->
  stored (setRows (mapRow i f (merchants w)) w) j m.
Proof.
  intros Hid Hne H. unfold stored. cbn [merchants setRows].
  rewrite find_mapRow_other by assumption. exact H.
Qed.

End StoreLemmas.

Lemma getMerchantById_stored w i m :
  stored w i m -> MerchantService.getMerchantById i w = (Return m, w).
Proof.
  intros H. unfold MerchantService.getMerchantById, bind.
  rewrite (findById_stored H). reflexivity.
Qed.

Lemma includes_In_status l s :
  includes MerchantStatus_eqb l s = true <-> In s l.
Proof.
  unfold includes. rewrite existsb_exists. split.
  - intros (y & Hy & E). destruct y, s; try discriminate; exact Hy.
  - intros H. exists s. split; [exact H|]. destruct s; reflexivity.
Qed.

(** ** Best-effort e-mail *)

Lemma sameRows_refl w : sameRows w w.
Proof. split; reflexivity. Qed.

Lemma sameRows_stored w w' i m : sameRows w w' -> stored w i m -> stored w' i m.
Proof. intros [E _] H. unfold stored in *. rewrite E. exact H. Qed.

Lemma bestEffort_deliver env e message w :
  exists w',
    tryCatch (deliver env e) (logger_error message) w = (Return tt, w')
    /\ sameRows w w'.
Proof.
  unfold tryCatch, deliver, logger_error, setOutbox.
  destruct (emailService env e); eexists;
    (split; [reflexivity|split; reflexivity]).
Qed.

(** ** Status transitions *)

Lemma assignAll_keeps_id_status s (extra : Partial) :
  (forall m, id (assignAll extra m) = id m) ->
  forall m, id (assignAll (set_status s :: extra) m) = id m.
Proof. intros H m. unfold assignAll in *. simpl. rewrite H. reflexivity. Qed.

(** C1.  [changeMerchantStatus] follows the transition table: the table is
    the one of the specification; a call returns only when the requested
    status is in the allowed set of the current one, and then stores it; a
    request outside the allowed set throws [MerchantInvalidStatusException]
    with the current and the requested status and leaves the world as it
    was; a CLOSED merchant admits no change. *)
Theorem changeMerchantStatus_follows_transition_table :
  forall env w i merchant dto,
    stored w i merchant ->
    let requested := ChangeMerchantStatusDto.status dto in
    let allowed := VALID_STATUS_TRANSITIONS (status merchant) in
    let r := MerchantService.changeMerchantStatus env i dto w in
    (VALID_STATUS_TRANSITIONS PENDING = [ACTIVE; SUSPENDED; CLOSED]
     /\ VALID_STATUS_TRANSITIONS ACTIVE = [INACTIVE; SUSPENDED; CLOSED]
     /\ VALID_STATUS_TRANSITIONS INACTIVE = [ACTIVE; SUSPENDED; CLOSED]
     /\ VALID_STATUS_TRANSITIONS SUSPENDED = [ACTIVE; CLOSED]
     /\ VALID_STATUS_TRANSITIONS CLOSED = [])
    /\ (forall m' w', r = (Return m', w') -> In requested allowed)
    /\ (In requested allowed ->
        exists m' w', r = (Return (Some m'), w')
                      /\ stored w' i m' /\ status m' = requested)
    /\ (~ In requested allowed ->
        r = (Throw (MerchantInvalidStatusException (status merchant) requested), w))
    /\ (status merchant = CLOSED ->
        r = (Throw (MerchantInvalidStatusException CLOSED requested), w)).
Proof.
  intros env w i merchant dto Hst requested allowed r.
  assert (Hoff : ~ In requested allowed ->
                 r = (Throw (MerchantInvalidStatusException (status merchant) requested), w)).
  { intros Hnot. subst r. unfold MerchantService.changeMerchantStatus, bind.
    rewrite (getMerchantById_stored Hst).
    destruct (includes MerchantStatus_eqb _ _) eqn:E.
    - apply includes_In_status in E. contradiction.
    - reflexivity. }
  assert (Hon : In requested allowed ->
                exists m' w', r = (Return (Some m'), w')
                              /\ stored w' i m' /\ status m' = requested).
  { intros Hin. subst r. unfold MerchantService.changeMerchantStatus, bind.
    rewrite (getMerchantById_stored Hst).
    apply includes_In_status in Hin. fold requested. fold allowed. rewrite Hin.
    cbn [negb]. unfold MerchantRepository.updateStatus.
    set (updateData := match requested with
                       | SUSPENDED => _ | CLOSED => _ | _ => _ end).
    assert (Hid : forall m, id (assignAll (set_status requested :: updateData) m) = id m).
    { apply assignAll_keeps_id_status. subst updateData.
      destruct requested; intros; reflexivity. }
    rewrite (update_stored _ Hid Hst).
    set (w1 := setRows _ w).
    assert (Hst1 : stored w1 i (assignAll (set_status requested :: updateData) merchant)).
    { apply stored_after_mapRow; assumption. }
    assert (Hmail : exists w2,
               tryCatch
                 (if MerchantStatus_eqb requested SUSPENDED
                  then deliver env (sendAccountSuspendedEmail (email merchant)
                                      (name merchant) (ChangeMerchantStatusDto.reason dto))
                  else if MerchantStatus_eqb requested ACTIVE
                          && MerchantStatus_eqb (status merchant) SUSPENDED
                       then deliver env (sendAccountReactivatedEmail (email merchant)
                                           (name merchant))
                       else ret tt)
                 (logger_error ("Failed to send status change email to "
                                ++ email merchant)) w1 = (Return tt, w2)
               /\ sameRows w1 w2).
    { destruct (MerchantStatus_eqb requested SUSPENDED);
        [apply bestEffort_deliver|].
      destruct (MerchantStatus_eqb requested ACTIVE
                && MerchantStatus_eqb (status merchant) SUSPENDED);
        [apply bestEffort_deliver|].
      exists w1. split; [reflexivity|apply sameRows_refl]. }
    destruct Hmail as (w2 & -> & Hsame).
    eexists _, w2. split; [reflexivity|]. split.
    - exact (sameRows_stored Hsame Hst1).
    - subst updateData. destruct requested; reflexivity. }
  split; [repeat split; reflexivity|].
  split.
  { intros m' w' Hr.
    destruct (includes MerchantStatus_eqb allowed requested) eqn:E.
    - apply includes_In_status. exact E.
    - rewrite Hoff in Hr; [discriminate|].
      intros Hin. apply includes_In_status in Hin. congruence. }
  split; [exact Hon|]. split; [exact Hoff|].
  intros Hclosed. rewrite Hoff.
  - rewrite Hclosed. reflexivity.
  - subst allowed. rewrite Hclosed. simpl. tauto.
Qed.


Lemma changeMerchantStatus_closed_is_terminal :
  MerchantService.changeMerchantStatus (sampleEnv 0 "t0" mailerUp) 0
    {| ChangeMerchantStatusDto.status := ACTIVE;
       ChangeMerchantStatusDto.reason := None |}
    (worldOf [sampleMerchant 0 CLOSED])
  = (Throw (MerchantInvalidStatusException CLOSED ACTIVE),
     worldOf [sampleMerchant 0 CLOSED]).
Proof.
  assert (Hst : stored (worldOf [sampleMerchant 0 CLOSED]) 0
                   (sampleMerchant 0 CLOSED)) by (vm_compute; reflexivity).
  apply (changeMerchantStatus_follows_transition_table
           (sampleEnv 0 "t0" mailerUp)
           {| ChangeMerchantStatusDto.status := ACTIVE;
              ChangeMerchantStatusDto.reason := None |} Hst).
  vm_compute; reflexivity.
Defined.

(** ** KYC decisions *)

Ltac keeps_id := let m := fresh "m" in intro m; reflexivity.

(** C2.  [verifyKyc] outside the statuses PENDING and IN_REVIEW throws
    [KycInvalidStatusException] and changes nothing.  In those two statuses
    the decision "approved" stores kycStatus = APPROVED and kycVerifiedAt =
    now, and the merchant's status becomes ACTIVE exactly when the e-mail is
    verified and the status is PENDING; otherwise, in particular when the
    e-mail is not verified, the status stays as it was. *)
Theorem verifyKyc_decision :
  forall env w i merchant dto,
    stored w i merchant ->
    let r := MerchantService.verifyKyc env i dto w in
    (kycStatus merchant <> KYC_PENDING -> kycStatus merchant <> KYC_IN_REVIEW ->
     r = (Throw (KycInvalidStatusException (kycStatus merchant)
                   (VerifyKycDto.decision dto)), w))
    /\ (kycStatus merchant = KYC_PENDING \/ kycStatus merchant = KYC_IN_REVIEW ->
        VerifyKycDto.decision dto = approved ->
        exists m' w',
          r = (Return (Some m'), w')
          /\ stored w' i m'
          /\ kycStatus m' = KYC_APPROVED
          /\ kycVerifiedAt m' = Some (now env)
          /\ (status m' = ACTIVE /\ status merchant <> ACTIVE
              <-> emailVerified merchant = true /\ status merchant = PENDING)
          /\ (emailVerified merchant = true -> status merchant = PENDING ->
              status m' = ACTIVE)
          /\ (emailVerified merchant = false -> status m' = status merchant)
          /\ (status merchant <> PENDING -> status m' = status merchant)).
Proof.
  intros env w i merchant dto Hst r. subst r. split.
  - intros H1 H2. unfold MerchantService.verifyKyc, bind.
    rewrite (getMerchantById_stored Hst).
    destruct (kycStatus merchant); try reflexivity; congruence.
  - intros Hk Hd. unfold MerchantService.verifyKyc, bind.
    rewrite (getMerchantById_stored Hst).
    replace (negb (KycStatus_eqb (kycStatus merchant) KYC_PENDING)
             && negb (KycStatus_eqb (kycStatus merchant) KYC_IN_REVIEW)) with false
      by (destruct Hk as [-> | ->]; reflexivity).
    rewrite Hd. unfold MerchantRepository.updateKycStatus.
    rewrite (@update_stored w i merchant
               [set_kycStatus KYC_APPROVED; set_kycVerifiedAt (Some (now env))]
               ltac:(keeps_id) Hst).
    set (m1 := assignAll _ merchant). set (w1 := setRows _ w).
    assert (Hst1 : stored w1 i m1) by (apply stored_after_mapRow; [keeps_id|exact Hst]).
    unfold ret at 2.
    destruct (emailVerified merchant && MerchantStatus_eqb (status merchant) PENDING) eqn:Hc.
    + unfold MerchantRepository.updateStatus.
      rewrite (@update_stored w1 i m1 [set_status ACTIVE] ltac:(keeps_id) Hst1).
      pose (m2 := assignAll [set_status ACTIVE] m1). set (w2 := setRows _ w1).
      assert (Hst2 : stored w2 i m2) by (apply stored_after_mapRow; [keeps_id|exact Hst1]).
      rewrite (getMerchantById_stored Hst2). unfold ret at 1.
      destruct (bestEffort_deliver env
                  (sendKycApprovedEmail (email merchant) (name merchant))
                  ("Failed to send KYC approved email to " ++ email merchant) w2)
        as (w3 & -> & Hsame).
      exists m2, w3. split; [reflexivity|].
      split; [exact (sameRows_stored Hsame Hst2)|].
      apply andb_prop in Hc. destruct Hc as [Hv Hp].
      assert (status merchant = PENDING) as HP
          by (destruct (status merchant); try discriminate; reflexivity).
      split; [reflexivity|]. split; [reflexivity|].
      split; [split; intros _; split; [exact Hv|exact HP|reflexivity|congruence]|].
      split; [intros _ _; reflexivity|].
      split; [intros Hf; congruence|intros Hn; contradiction].
    + destruct (bestEffort_deliver env
                  (sendKycApprovedEmail (email merchant) (name merchant))
                  ("Failed to send KYC approved email to " ++ email merchant) w1)
        as (w3 & -> & Hsame).
      exists m1, w3. split; [reflexivity|].
      split; [exact (sameRows_stored Hsame Hst1)|].
      change (status m1) with (status merchant).
      split; [reflexivity|]. split; [reflexivity|].
      split; [split; [intros [H1 H2]; contradiction
                     |intros [Hv Hp]; rewrite Hv, Hp in Hc; discriminate]|].
      split; [intros Hv Hp; rewrite Hv, Hp in Hc; discriminate|].
      split; intros _; reflexivity.
Qed.


Lemma verifyKyc_approved_activates :
  exists m' w',
    MerchantService.verifyKyc (sampleEnv 0 "t0" mailerUp) 0
      {| VerifyKycDto.decision := approved; VerifyKycDto.rejectionReason := None |}
      (worldOf [kycPendingMerchant 0 true])
    = (Return (Some m'), w')
    /\ status m' = ACTIVE.
Proof.
  assert (Hst : stored (worldOf [kycPendingMerchant 0 true]) 0
                   (kycPendingMerchant 0 true)) by (vm_compute; reflexivity).
  pose proof (proj2 (verifyKyc_decision (sampleEnv 0 "t0" mailerUp)
                       {| VerifyKycDto.decision := approved;
                          VerifyKycDto.rejectionReason := None |} Hst)) as H.
  destruct H as (m' & w' & Hr & _ & _ & _ & _ & Ha & _);
    [left; vm_compute; reflexivity|reflexivity|].
  exists m', w'. split; [exact Hr|].
  apply Ha; vm_compute; reflexivity.
Defined.

(** ** API quota *)

Lemma getMerchantById_missing : forall w i,
  find (MerchantRepository.hasId i) (merchants w) = None ->
  MerchantService.getMerchantById i w = (Throw (MerchantNotFoundException (Some i)), w).
Proof.
  intros w i H.
  unfold MerchantService.getMerchantById, MerchantRepository.findById,
    bind, getRows, ret.
  rewrite H. reflexivity.
Qed.

Lemma checkAndIncrement_exceeded w i m :
  stored w i m -> apiQuotaLimit m <= apiQuotaUsed m ->
  MerchantService.checkAndIncrementApiQuota i w
  = (Throw (ApiQuotaExceededException (apiQuotaLimit m) (apiQuotaResetAt m)), w).
Proof.
  intros Hst Hge. unfold MerchantService.checkAndIncrementApiQuota, bind.
  rewrite (getMerchantById_stored Hst).
  destruct (apiQuotaUsed m >=? apiQuotaLimit m) eqn:E; [reflexivity|].
  rewrite Z.geb_leb in E. apply Z.leb_gt in E. lia.
Qed.

Lemma checkAndIncrement_admitted w i m :
  stored w i m -> apiQuotaUsed m < apiQuotaLimit m ->
  MerchantService.checkAndIncrementApiQuota i w
  = (Return tt,
     setRows (MerchantRepository.mapRow i
                (fun r => set_apiQuotaUsed (apiQuotaUsed r + 1) r) (merchants w)) w).
Proof.
  intros Hst Hlt. unfold MerchantService.checkAndIncrementApiQuota, bind.
  rewrite (getMerchantById_stored Hst).
  destruct (apiQuotaUsed m >=? apiQuotaLimit m) eqn:E.
  - rewrite Z.geb_leb in E. apply Z.leb_le in E. lia.
  - reflexivity.
Qed.

(** One call, on any merchant [j], seen from the row of merchant [i]. *)
Lemma quota_call_bounded w i m j :
  stored w i m ->
  exists m',
    stored (snd (MerchantService.checkAndIncrementApiQuota j w)) i m'
    /\ apiQuotaLimit m' = apiQuotaLimit m
    /\ apiQuotaResetAt m' = apiQuotaResetAt m
    /\ apiQuotaUsed m <= apiQuotaUsed m' <= Z.max (apiQuotaUsed m) (apiQuotaLimit m).
Proof.
  intros Hst.
  destruct (find (MerchantRepository.hasId j) (merchants w)) as [mj|] eqn:Hj.
  - destruct (Z_lt_le_dec (apiQuotaUsed mj) (apiQuotaLimit mj)) as [Hlt|Hge].
    + rewrite (checkAndIncrement_admitted (m:=mj) Hj Hlt). cbn [snd].
      destruct (Nat.eq_dec j i) as [->|Hne].
      * assert (mj = m) by (unfold stored in Hst; congruence). subst mj.
        exists (set_apiQuotaUsed (apiQuotaUsed m + 1) m). split.
        { apply (stored_after_mapRow
                   (fun r => set_apiQuotaUsed (apiQuotaUsed r + 1) r));
            [keeps_id|exact Hst]. }
        split; [reflexivity|]. split; [reflexivity|].
        change (apiQuotaUsed (set_apiQuotaUsed (apiQuotaUsed m + 1) m))
          with (apiQuotaUsed m + 1). lia.
      * exists m. split.
        { apply stored_other_mapRow; [keeps_id|exact Hne|exact Hst]. }
        split; [reflexivity|]. split; [reflexivity|lia].
    + rewrite (checkAndIncrement_exceeded (m:=mj) Hj Hge). cbn [snd].
      exists m. split; [exact Hst|]. split; [reflexivity|].
      split; [reflexivity|lia].
  - unfold MerchantService.checkAndIncrementApiQuota, bind.
    rewrite (getMerchantById_missing w j Hj). cbn [snd].
    exists m. split; [exact Hst|]. split; [reflexivity|].
    split; [reflexivity|lia].
Qed.

Lemma quota_calls_bounded calls : forall w i m,
  stored w i m ->
  exists m',
    stored (afterQuotaCalls calls w) i m'
    /\ apiQuotaLimit m' = apiQuotaLimit m
    /\ apiQuotaResetAt m' = apiQuotaResetAt m
    /\ apiQuotaUsed m <= apiQuotaUsed m' <= Z.max (apiQuotaUsed m) (apiQuotaLimit m).
Proof.
  induction calls as [|j calls IH]; intros w i m Hst.
  - exists m. split; [exact Hst|]. split; [reflexivity|].
    split; [reflexivity|lia].
  - destruct (quota_call_bounded j Hst) as (m1 & Hst1 & Hl1 & Hr1 & Hu1).
    destruct (IH _ _ _ Hst1) as (m2 & Hst2 & Hl2 & Hr2 & Hu2).
    exists m2. split; [exact Hst2|]. split; [congruence|].
    split; [congruence|]. rewrite Hl1 in Hu2. lia.
Qed.

(** C3.  [checkAndIncrementApiQuota] throws [ApiQuotaExceededException],
    carrying the limit and the reset time, exactly when used >= limit, and
    then leaves the world as it was; otherwise it returns and the counter
    of that merchant has grown by exactly one, the limit being untouched.
    Hence no call lifts the counter above the limit: after any sequence of
    calls the counter is at most the larger of its initial value and the
    limit, so a counter that starts within the limit stays within it. *)
Theorem checkAndIncrementApiQuota_guards_limit :
  forall w i merchant,
    stored w i merchant ->
    let r := MerchantService.checkAndIncrementApiQuota i w in
    let exceeded :=
      Throw (ApiQuotaExceededException (apiQuotaLimit merchant)
               (apiQuotaResetAt merchant)) in
    (apiQuotaUsed merchant >= apiQuotaLimit merchant <-> fst r = exceeded)
    /\ (fst r = exceeded -> snd r = w)
    /\ (apiQuotaUsed merchant < apiQuotaLimit merchant ->
        exists m',
          fst r = Return tt
          /\ stored (snd r) i m'
          /\ apiQuotaUsed m' = apiQuotaUsed merchant + 1
          /\ apiQuotaLimit m' = apiQuotaLimit merchant
          /\ apiQuotaUsed m' <= apiQuotaLimit m')
    /\ (forall calls,
        exists m',
          stored (afterQuotaCalls calls w) i m'
          /\ apiQuotaLimit m' = apiQuotaLimit merchant
          /\ apiQuotaUsed m' <= Z.max (apiQuotaUsed merchant) (apiQuotaLimit merchant)
          /\ (apiQuotaUsed merchant <= apiQuotaLimit merchant ->
              apiQuotaUsed m' <= apiQuotaLimit m')).
Proof.
  intros w i merchant Hst r exceeded.
  assert (Hcases :
            (apiQuotaLimit merchant <= apiQuotaUsed merchant /\ r = (exceeded, w))
            \/ (apiQuotaUsed merchant < apiQuotaLimit merchant
                /\ r = (Return tt,
                        setRows (MerchantRepository.mapRow i
                                   (fun r => set_apiQuotaUsed (apiQuotaUsed r + 1) r)
                                   (merchants w)) w))).
  { destruct (Z_lt_le_dec (apiQuotaUsed merchant) (apiQuotaLimit merchant)) as [Hlt|Hge].
    - right. split; [exact Hlt|]. exact (checkAndIncrement_admitted Hst Hlt).
    - left. split; [exact Hge|]. exact (checkAndIncrement_exceeded Hst Hge). }
  split; [|split; [|split]].
  - destruct Hcases as [[Hge ->]|[Hlt ->]]; cbn [fst]; split; intros H;
      try reflexivity; try lia; discriminate.
  - destruct Hcases as [[Hge ->]|[Hlt ->]]; cbn [fst snd]; intros H;
      [reflexivity|discriminate].
  - intros Hlt. destruct Hcases as [[Hge _]|[_ ->]]; [lia|]. cbn [fst snd].
    exists (set_apiQuotaUsed (apiQuotaUsed merchant + 1) merchant).
    split; [reflexivity|]. split.
    { apply (stored_after_mapRow
               (fun r => set_apiQuotaUsed (apiQuotaUsed r + 1) r));
        [keeps_id|exact Hst]. }
    split; [reflexivity|]. split; [reflexivity|].
    change (apiQuotaUsed merchant + 1 <= apiQuotaLimit merchant). lia.
  - intros calls.
    destruct (quota_calls_bounded calls Hst) as (m' & Hst' & Hl & _ & Hu).
    exists m'. split; [exact Hst'|]. split; [exact Hl|]. split; [lia|].
    intros Hinit. rewrite Hl. lia.
Qed.


Lemma checkAndIncrementApiQuota_last_unit :
  exists m',
    fst (MerchantService.checkAndIncrementApiQuota 0 (worldOf [quotaMerchant 0 999 1000]))
    = Return tt
    /\ apiQuotaUsed m' = 1000
    /\ apiQuotaUsed m' <= apiQuotaLimit m'.
Proof.
  assert (Hst : stored (worldOf [quotaMerchant 0 999 1000]) 0 (quotaMerchant 0 999 1000))
    by (vm_compute; reflexivity).
  destruct (proj1 (proj2 (proj2 (checkAndIncrementApiQuota_guards_limit Hst))))
    as (m' & Hr & _ & Hu & _ & Hle); [vm_compute; reflexivity|].
  exists m'. split; [exact Hr|]. split; [exact Hu|exact Hle].
Defined.


Lemma find_map_keeps_id (i : MerchantId) (f : Merchant -> Merchant) rows :
  (forall m, id (f m) = id m) ->
  find (MerchantRepository.hasId i) (map f rows)
  = option_map f (find (MerchantRepository.hasId i) rows).
Proof.
  intros Hid. induction rows as [|m rows IH]; simpl; [reflexivity|].
  unfold MerchantRepository.hasId in *. rewrite Hid.
  destruct (Nat.eqb (id m) i); [reflexivity|exact IH].
Qed.

Lemma updateApiQuota_stored w i m dto :
  stored w i m ->
  MerchantService.updateApiQuota i dto w
  = (Return (Some (set_apiQuotaLimit (UpdateApiQuotaDto.apiQuotaLimit dto) m)),
     setRows (MerchantRepository.mapRow i
                (assignAll [set_apiQuotaLimit (UpdateApiQuotaDto.apiQuotaLimit dto)])
                (merchants w)) w).
Proof.
  intros Hst. unfold MerchantService.updateApiQuota, bind.
  rewrite (getMerchantById_stored Hst).
  rewrite (@update_stored w i m
             [set_apiQuotaLimit (UpdateApiQuotaDto.apiQuotaLimit dto)]
             ltac:(keeps_id) Hst).
  reflexivity.
Qed.

(** C10.  [updateApiQuota] stores the requested limit without looking at
    the counter: the limit of the row becomes the requested value and the
    counter keeps its value.  A state with the counter above the limit is
    reachable (register, three API calls, limit lowered to two).  In any
    state where the counter is not below the limit, every later
    [checkAndIncrementApiQuota] on that merchant throws
    [ApiQuotaExceededException], whatever quota calls come in between; the
    calls are admitted again after [resetApiQuotas] (for a positive limit)
    or after the limit is raised above the counter. *)
Theorem updateApiQuota_ignores_usage :
  (forall w i merchant dto,
      stored w i merchant ->
      exists m' w',
        MerchantService.updateApiQuota i dto w = (Return (Some m'), w')
        /\ stored w' i m'
        /\ apiQuotaLimit m' = UpdateApiQuotaDto.apiQuotaLimit dto
        /\ apiQuotaUsed m' = apiQuotaUsed merchant)
  /\ (exists m, stored overdrawnWorld 0 m /\ apiQuotaLimit m < apiQuotaUsed m)
  /\ (forall w i merchant dto,
         stored w i merchant ->
         UpdateApiQuotaDto.apiQuotaLimit dto <= apiQuotaUsed merchant ->
         forall calls,
           let w' := afterQuotaCalls calls
                       (snd (MerchantService.updateApiQuota i dto w)) in
           MerchantService.checkAndIncrementApiQuota i w'
           = (Throw (ApiQuotaExceededException (UpdateApiQuotaDto.apiQuotaLimit dto)
                       (apiQuotaResetAt merchant)), w'))
  /\ (forall w i merchant,
         stored w i merchant ->
         0 < apiQuotaLimit merchant ->
         fst (MerchantService.checkAndIncrementApiQuota i
                (snd (MerchantService.resetApiQuotas w))) = Return tt)
  /\ (forall w i merchant dto,
         stored w i merchant ->
         apiQuotaUsed merchant < UpdateApiQuotaDto.apiQuotaLimit dto ->
         fst (MerchantService.checkAndIncrementApiQuota i
                (snd (MerchantService.updateApiQuota i dto w))) = Return tt).
Proof.
  split; [|split; [|split; [|split]]].
  - intros w i merchant dto Hst. rewrite (updateApiQuota_stored dto Hst).
    eexists _, _. split; [reflexivity|]. split.
    + apply (stored_after_mapRow
               (assignAll [set_apiQuotaLimit (UpdateApiQuotaDto.apiQuotaLimit dto)]));
        [keeps_id|exact Hst].
    + split; reflexivity.
  - eexists. split; [vm_compute; reflexivity|]. vm_compute. reflexivity.
  - intros w i merchant dto Hst Hle calls.
    rewrite (updateApiQuota_stored dto Hst). cbn [snd].
    assert (Hst1 : stored (setRows (MerchantRepository.mapRow i
                             (assignAll [set_apiQuotaLimit
                                           (UpdateApiQuotaDto.apiQuotaLimit dto)])
                             (merchants w)) w) i
                     (set_apiQuotaLimit (UpdateApiQuotaDto.apiQuotaLimit dto) merchant)).
    { apply (stored_after_mapRow
               (assignAll [set_apiQuotaLimit (UpdateApiQuotaDto.apiQuotaLimit dto)]));
        [keeps_id|exact Hst]. }
    destruct (quota_calls_bounded calls Hst1) as (m' & Hst' & Hl & Hr & Hu).
    cbv zeta.
    rewrite (checkAndIncrement_exceeded Hst').
    + rewrite Hl, Hr. reflexivity.
    + rewrite Hl.
      change (UpdateApiQuotaDto.apiQuotaLimit dto <= apiQuotaUsed m').
      change (apiQuotaUsed merchant <= apiQuotaUsed m' <=
              Z.max (apiQuotaUsed merchant) (UpdateApiQuotaDto.apiQuotaLimit dto)) in Hu.
      lia.
  - intros w i merchant Hst Hpos.
    assert (Hst1 : stored (snd (MerchantService.resetApiQuotas w)) i
                     (set_apiQuotaUsed 0 merchant)).
    { unfold stored, MerchantService.resetApiQuotas, MerchantRepository.resetApiQuotas,
        bind, getRows, putRows. cbn [snd merchants setRows].
      rewrite find_map_keeps_id by keeps_id. rewrite Hst. reflexivity. }
    rewrite (checkAndIncrement_admitted Hst1); [reflexivity|exact Hpos].
  - intros w i merchant dto Hst Hlt.
    rewrite (updateApiQuota_stored dto Hst). cbn [snd].
    assert (Hst1 : stored (setRows (MerchantRepository.mapRow i
                             (assignAll [set_apiQuotaLimit
                                           (UpdateApiQuotaDto.apiQuotaLimit dto)])
                             (merchants w)) w) i
                     (set_apiQuotaLimit (UpdateApiQuotaDto.apiQuotaLimit dto) merchant)).
    { apply (stored_after_mapRow
               (assignAll [set_apiQuotaLimit (UpdateApiQuotaDto.apiQuotaLimit dto)]));
        [keeps_id|exact Hst]. }
    rewrite (checkAndIncrement_admitted Hst1); [reflexivity|exact Hlt].
Qed.

Lemma updateApiQuota_strands_jane :
  fst (MerchantService.checkAndIncrementApiQuota 0
         (afterQuotaCalls [1%nat; O]
            (snd (MerchantService.updateApiQuota 0
                    {| UpdateApiQuotaDto.apiQuotaLimit := 2 |}
                    (worldOf [quotaMerchant 0 3 1000])))))
  = Throw (ApiQuotaExceededException 2 None).
Proof.
  assert (Hst : stored (worldOf [quotaMerchant 0 3 1000]) 0 (quotaMerchant 0 3 1000))
    by reflexivity.
  assert (Hle : UpdateApiQuotaDto.apiQuotaLimit {| UpdateApiQuotaDto.apiQuotaLimit := 2 |}
                <= apiQuotaUsed (quotaMerchant 0 3 1000))
    by (intro H; discriminate H).
  rewrite (proj1 (proj2 (proj2 updateApiQuota_ignores_usage)) _ _ _ _ Hst Hle
             [1%nat; O]).
  reflexivity.
Defined.


(** ** Currency settings *)

Lemma validateMerchantActive_ok m w :
  status m <> SUSPENDED -> status m <> CLOSED ->
  MerchantService.validateMerchantActive m w = (Return tt, w).
Proof.
  intros H1 H2. unfold MerchantService.validateMerchantActive.
  destruct (status m); try reflexivity; congruence.
Qed.

Lemma includes_In_string l s :
  includes String.eqb l s = true <-> In s l.
Proof.
  unfold includes. rewrite existsb_exists. split.
  - intros (y & Hy & E). apply String.eqb_eq in E. subst. exact Hy.
  - intros H. exists s. split; [exact H|apply String.eqb_refl].
Qed.

(** C6.  For a merchant that is neither SUSPENDED nor CLOSED,
    [updateCurrencySettings] stores the requested default currency and a
    supported list that contains it: the requested list itself when it
    already has the default, and the requested list with the default
    appended otherwise.  So defaultCurrency is a member of
    supportedCurrencies after the update. *)
Theorem updateCurrencySettings_keeps_default_supported :
  forall w i merchant dto,
    stored w i merchant ->
    status merchant <> SUSPENDED ->
    status merchant <> CLOSED ->
    exists m' w',
      MerchantService.updateCurrencySettings i dto w = (Return (Some m'), w')
      /\ stored w' i m'
      /\ defaultCurrency m' = CurrencySettingsDto.defaultCurrency dto
      /\ In (defaultCurrency m') (supportedCurrencies m')
      /\ (In (CurrencySettingsDto.defaultCurrency dto)
             (CurrencySettingsDto.supportedCurrencies dto) ->
          supportedCurrencies m' = CurrencySettingsDto.supportedCurrencies dto)
      /\ (~ In (CurrencySettingsDto.defaultCurrency dto)
               (CurrencySettingsDto.supportedCurrencies dto) ->
          supportedCurrencies m'
          = (CurrencySettingsDto.supportedCurrencies dto
               ++ [CurrencySettingsDto.defaultCurrency dto])%list).
Proof.
  intros w i merchant dto Hst Hs Hc.
  unfold MerchantService.updateCurrencySettings, bind.
  rewrite (getMerchantById_stored Hst).
  rewrite (validateMerchantActive_ok _ _ Hs Hc).
  set (supported := if negb _ then _ else _).
  rewrite (@update_stored w i merchant
             [set_supportedCurrencies supported;
              set_defaultCurrency (CurrencySettingsDto.defaultCurrency dto)]
             ltac:(keeps_id) Hst).
  eexists _, _. split; [reflexivity|]. split.
  { apply (stored_after_mapRow
             (assignAll [set_supportedCurrencies supported;
                         set_defaultCurrency (CurrencySettingsDto.defaultCurrency dto)]));
      [keeps_id|exact Hst]. }
  split; [reflexivity|].
  change (In (CurrencySettingsDto.defaultCurrency dto) supported
          /\ (In (CurrencySettingsDto.defaultCurrency dto)
                 (CurrencySettingsDto.supportedCurrencies dto) ->
              supported = CurrencySettingsDto.supportedCurrencies dto)
          /\ (~ In (CurrencySettingsDto.defaultCurrency dto)
                   (CurrencySettingsDto.supportedCurrencies dto) ->
              supported = (CurrencySettingsDto.supportedCurrencies dto
                             ++ [CurrencySettingsDto.defaultCurrency dto])%list)).
  subst supported.
  destruct (includes String.eqb (CurrencySettingsDto.supportedCurrencies dto)
              (CurrencySettingsDto.defaultCurrency dto)) eqn:E; cbn [negb].
  - apply includes_In_string in E. split; [exact E|]. split; [reflexivity|].
    intros Hn. contradiction.
  - assert (Hn : ~ In (CurrencySettingsDto.defaultCurrency dto)
                     (CurrencySettingsDto.supportedCurrencies dto)).
    { intros Hin. apply includes_In_string in Hin. congruence. }
    split; [apply in_or_app; right; left; reflexivity|].
    split; [intros Hin; contradiction|reflexivity].
Qed.

Lemma updateCurrencySettings_adds_missing_default :
  exists m' w',
    MerchantService.updateCurrencySettings 0
      {| CurrencySettingsDto.supportedCurrencies := ["USD"; "EUR"];
         CurrencySettingsDto.defaultCurrency := "GBP" |}
      (worldOf [sampleMerchant 0 ACTIVE])
    = (Return (Some m'), w')
    /\ supportedCurrencies m' = ["USD"; "EUR"; "GBP"]
    /\ defaultCurrency m' = "GBP".
Proof.
  assert (Hst : stored (worldOf [sampleMerchant 0 ACTIVE]) 0 (sampleMerchant 0 ACTIVE))
    by (vm_compute; reflexivity).
  destruct (updateCurrencySettings_keeps_default_supported
              {| CurrencySettingsDto.supportedCurrencies := ["USD"; "EUR"];
                 CurrencySettingsDto.defaultCurrency := "GBP" |} Hst)
    as (m' & w' & Hr & _ & Hd & _ & _ & Hadd);
    [vm_compute; discriminate|vm_compute; discriminate|].
  exists m', w'. split; [exact Hr|]. split; [|exact Hd].
  apply Hadd. vm_compute. intuition discriminate.
Defined.


(** ** Bank-account details *)

Section RegExpLemmas.

Import RegExp.

(** Bounded repetition of a character class: some [n] characters, with
    [lo <= n <= hi], all in the class, and the continuation holds of the
    rest. *)
Lemma repeat_class p : forall hi lo s k,
  repeat (run (Class p)) lo hi s k = true
  <-> exists n, (lo <= n <= hi)%nat /\ (n <= length s)%nat
                /\ forallb p (firstn n s) = true /\ k (skipn n s) = true.
Proof.
  induction hi as [|hi IH]; intros lo s k.
  - destruct lo; simpl.
    + split.
      * intros H. exists O. repeat split; try lia. exact H.
      * intros (n & Hn & _ & _ & Hk). assert (n = O) by lia. subst. exact Hk.
    + split; [discriminate|]. intros (n & Hn & _). lia.
  - destruct lo as [|lo]; cbn [repeat run].
    + destruct s as [|c s].
      * cbn [orb]. split.
        -- intros H. exists O. repeat split; try lia. exact H.
        -- intros (n & _ & Hn & _ & Hk). simpl in Hn.
           assert (n = O) by lia. subst. exact Hk.
      * rewrite orb_true_iff, andb_true_iff, IH. split.
        -- intros [[Hp (n & Hn & Hl & Hall & Hk)]|Hk].
           ++ exists (S n). simpl. rewrite Hp, Hall.
              repeat split; try lia. exact Hk.
           ++ exists O. repeat split; try lia; try (simpl; lia). exact Hk.
        -- intros (n & Hn & Hl & Hall & Hk). destruct n as [|n].
           ++ right. exact Hk.
           ++ left. simpl in Hl, Hall, Hk. apply andb_true_iff in Hall.
              destruct Hall as [Hp Hall]. split; [exact Hp|].
              exists n. repeat split; try lia; assumption.
    + destruct s as [|c s].
      * split; [discriminate|]. intros (n & Hn & Hl & _). simpl in Hl. lia.
      * rewrite andb_true_iff, IH. split.
        -- intros [Hp (n & Hn & Hl & Hall & Hk)].
           exists (S n). simpl. rewrite Hp, Hall.
           repeat split; try lia. exact Hk.
        -- intros (n & Hn & Hl & Hall & Hk). destruct n as [|n]; [lia|].
           simpl in Hl, Hall, Hk. apply andb_true_iff in Hall.
           destruct Hall as [Hp Hall]. split; [exact Hp|].
           exists n. repeat split; try lia; assumption.
Qed.

Lemma length_list_ascii (s : string) :
  length (list_ascii_of_string s) = String.length s.
Proof. induction s as [|c s IH]; simpl; [reflexivity|rewrite IH; reflexivity]. Qed.

Lemma atEnd_skipn n (l : list ascii) :
  (n <= length l)%nat -> atEnd (skipn n l) = true -> n = length l.
Proof.
  revert l. induction n as [|n IH]; intros [|c l] Hl H; simpl in *;
    try reflexivity; try discriminate; try lia.
  f_equal. apply IH; [lia|exact H].
Qed.

(** [/^[class]{lo,hi}$/.test(s)]: the length of [s] is between [lo] and
    [hi], and every character is in the class. *)
Lemma test_repeat_class p lo hi s :
  test (Rep (Class p) lo hi) s
  = ((lo <=? String.length s) && (String.length s <=? hi))%nat
    && forallb p (list_ascii_of_string s).
Proof.
  assert (E : test (Rep (Class p) lo hi) s
              = repeat (run (Class p)) lo hi (list_ascii_of_string s) atEnd)
    by reflexivity.
  rewrite E. apply eq_true_iff_eq. rewrite repeat_class.
  rewrite !andb_true_iff, !Nat.leb_le, <- length_list_ascii. split.
  - intros (n & Hn & Hl & Hall & Hend).
    apply atEnd_skipn in Hend; [|exact Hl]. subst n.
    rewrite firstn_all in Hall. repeat split; try lia. exact Hall.
  - intros [[H1 H2] Hall]. exists (length (list_ascii_of_string s)).
    rewrite firstn_all, skipn_all. repeat split; try lia. exact Hall.
Qed.

End RegExpLemmas.

(** The first pattern accepts exactly the 4-17 digit strings, the second
    exactly the 9 digit strings. *)
Lemma ACCOUNT_NUMBER_RE_spec s :
  RegExp.test ACCOUNT_NUMBER_RE s = accountNumberOk s.
Proof. apply test_repeat_class. Qed.

Lemma ROUTING_NUMBER_RE_spec s :
  RegExp.test ROUTING_NUMBER_RE s = nineDigits s.
Proof.
  unfold ROUTING_NUMBER_RE, nineDigits, allDigits. rewrite test_repeat_class.
  f_equal. apply eq_true_iff_eq.
  rewrite andb_true_iff, !Nat.leb_le, Nat.eqb_eq. lia.
Qed.

(** Bounded repetition of a class, as a split of the input. *)
Lemma repeat_class_split p lo hi s k :
  RegExp.repeat (RegExp.run (RegExp.Class p)) lo hi s k = true
  <-> exists a rest,
      s = (a ++ rest)%list /\ (lo <= length a <= hi)%nat
      /\ forallb p a = true /\ k rest = true.
Proof.
  rewrite repeat_class. split.
  - intros (n & Hn & Hl & Hall & Hk). exists (firstn n s), (skipn n s).
    rewrite firstn_skipn, length_firstn, Nat.min_l by exact Hl.
    repeat split; try lia; assumption.
  - intros (a & rest & -> & Hn & Hall & Hk). exists (length a).
    rewrite length_app, firstn_app, Nat.sub_diag, firstn_all, firstn_O, app_nil_r.
    rewrite skipn_app, Nat.sub_diag, skipn_all, skipn_O.
    repeat split; try lia; assumption.
Qed.

Lemma atEnd_nil (l : list ascii) : RegExp.atEnd l = true <-> l = [].
Proof. destruct l; simpl; split; intros H; congruence. Qed.

Lemma SWIFT_CODE_RE_shape s :
  RegExp.test SWIFT_CODE_RE s = true <-> swiftShape s.
Proof.
  unfold RegExp.test, SWIFT_CODE_RE, swiftShape.
  set (l := list_ascii_of_string s). clearbody l.
  change (RegExp.repeat (RegExp.run (RegExp.Class RegExp.upper)) 6 6 l
            (fun l1 =>
               RegExp.repeat (RegExp.run (RegExp.Class RegExp.upperOrDigit)) 2 2 l1
                 (fun l2 =>
                    RegExp.repeat (RegExp.run (RegExp.Class RegExp.upperOrDigit))
                      3 3 l2 RegExp.atEnd
                    || RegExp.atEnd l2)) = true
          <-> exists a b c,
              l = (a ++ b ++ c)%list
              /\ length a = 6%nat /\ forallb RegExp.upper a = true
              /\ length b = 2%nat /\ forallb RegExp.upperOrDigit b = true
              /\ (c = [] \/ (length c = 3%nat
                             /\ forallb RegExp.upperOrDigit c = true))).
  rewrite repeat_class_split. split.
  - intros (a & l1 & -> & Ha & Hua & H1).
    apply repeat_class_split in H1. destruct H1 as (b & l2 & -> & Hb & Hub & H2).
    exists a, b, l2. split; [reflexivity|].
    split; [lia|]. split; [exact Hua|]. split; [lia|]. split; [exact Hub|].
    apply orb_true_iff in H2. destruct H2 as [H3|Hend].
    + right. apply repeat_class_split in H3.
      destruct H3 as (c & rest & -> & Hc & Huc & Hend).
      apply atEnd_nil in Hend. subst rest. rewrite app_nil_r.
      split; [lia|exact Huc].
    + left. apply atEnd_nil. exact Hend.
  - intros (a & b & c & -> & Ha & Hua & Hb & Hub & Hc).
    exists a, (b ++ c)%list. split; [reflexivity|]. split; [lia|].
    split; [exact Hua|]. apply repeat_class_split.
    exists b, c. split; [reflexivity|]. split; [lia|]. split; [exact Hub|].
    apply orb_true_iff. destruct Hc as [->|[Hc Huc]].
    + right. reflexivity.
    + left. apply repeat_class_split. exists c, []. rewrite app_nil_r.
      split; [reflexivity|]. split; [lia|]. split; [exact Huc|reflexivity].
Qed.

Lemma IBAN_RE_shape s :
  RegExp.test IBAN_RE s = true <-> ibanShape s.
Proof.
  unfold RegExp.test, IBAN_RE, ibanShape.
  set (l := list_ascii_of_string s). clearbody l.
  change (RegExp.repeat (RegExp.run (RegExp.Class RegExp.upper)) 2 2 l
            (fun l1 =>
               RegExp.repeat (RegExp.run (RegExp.Class RegExp.digit)) 2 2 l1
                 (fun l2 =>
                    RegExp.repeat (RegExp.run (RegExp.Class RegExp.upperOrDigit))
                      4 30 l2 RegExp.atEnd)) = true
          <-> exists a b c,
              l = (a ++ b ++ c)%list
              /\ length a = 2%nat /\ forallb RegExp.upper a = true
              /\ length b = 2%nat /\ forallb RegExp.digit b = true
              /\ (4 <= length c <= 30)%nat
              /\ forallb RegExp.upperOrDigit c = true).
  rewrite repeat_class_split. split.
  - intros (a & l1 & -> & Ha & Hua & H1).
    apply repeat_class_split in H1. destruct H1 as (b & l2 & -> & Hb & Hub & H2).
    apply repeat_class_split in H2. destruct H2 as (c & rest & -> & Hc & Huc & Hend).
    apply atEnd_nil in Hend. subst rest. rewrite app_nil_r.
    exists a, b, c. split; [reflexivity|].
    split; [lia|]. split; [exact Hua|]. split; [lia|]. split; [exact Hub|].
    split; [lia|exact Huc].
  - intros (a & b & c & -> & Ha & Hua & Hb & Hub & Hc & Huc).
    exists a, (b ++ c)%list. split; [reflexivity|]. split; [lia|].
    split; [exact Hua|]. apply repeat_class_split.
    exists b, c. split; [reflexivity|]. split; [lia|]. split; [exact Hub|].
    apply repeat_class_split. exists c, []. rewrite app_nil_r.
    split; [reflexivity|]. split; [lia|]. split; [exact Huc|reflexivity].
Qed.

Lemma truthy_Some s : truthy (Some s) = true <-> s <> "".
Proof. destruct s; simpl; split; intros H; congruence. Qed.


Lemma optionalOk_spec re o :
  optionalOk re o = true
  <-> (forall s, o = Some s -> s <> "" -> RegExp.test re s = true).
Proof.
  destruct o as [v|]; unfold optionalOk.
  - rewrite orb_true_iff, negb_true_iff. split.
    + intros [H|H] s E Hne; assert (s = v) by congruence; subst s.
      * apply truthy_Some in Hne. congruence.
      * exact H.
    + intros H. destruct (truthy (Some v)) eqn:E; [right|left; reflexivity].
      apply H; [reflexivity|]. apply truthy_Some. exact E.
  - split; [intros _ s E; discriminate|reflexivity].
Qed.

Lemma optional_check_negb re o :
  match o with
  | Some s => truthy (Some s) && negb (RegExp.test re s)
  | None => false
  end = negb (optionalOk re o).
Proof.
  destruct o as [v|]; unfold optionalOk; [|reflexivity].
  destruct (truthy (Some v)), (RegExp.test re v); reflexivity.
Qed.

Lemma bankDetailsOk_bool dto :
  bankDetailsOk dto
  <-> accountNumberOk (BankAccountDto.accountNumber dto)
      && (negb (truthy (Some (BankAccountDto.routingNumber dto)))
          || nineDigits (BankAccountDto.routingNumber dto))
      && optionalOk SWIFT_CODE_RE (BankAccountDto.swiftCode dto)
      && optionalOk IBAN_RE (BankAccountDto.iban dto) = true.
Proof.
  unfold bankDetailsOk.
  rewrite !andb_true_iff, !optionalOk_spec, orb_true_iff, negb_true_iff.
  assert (Hr : (present (Some (BankAccountDto.routingNumber dto)) ->
                nineDigits (BankAccountDto.routingNumber dto) = true)
               <-> (truthy (Some (BankAccountDto.routingNumber dto)) = false
                    \/ nineDigits (BankAccountDto.routingNumber dto) = true)).
  { split.
    - intros H. destruct (truthy (Some (BankAccountDto.routingNumber dto))) eqn:E;
        [right|left; reflexivity].
      apply H. eexists. split; [reflexivity|]. apply truthy_Some. exact E.
    - intros [H|H] (v & E & Hne); [|exact H].
      assert (v = BankAccountDto.routingNumber dto) by congruence. subst v.
      apply truthy_Some in Hne. congruence. }
  rewrite Hr. tauto.
Qed.

Lemma validateBankAccountDetails_cases dto w :
  (bankDetailsOk dto
   /\ MerchantService.validateBankAccountDetails dto w = (Return tt, w))
  \/ (~ bankDetailsOk dto
      /\ exists message,
          MerchantService.validateBankAccountDetails dto w
          = (Throw (BankAccountInvalidException message), w)).
Proof.
  rewrite bankDetailsOk_bool.
  unfold MerchantService.validateBankAccountDetails.
  rewrite !optional_check_negb, ACCOUNT_NUMBER_RE_spec, ROUTING_NUMBER_RE_spec.
  destruct (accountNumberOk (BankAccountDto.accountNumber dto)); cbn [negb andb];
    [|right; split; [discriminate|eexists; reflexivity]].
  destruct (truthy (Some (BankAccountDto.routingNumber dto))),
           (nineDigits (BankAccountDto.routingNumber dto)); cbn [negb andb orb];
    try (right; split; [discriminate|eexists; reflexivity]);
    (destruct (optionalOk SWIFT_CODE_RE (BankAccountDto.swiftCode dto));
       cbn [negb andb];
       [|right; split; [discriminate|eexists; reflexivity]]);
    (destruct (optionalOk IBAN_RE (BankAccountDto.iban dto)); cbn [negb];
       [left; split; reflexivity
       |right; split; [discriminate|eexists; reflexivity]]).
Qed.


Lemma updateBankAccount_validated w i merchant dto :
  stored w i merchant ->
  status merchant <> SUSPENDED -> status merchant <> CLOSED ->
  MerchantService.validateBankAccountDetails dto w = (Return tt, w) ->
  exists m' w',
    MerchantService.updateBankAccount i dto w = (Return (Some m'), w')
    /\ stored w' i m'
    /\ bankAccountNumber m' = Some (BankAccountDto.accountNumber dto)
    /\ bankRoutingNumber m' = Some (BankAccountDto.routingNumber dto)
    /\ bankAccountHolderName m' = Some (BankAccountDto.accountHolderName dto)
    /\ bankName m' = Some (BankAccountDto.bankName dto)
    /\ bankSwiftCode m' = BankAccountDto.swiftCode dto
    /\ bankIban m' = BankAccountDto.iban dto
    /\ bankAccountStatus m' = BANK_PENDING.
Proof.
  intros Hst Hs Hc Hv. unfold MerchantService.updateBankAccount, bind.
  rewrite (getMerchantById_stored Hst), (validateMerchantActive_ok _ _ Hs Hc), Hv.
  match goal with
  | |- context [MerchantRepository.update i ?data w] =>
    rewrite (@update_stored w i merchant data ltac:(keeps_id) Hst);
      eexists _, _; split; [reflexivity|]; split;
        [apply (stored_after_mapRow (assignAll data)); [keeps_id|exact Hst]|]
  end.
  repeat split.
Qed.

Lemma updateBankAccount_rejected w i merchant dto message :
  stored w i merchant ->
  status merchant <> SUSPENDED -> status merchant <> CLOSED ->
  MerchantService.validateBankAccountDetails dto w
  = (Throw (BankAccountInvalidException message), w) ->
  MerchantService.updateBankAccount i dto w
  = (Throw (BankAccountInvalidException message), w).
Proof.
  intros Hst Hs Hc Hv. unfold MerchantService.updateBankAccount, bind.
  rewrite (getMerchantById_stored Hst), (validateMerchantActive_ok _ _ Hs Hc), Hv.
  reflexivity.
Qed.

(** C7.  A bank-account update on a merchant that is neither SUSPENDED nor
    CLOSED throws [BankAccountInvalidException], and changes nothing, unless
    the account number is 4-17 digits, the routing number (when present) is
    exactly 9 digits, and the SWIFT code and the IBAN (when present) match
    their patterns; when all checks pass, the six fields are stored and
    bankAccountStatus becomes PENDING.  Account number "12" fails; account
    number "1234567890" fails with routing number "123" and succeeds, with
    status PENDING, with routing number "021000021". *)
Theorem updateBankAccount_validates_details :
  forall w i merchant dto,
    stored w i merchant ->
    status merchant <> SUSPENDED ->
    status merchant <> CLOSED ->
    let r := MerchantService.updateBankAccount i dto w in
    (~ bankDetailsOk dto ->
     exists message, r = (Throw (BankAccountInvalidException message), w))
    /\ (bankDetailsOk dto ->
        exists m' w',
          r = (Return (Some m'), w')
          /\ stored w' i m'
          /\ bankAccountNumber m' = Some (BankAccountDto.accountNumber dto)
          /\ bankRoutingNumber m' = Some (BankAccountDto.routingNumber dto)
          /\ bankAccountHolderName m' = Some (BankAccountDto.accountHolderName dto)
          /\ bankName m' = Some (BankAccountDto.bankName dto)
          /\ bankSwiftCode m' = BankAccountDto.swiftCode dto
          /\ bankIban m' = BankAccountDto.iban dto
          /\ bankAccountStatus m' = BANK_PENDING)
    /\ (BankAccountDto.accountNumber dto = "12" ->
        exists message, r = (Throw (BankAccountInvalidException message), w))
    /\ (BankAccountDto.accountNumber dto = "1234567890" ->
        BankAccountDto.routingNumber dto = "123" ->
        exists message, r = (Throw (BankAccountInvalidException message), w))
    /\ (BankAccountDto.accountNumber dto = "1234567890" ->
        BankAccountDto.routingNumber dto = "021000021" ->
        BankAccountDto.swiftCode dto = None ->
        BankAccountDto.iban dto = None ->
        exists m' w',
          r = (Return (Some m'), w')
          /\ stored w' i m' /\ bankAccountStatus m' = BANK_PENDING).
Proof.
  intros w i merchant dto Hst Hs Hc r. subst r.
  assert (Hbad : ~ bankDetailsOk dto ->
                 exists message,
                   MerchantService.updateBankAccount i dto w
                   = (Throw (BankAccountInvalidException message), w)).
  { intros Hn.
    destruct (validateBankAccountDetails_cases dto w) as [[Hok _]|[_ (msg & Hv)]];
      [contradiction|].
    exists msg. eapply updateBankAccount_rejected; eassumption. }
  assert (Hgood : bankDetailsOk dto ->
                  exists m' w',
                    MerchantService.updateBankAccount i dto w = (Return (Some m'), w')
                    /\ stored w' i m'
                    /\ bankAccountNumber m' = Some (BankAccountDto.accountNumber dto)
                    /\ bankRoutingNumber m' = Some (BankAccountDto.routingNumber dto)
                    /\ bankAccountHolderName m' = Some (BankAccountDto.accountHolderName dto)
                    /\ bankName m' = Some (BankAccountDto.bankName dto)
                    /\ bankSwiftCode m' = BankAccountDto.swiftCode dto
                    /\ bankIban m' = BankAccountDto.iban dto
                    /\ bankAccountStatus m' = BANK_PENDING).
  { intros Hok.
    destruct (validateBankAccountDetails_cases dto w) as [[_ Hv]|[Hn _]];
      [|contradiction].
    eapply updateBankAccount_validated; eassumption. }
  split; [exact Hbad|]. split; [exact Hgood|]. split; [|split].
  - intros Ea. apply Hbad. rewrite bankDetailsOk_bool, Ea.
    change (accountNumberOk "12") with false. discriminate.
  - intros Ea Er. apply Hbad. rewrite bankDetailsOk_bool, Ea, Er.
    change (accountNumberOk "1234567890") with true.
    change (truthy (Some "123")) with true.
    change (nineDigits "123") with false. discriminate.
  - intros Ea Er Es Ei.
    destruct Hgood as (m' & w' & Hr & Hst' & _ & _ & _ & _ & _ & _ & Hp).
    + rewrite bankDetailsOk_bool, Ea, Er, Es, Ei. vm_compute. reflexivity.
    + exists m', w'. split; [exact Hr|]. split; [exact Hst'|exact Hp].
Qed.

Lemma updateBankAccount_scenario :
  exists m' w',
    MerchantService.updateBankAccount 0 (bankDto "1234567890" "021000021")
      (worldOf [sampleMerchant 0 ACTIVE])
    = (Return (Some m'), w')
    /\ bankAccountStatus m' = BANK_PENDING.
Proof.
  assert (Hst : stored (worldOf [sampleMerchant 0 ACTIVE]) 0 (sampleMerchant 0 ACTIVE))
    by (vm_compute; reflexivity).
  assert (Hs : status (sampleMerchant 0 ACTIVE) <> SUSPENDED)
    by (vm_compute; discriminate).
  assert (Hc : status (sampleMerchant 0 ACTIVE) <> CLOSED)
    by (vm_compute; discriminate).
  destruct (proj2 (proj2 (proj2 (proj2
              (updateBankAccount_validates_details
                 (bankDto "1234567890" "021000021") Hst Hs Hc)))))
    as (m' & w' & Hr & _ & Hp); try reflexivity.
  exists m', w'. split; [exact Hr|exact Hp].
Defined.

(** The two optional patterns on the examples of the request object. *)
Lemma swift_and_iban_examples :
  RegExp.test SWIFT_CODE_RE "CHASUS33" = true
  /\ RegExp.test SWIFT_CODE_RE "CHASUS33XXX" = true
  /\ RegExp.test SWIFT_CODE_RE "CHASUS33X" = false
  /\ RegExp.test SWIFT_CODE_RE "chasus33" = false
  /\ RegExp.test IBAN_RE "GB82WEST12345698765432" = true
  /\ RegExp.test IBAN_RE "GB8WEST12345698765432" = false
  /\ RegExp.test IBAN_RE "GB82WES" = false.
Proof. vm_compute. repeat split. Qed.


(** ** Registration *)

Lemma toLowerCaseChar_idem c : toLowerCaseChar (toLowerCaseChar c) = toLowerCaseChar c.
Proof.
  destruct c as [[] [] [] [] [] [] [] []]; vm_compute; reflexivity.
Qed.

Lemma toLowerCase_idem s : toLowerCase (toLowerCase s) = toLowerCase s.
Proof.
  induction s as [|c s IH]; simpl; [reflexivity|].
  rewrite toLowerCaseChar_idem, IH. reflexivity.
Qed.

Lemma asciiText_forallb s :
  forallb (fun c => (nat_of_ascii c <? 128)%nat) (list_ascii_of_string s) = true ->
  asciiText s.
Proof.
  unfold asciiText. intros H. apply Forall_forall. intros c Hc.
  rewrite forallb_forall in H. apply Nat.ltb_lt. exact (H c Hc).
Qed.

Lemma find_app_l {A} (p : A -> bool) l1 l2 x :
  find p l1 = Some x -> find p (l1 ++ l2) = Some x.
Proof.
  induction l1 as [|a l1 IH]; simpl; [discriminate|].
  destruct (p a); [trivial|exact IH].
Qed.

Lemma find_app_r {A} (p : A -> bool) l1 l2 :
  find p l1 = None -> find p (l1 ++ l2) = find p l2.
Proof.
  induction l1 as [|a l1 IH]; simpl; [reflexivity|].
  destruct (p a); [discriminate|exact IH].
Qed.

Lemma find_none_filter {A} (p : A -> bool) l :
  find p l = None -> filter p l = [].
Proof.
  induction l as [|a l IH]; simpl; [reflexivity|].
  destruct (p a); [discriminate|exact IH].
Qed.

Lemma sameEmail_case_insensitive e1 e2 m :
  toLowerCase e1 = toLowerCase e2 ->
  MerchantRepository.sameEmail e1 m = MerchantRepository.sameEmail e2 m.
Proof. unfold MerchantRepository.sameEmail. intros ->. reflexivity. Qed.

Lemma find_sameEmail_case_insensitive e1 e2 rows :
  toLowerCase e1 = toLowerCase e2 ->
  find (MerchantRepository.sameEmail e1) rows
  = find (MerchantRepository.sameEmail e2) rows.
Proof.
  intros H. induction rows as [|m rows IH]; simpl; [reflexivity|].
  rewrite (@sameEmail_case_insensitive e1 e2 m H), IH. reflexivity.
Qed.

Lemma filter_sameEmail_case_insensitive e1 e2 rows :
  toLowerCase e1 = toLowerCase e2 ->
  filter (MerchantRepository.sameEmail e1) rows
  = filter (MerchantRepository.sameEmail e2) rows.
Proof.
  intros H. induction rows as [|m rows IH]; simpl; [reflexivity|].
  rewrite (@sameEmail_case_insensitive e1 e2 m H), IH. reflexivity.
Qed.

Lemma registerMerchant_taken env dto w x :
  find (MerchantRepository.sameEmail (RegisterMerchantDto.email dto)) (merchants w)
  = Some x ->
  MerchantService.registerMerchant env dto w
  = (Throw (MerchantAlreadyExistsException (RegisterMerchantDto.email dto)), w).
Proof.
  intros H. unfold MerchantService.registerMerchant, MerchantRepository.findByEmail,
              bind, getRows, ret.
  rewrite H. reflexivity.
Qed.

Lemma registerMerchant_fresh env dto w :
  find (MerchantRepository.sameEmail (RegisterMerchantDto.email dto)) (merchants w)
  = None ->
  exists m w',
    MerchantService.registerMerchant env dto w = (Return m, w')
    /\ merchants w' = (merchants w ++ [m])%list
    /\ nextId w' = S (nextId w)
    /\ id m = nextId w
    /\ email m = toLowerCase (RegisterMerchantDto.email dto)
    /\ emailVerified m = false
    /\ emailVerificationToken m = Some (randomBytesHex env)
    /\ status m = PENDING
    /\ kycStatus m = KYC_NOT_STARTED
    /\ apiQuotaUsed m = 0 /\ apiQuotaLimit m = 1000.
Proof.
  intros H. unfold MerchantService.registerMerchant, MerchantRepository.findByEmail,
              bind, getRows, ret.
  rewrite H. unfold MerchantRepository.create.
  match goal with
  | |- context [assignAll ?data (MerchantRepository.newRow (nextId w))] =>
    set (m := assignAll data (MerchantRepository.newRow (nextId w)))
  end.
  match goal with
  | |- context [tryCatch (deliver env ?e) (logger_error ?msg) ?w1] =>
    destruct (bestEffort_deliver env e msg w1) as (w2 & -> & Hrows & Hnext)
  end.
  exists m, w2. split; [reflexivity|].
  split; [exact Hrows|]. split; [exact Hnext|].
  subst m. vm_compute. repeat split.
Qed.

(** C4.  Whatever the first [registerMerchant] call answers, a second call
    with the same e-mail address up to letter case throws
    [MerchantAlreadyExistsException] and leaves the world as it was, so no
    second row is created.  When the first call succeeds, the new row
    carries the lower-cased address, no row carried that address before,
    and exactly one row carries it afterwards.  Stated for addresses of
    ASCII characters, on which the lowering of the service and the
    store's comparison are the ones embedded here. *)
Theorem registerMerchant_email_unique_up_to_case :
  forall env1 env2 dto1 dto2 w,
    asciiText (RegisterMerchantDto.email dto1) ->
    asciiText (RegisterMerchantDto.email dto2) ->
    toLowerCase (RegisterMerchantDto.email dto1)
    = toLowerCase (RegisterMerchantDto.email dto2) ->
    let first := MerchantService.registerMerchant env1 dto1 w in
    let second := MerchantService.registerMerchant env2 dto2 (snd first) in
    second = (Throw (MerchantAlreadyExistsException (RegisterMerchantDto.email dto2)),
              snd first)
    /\ (forall m1,
           fst first = Return m1 ->
           email m1 = toLowerCase (RegisterMerchantDto.email dto1)
           /\ merchants (snd first) = (merchants w ++ [m1])%list
           /\ countByEmail (RegisterMerchantDto.email dto1) w = O
           /\ countByEmail (RegisterMerchantDto.email dto2) (snd first) = 1%nat
           /\ countByEmail (RegisterMerchantDto.email dto2) (snd second) = 1%nat).
Proof.
  intros env1 env2 dto1 dto2 w _ _ Hcase first second.
  destruct (find (MerchantRepository.sameEmail (RegisterMerchantDto.email dto1))
              (merchants w)) as [x|] eqn:Hfind.
  - assert (Hfirst : first = (Throw (MerchantAlreadyExistsException
                                       (RegisterMerchantDto.email dto1)), w))
      by (apply registerMerchant_taken with (x := x); exact Hfind).
    subst second. rewrite Hfirst. cbn [fst snd]. split.
    + apply registerMerchant_taken with (x := x).
      rewrite <- (@find_sameEmail_case_insensitive _ _ _ Hcase). exact Hfind.
    + intros m1 Hm1. discriminate.
  - destruct (registerMerchant_fresh env1 dto1 w Hfind)
      as (m & w1 & Hfirst & Hrows & _ & _ & Hemail & _).
    fold first in Hfirst.
    assert (Hm : MerchantRepository.sameEmail (RegisterMerchantDto.email dto2) m = true).
    { unfold MerchantRepository.sameEmail.
      rewrite Hemail, toLowerCase_idem, Hcase. apply String.eqb_refl. }
    assert (Hfind2 : find (MerchantRepository.sameEmail (RegisterMerchantDto.email dto2))
                       (merchants w1) = Some m).
    { rewrite Hrows, find_app_r.
      - simpl. rewrite Hm. reflexivity.
      - rewrite <- (@find_sameEmail_case_insensitive _ _ _ Hcase). exact Hfind. }
    assert (Hsecond : second
                      = (Throw (MerchantAlreadyExistsException
                                  (RegisterMerchantDto.email dto2)), w1)).
    { subst second. rewrite Hfirst. cbn [snd].
      apply registerMerchant_taken with (x := m). exact Hfind2. }
    rewrite Hsecond, Hfirst. cbn [fst snd]. split; [reflexivity|].
    intros m1 Hm1. assert (m1 = m) by congruence. subst m1.
    split; [exact Hemail|]. split; [exact Hrows|].
    assert (Hzero : filter (MerchantRepository.sameEmail (RegisterMerchantDto.email dto1))
                      (merchants w) = []) by (apply find_none_filter; exact Hfind).
    split; [unfold countByEmail; rewrite Hzero; reflexivity|].
    assert (Hone : countByEmail (RegisterMerchantDto.email dto2) w1 = 1%nat).
    { unfold countByEmail. rewrite Hrows, filter_app.
      rewrite <- (@filter_sameEmail_case_insensitive _ _ _ Hcase), Hzero.
      simpl. rewrite Hm. reflexivity. }
    split; exact Hone.
Qed.

Lemma registerMerchant_twice_jane :
  MerchantService.registerMerchant (sampleEnv 5 "t1" mailerUp) janeShouting
    (snd (MerchantService.registerMerchant (sampleEnv 0 "t0" mailerUp) jane emptyWorld))
  = (Throw (MerchantAlreadyExistsException "Jane@X.COM"),
     snd (MerchantService.registerMerchant (sampleEnv 0 "t0" mailerUp) jane emptyWorld)).
Proof.
  assert (Hcase : toLowerCase (RegisterMerchantDto.email jane)
                  = toLowerCase (RegisterMerchantDto.email janeShouting))
    by (vm_compute; reflexivity).
  exact (proj1 (@registerMerchant_email_unique_up_to_case
                  (sampleEnv 0 "t0" mailerUp) (sampleEnv 5 "t1" mailerUp)
                  jane janeShouting emptyWorld
                  (asciiText_forallb (RegisterMerchantDto.email jane) eq_refl)
                  (asciiText_forallb (RegisterMerchantDto.email janeShouting) eq_refl)
                  Hcase)).
Defined.


(** ** Admin login *)

(** C9, as amended.  A login attempt for an address with at least five
    recent failed attempts fails with [ForbiddenException] and records
    nothing, whatever the password and whoever the user is.  Below the
    threshold, a login attempt by a user whose role is neither ADMIN nor
    SUPPORT_ADMIN fails with [UnauthorizedException]. *)
Theorem login_lockout_precedes_role_check :
  forall env dto ua ip w,
    let failures :=
      AdminAuthService.countRecentFailures env (AdminAuthService.loginEmail dto) w in
    let r := AdminAuthService.login env dto ua ip w in
    ((AdminAuthService.MAX_LOGIN_ATTEMPTS <= failures)%nat ->
     r = (inr AdminAuthService.ForbiddenException, w))
    /\ ((failures < AdminAuthService.MAX_LOGIN_ATTEMPTS)%nat ->
        forall user,
          find (fun u => String.eqb (AdminAuthService.email u)
                           (AdminAuthService.loginEmail dto))
               (AdminAuthService.users w) = Some user ->
          AdminAuthService.role user <> AdminAuthService.ADMIN ->
          AdminAuthService.role user <> AdminAuthService.SUPPORT_ADMIN ->
          fst r = inr AdminAuthService.UnauthorizedException).
Proof.
  intros env dto ua ip w failures r. subst r failures.
  unfold AdminAuthService.login. split.
  - intros H. apply Nat.leb_le in H. rewrite H. reflexivity.
  - intros H user Hu Ha Hs. apply Nat.leb_gt in H. rewrite H, Hu.
    destruct (AdminAuthService.role user); try contradiction. reflexivity.
Qed.

Lemma login_lockout_witness :
  AdminAuthService.login (adminEnv 6000) (loginOf "bob@example.com" "password123")
    "agent" "127.0.0.1" lockedOutUserWorld
  = (inr AdminAuthService.ForbiddenException, lockedOutUserWorld).
Proof.
  apply (login_lockout_precedes_role_check (adminEnv 6000)
           (loginOf "bob@example.com" "password123") "agent" "127.0.0.1"
           lockedOutUserWorld).
  vm_compute. reflexivity.
Defined.

(** Without the restriction to attempts below the threshold, the second
    half does not hold together with the first: Bob has the role USER and
    five recent failures, and his attempt is answered with
    [ForbiddenException], as the first half demands. *)
Lemma login_non_admin_not_always_unauthorized :
  ~ ((forall env dto ua ip w,
         (AdminAuthService.MAX_LOGIN_ATTEMPTS
          <= AdminAuthService.countRecentFailures env
               (AdminAuthService.loginEmail dto) w)%nat ->
         fst (AdminAuthService.login env dto ua ip w)
         = inr AdminAuthService.ForbiddenException)
     /\ (forall env dto ua ip w user,
            find (fun u => String.eqb (AdminAuthService.email u)
                             (AdminAuthService.loginEmail dto))
                 (AdminAuthService.users w) = Some user ->
            AdminAuthService.role user <> AdminAuthService.ADMIN ->
            AdminAuthService.role user <> AdminAuthService.SUPPORT_ADMIN ->
            fst (AdminAuthService.login env dto ua ip w)
            = inr AdminAuthService.UnauthorizedException)).
Proof.
  intros [_ H].
  specialize (H (adminEnv 6000) (loginOf "bob@example.com" "password123")
                "agent" "127.0.0.1" lockedOutUserWorld
                (userOf "bob@example.com" AdminAuthService.USER)).
  assert (E : fst (AdminAuthService.login (adminEnv 6000)
                     (loginOf "bob@example.com" "password123")
                     "agent" "127.0.0.1" lockedOutUserWorld)
              = inr AdminAuthService.ForbiddenException) by (vm_compute; reflexivity).
  rewrite E in H.
  assert (inr AdminAuthService.ForbiddenException
          = (inr AdminAuthService.UnauthorizedException
             : AdminAuthService.AdminLoginResponse + AdminAuthService.AuthException)).
  { apply H; [reflexivity|discriminate|discriminate]. }
  discriminate.
Qed.

(** Five wrong passwords in a row lock the sixth attempt out, although it
    carries the right password; with only four, the same attempt logs in. *)
Lemma login_five_failures_lock_the_sixth :
  fst (AdminAuthService.login (adminEnv 6000)
         (loginOf "admin@example.com" "password123") "agent" "127.0.0.1"
         (afterLogins [(1000, "a"); (2000, "b"); (3000, "c"); (4000, "d"); (5000, "e")]
            "admin@example.com" adminOnlyWorld))
  = inr AdminAuthService.ForbiddenException
  /\ (exists response,
         fst (AdminAuthService.login (adminEnv 6000)
                (loginOf "admin@example.com" "password123") "agent" "127.0.0.1"
                (afterLogins [(1000, "a"); (2000, "b"); (3000, "c"); (4000, "d")]
                   "admin@example.com" adminOnlyWorld))
         = inl response).
Proof. split; [vm_compute; reflexivity|eexists; vm_compute; reflexivity]. Qed.

(** ** Best-effort e-mail, and the one path that is not *)

(** C8 fails on [resendVerificationEmail]: the method awaits the mailer
    outside any [try]/[catch], so when the mailer rejects, the rejection
    reaches the caller, after the new token has been stored; when the
    mailer delivers, the method returns. *)
Theorem resendVerificationEmail_propagates_mail_failure :
  forall env w e merchant,
    find (MerchantRepository.sameEmail e) (merchants w) = Some merchant ->
    emailVerified merchant = false ->
    let mail := sendVerificationEmail e (randomBytesHex env) (name merchant) in
    let r := MerchantService.resendVerificationEmail env e w in
    (forall message,
        emailService env mail = Some message ->
        fst r = Throw (CollaboratorError message)
        /\ merchants (snd r)
           = MerchantRepository.mapRow (id merchant)
               (assignAll
                  [set_emailVerificationToken (Some (randomBytesHex env));
                   set_emailVerificationExpiresAt
                     (Some (setHours env (now env)
                              MerchantService.VERIFICATION_TOKEN_EXPIRY_HOURS))])
               (merchants w))
    /\ (emailService env mail = None -> fst r = Return tt).
Proof.
  intros env w e merchant Hfind Hnot mail r. subst r mail.
  unfold MerchantService.resendVerificationEmail, MerchantRepository.findByEmail,
    MerchantRepository.update, MerchantRepository.findById,
    bind, getRows, putRows, ret, deliver, setOutbox,
    MerchantService.generateVerificationToken.
  rewrite Hfind, Hnot. cbn [merchants setRows outbox].
  split.
  - intros message Hm. rewrite Hm. split; reflexivity.
  - intros Hm. rewrite Hm. reflexivity.
Qed.

Lemma resendVerificationEmail_mailer_down :
  fst (MerchantService.resendVerificationEmail (sampleEnv 0 "t1" mailerDown)
         "jane@x.com" (worldOf [sampleMerchant 0 PENDING]))
  = Throw (CollaboratorError "SMTP connection refused").
Proof.
  apply (resendVerificationEmail_propagates_mail_failure
           (sampleEnv 0 "t1" mailerDown) (worldOf [sampleMerchant 0 PENDING])
           "jane@x.com" (merchant := sampleMerchant 0 PENDING));
    reflexivity.
Defined.


(** ** E-mail verification *)

Section Preservation.

Variable P : list Merchant -> Prop.

Lemma preserves_ret {A} (a : A) : preserves P (ret a).
Proof. intros w H. exact H. Qed.

Lemma preserves_throw {A} e : preserves P (@throw A e).
Proof. intros w H. exact H. Qed.

Lemma preserves_bind {A B} (c : M A) (k : A -> M B) :
  preserves P c -> (forall a, preserves P (k a)) -> preserves P (bind c k).
Proof.
  intros Hc Hk w H. unfold bind. specialize (Hc w H).
  destruct (c w) as [[a|e] w']; cbn [snd] in *; [apply Hk; exact Hc|exact Hc].
Qed.

Lemma preserves_tryCatch {A} (body : M A) handler :
  preserves P body -> (forall e, preserves P (handler e)) ->
  preserves P (tryCatch body handler).
Proof.
  intros Hb Hh w H. unfold tryCatch. specialize (Hb w H).
  destruct (body w) as [[a|e] w']; cbn [snd] in *; [exact Hb|apply Hh; exact Hb].
Qed.

Lemma preserves_getRows : preserves P getRows.
Proof. intros w H. exact H. Qed.

Lemma preserves_deliver env e : preserves P (deliver env e).
Proof.
  intros w H. unfold deliver, setOutbox. destruct (emailService env e); exact H.
Qed.

Lemma preserves_logger_error message e : preserves P (logger_error message e).
Proof. intros w H. exact H. Qed.

Lemma preserves_rewrite (g : list Merchant -> list Merchant) :
  (forall rows, P rows -> P (g rows)) ->
  preserves P (rows <- getRows ;; putRows (g rows)).
Proof. intros Hg w H. apply Hg. exact H. Qed.

Lemma preserves_findById i : preserves P (MerchantRepository.findById i).
Proof. intros w H. exact H. Qed.

Lemma preserves_update i data :
  (forall rows, P rows -> P (MerchantRepository.mapRow i (assignAll data) rows)) ->
  preserves P (MerchantRepository.update i data).
Proof. intros Hg w H. apply Hg. exact H. Qed.

Lemma preserves_create data :
  (forall rows n, P rows -> P (rows ++ [assignAll data (MerchantRepository.newRow n)])) ->
  preserves P (MerchantRepository.create data).
Proof. intros Hg w H. apply Hg. exact H. Qed.

Lemma preserves_forEach {A} (l : list A) body :
  (forall x, preserves P (body x)) -> preserves P (MerchantService.forEach l body).
Proof.
  intros Hb. induction l as [|x l IH]; simpl.
  - apply preserves_ret.
  - apply preserves_bind; [apply Hb|intros _; exact IH].
Qed.

End Preservation.

Lemma spent_mapRow token t i f rows :
  tokenSafe token f -> spent token t rows ->
  spent token t (MerchantRepository.mapRow i f rows).
Proof.
  intros Hf Hs m' Hin Hh. unfold MerchantRepository.mapRow in Hin.
  apply in_map_iff in Hin. destruct Hin as (m & <- & Hin).
  destruct (MerchantRepository.hasId i m); [|exact (Hs m Hin Hh)].
  destruct (Hf m) as [Hno|(Et & Ev & Ee)]; [congruence|].
  rewrite Ev, Ee. apply (Hs m Hin).
  unfold MerchantRepository.holdsToken in *. rewrite <- Et. exact Hh.
Qed.

Lemma spent_map token t f rows :
  tokenSafe token f -> spent token t rows -> spent token t (map f rows).
Proof.
  intros Hf Hs m' Hin Hh.
  apply in_map_iff in Hin. destruct Hin as (m & <- & Hin).
  destruct (Hf m) as [Hno|(Et & Ev & Ee)]; [congruence|].
  rewrite Ev, Ee. apply (Hs m Hin).
  unfold MerchantRepository.holdsToken in *. rewrite <- Et. exact Hh.
Qed.

Lemma spent_app token t rows m :
  MerchantRepository.holdsToken token m = false ->
  spent token t rows -> spent token t (rows ++ [m]).
Proof.
  intros Hm Hs m' Hin Hh. apply in_app_or in Hin. destruct Hin as [Hin|[<-|[]]].
  - exact (Hs m' Hin Hh).
  - congruence.
Qed.

Lemma holdsToken_fresh token fresh m :
  fresh <> token ->
  emailVerificationToken m = Some fresh ->
  MerchantRepository.holdsToken token m = false.
Proof.
  intros Hne E. unfold MerchantRepository.holdsToken. rewrite E.
  apply String.eqb_neq. exact Hne.
Qed.

(** Assignments that leave the three verification columns alone. *)
Ltac columns_kept := let m := fresh "m" in intro m; right; repeat split; reflexivity.

(** Assignments that empty the token column. *)
Ltac token_emptied := let m := fresh "m" in intro m; left; reflexivity.

Ltac preserves_step token t :=
  lazymatch goal with
  | |- preserves _ (bind _ _) => apply preserves_bind; [|intro]
  | |- preserves _ (ret _) => apply preserves_ret
  | |- preserves _ (throw _) => apply preserves_throw
  | |- preserves _ (tryCatch _ _) => apply preserves_tryCatch; [|intro]
  | |- preserves _ (deliver _ _) => apply preserves_deliver
  | |- preserves _ (logger_error _ _) => apply preserves_logger_error
  | |- preserves _ getRows => apply preserves_getRows
  | |- preserves _ (MerchantRepository.findById _) => apply preserves_findById
  | |- preserves _ (MerchantRepository.update _ _) =>
    apply preserves_update; intros ? ?; apply spent_mapRow; [|assumption]
  | |- preserves _ (if ?b then _ else _) => destruct b
  | |- preserves _ (match ?x with _ => _ end) => destruct x
  end.

Section SpentIsStable.

Variable token : string.
Variable t : Date.
Variable env : Env.
Hypothesis clock_after : t <= now env.
Hypothesis random_fresh : randomBytesHex env <> token.

Let Spent := spent token t.

Lemma getMerchantById_preserves i :
  preserves Spent (MerchantService.getMerchantById i).
Proof.
  unfold MerchantService.getMerchantById. repeat preserves_step token t.
Qed.

Lemma validateMerchantActive_preserves m :
  preserves Spent (MerchantService.validateMerchantActive m).
Proof.
  unfold MerchantService.validateMerchantActive. repeat preserves_step token t.
Qed.

Lemma validateBankAccountDetails_preserves dto :
  preserves Spent (MerchantService.validateBankAccountDetails dto).
Proof.
  unfold MerchantService.validateBankAccountDetails. repeat preserves_step token t.
Qed.

Lemma registerMerchant_preserves dto :
  preserves Spent (MerchantService.registerMerchant env dto).
Proof.
  unfold MerchantService.registerMerchant, MerchantRepository.findByEmail.
  cbv zeta. repeat preserves_step token t.
  apply preserves_create. intros rows n Hs. apply spent_app; [|exact Hs].
  apply holdsToken_fresh with (fresh := randomBytesHex env);
    [exact random_fresh|reflexivity].
Qed.

Lemma verifyEmail_preserves tok :
  preserves Spent (MerchantService.verifyEmail env tok).
Proof.
  unfold MerchantService.verifyEmail, MerchantRepository.findByVerificationToken.
  repeat preserves_step token t. token_emptied.
Qed.

Lemma resendVerificationEmail_preserves e :
  preserves Spent (MerchantService.resendVerificationEmail env e).
Proof.
  unfold MerchantService.resendVerificationEmail, MerchantRepository.findByEmail.
  cbv zeta. repeat preserves_step token t.
  intro m0. left.
  apply holdsToken_fresh with (fresh := randomBytesHex env);
    [exact random_fresh|reflexivity].
Qed.

Lemma submitKycDocuments_preserves i dto :
  preserves Spent (MerchantService.submitKycDocuments env i dto).
Proof.
  unfold MerchantService.submitKycDocuments, MerchantRepository.updateKycStatus.
  cbv zeta.
  apply preserves_bind; [apply getMerchantById_preserves|intro].
  repeat preserves_step token t. columns_kept.
Qed.

Lemma verifyKyc_preserves i dto :
  preserves Spent (MerchantService.verifyKyc env i dto).
Proof.
  unfold MerchantService.verifyKyc, MerchantRepository.updateKycStatus,
    MerchantRepository.updateStatus.
  apply preserves_bind; [apply getMerchantById_preserves|intro].
  repeat first [apply getMerchantById_preserves | preserves_step token t];
    columns_kept.
Qed.

Lemma updateBankAccount_preserves i dto :
  preserves Spent (MerchantService.updateBankAccount i dto).
Proof.
  unfold MerchantService.updateBankAccount.
  apply preserves_bind; [apply getMerchantById_preserves|intro].
  apply preserves_bind; [apply validateMerchantActive_preserves|intro].
  apply preserves_bind; [apply validateBankAccountDetails_preserves|intro].
  preserves_step token t. columns_kept.
Qed.

Lemma verifyBankAccount_preserves i :
  preserves Spent (MerchantService.verifyBankAccount env i).
Proof.
  unfold MerchantService.verifyBankAccount,
    MerchantRepository.updateBankAccountStatus.
  cbv zeta.
  apply preserves_bind; [apply getMerchantById_preserves|intro].
  repeat preserves_step token t; columns_kept.
Qed.

Lemma updateCurrencySettings_preserves i dto :
  preserves Spent (MerchantService.updateCurrencySettings i dto).
Proof.
  unfold MerchantService.updateCurrencySettings. cbv zeta.
  apply preserves_bind; [apply getMerchantById_preserves|intro].
  apply preserves_bind; [apply validateMerchantActive_preserves|intro].
  preserves_step token t. columns_kept.
Qed.

Lemma changeMerchantStatus_preserves i dto :
  preserves Spent (MerchantService.changeMerchantStatus env i dto).
Proof.
  unfold MerchantService.changeMerchantStatus, MerchantRepository.updateStatus.
  cbv zeta.
  apply preserves_bind; [apply getMerchantById_preserves|intro].
  destruct (ChangeMerchantStatusDto.status dto);
    repeat preserves_step token t; columns_kept.
Qed.

Lemma updateApiQuota_preserves i dto :
  preserves Spent (MerchantService.updateApiQuota i dto).
Proof.
  unfold MerchantService.updateApiQuota.
  apply preserves_bind; [apply getMerchantById_preserves|intro].
  preserves_step token t. columns_kept.
Qed.

Lemma checkAndIncrementApiQuota_preserves i :
  preserves Spent (MerchantService.checkAndIncrementApiQuota i).
Proof.
  unfold MerchantService.checkAndIncrementApiQuota,
    MerchantRepository.incrementApiQuota.
  apply preserves_bind; [apply getMerchantById_preserves|intro].
  preserves_step token t; [apply preserves_throw|].
  apply preserves_rewrite. intros rows Hs. apply spent_mapRow; [|exact Hs].
  columns_kept.
Qed.

Lemma resetApiQuotas_preserves :
  preserves Spent MerchantService.resetApiQuotas.
Proof.
  unfold MerchantService.resetApiQuotas, MerchantRepository.resetApiQuotas.
  apply preserves_rewrite. intros rows Hs. apply spent_map; [|exact Hs].
  columns_kept.
Qed.

Lemma cleanupExpiredTokens_preserves :
  preserves Spent (MerchantService.cleanupExpiredTokens env).
Proof.
  unfold MerchantService.cleanupExpiredTokens,
    MerchantRepository.findExpiredVerificationTokens.
  apply preserves_bind; [repeat preserves_step token t|intro l].
  apply preserves_forEach. intro m.
  repeat preserves_step token t. token_emptied.
Qed.

Lemma perform_preserves c w :
  Spent (merchants w) -> Spent (merchants (perform env c w)).
Proof.
  destruct c; cbn [perform].
  - apply registerMerchant_preserves.
  - apply verifyEmail_preserves.
  - apply resendVerificationEmail_preserves.
  - apply submitKycDocuments_preserves.
  - apply verifyKyc_preserves.
  - apply updateBankAccount_preserves.
  - apply verifyBankAccount_preserves.
  - apply updateCurrencySettings_preserves.
  - apply changeMerchantStatus_preserves.
  - apply updateApiQuota_preserves.
  - apply checkAndIncrementApiQuota_preserves.
  - apply resetApiQuotas_preserves.
  - apply cleanupExpiredTokens_preserves.
Qed.

End SpentIsStable.


Lemma history_spent token t calls : forall w,
  afterAndFresh token t calls ->
  spent token t (merchants w) ->
  spent token t (merchants (history calls w)).
Proof.
  induction calls as [|[env c] calls IH]; intros w Hc Hs; [exact Hs|].
  inversion Hc as [|? ? [Hclock Hfresh] Hrest]; subst.
  cbn [history fold_left fst snd]. apply IH; [exact Hrest|].
  apply perform_preserves; assumption.
Qed.

Lemma verifyEmail_spent env token t w :
  spent token t (merchants w) -> t <= now env ->
  exists e, MerchantService.verifyEmail env token w = (Throw e, w).
Proof.
  intros Hs Hclock.
  unfold MerchantService.verifyEmail, MerchantRepository.findByVerificationToken,
    bind, getRows, ret.
  destruct (find (MerchantRepository.holdsToken token) (merchants w)) as [m|] eqn:Hf;
    [|eexists; reflexivity].
  apply find_some in Hf. destruct Hf as [Hin Hh].
  destruct (Hs m Hin Hh) as [Hv|(e & He & Hlt)].
  - rewrite Hv. eexists; reflexivity.
  - destruct (emailVerified m); [eexists; reflexivity|].
    rewrite He. replace (e <? now env) with true by (symmetry; apply Z.ltb_lt; lia).
    eexists; reflexivity.
Qed.

Lemma find_hasId_of_member m rows :
  In m rows ->
  exists m0, find (MerchantRepository.hasId (id m)) rows = Some m0 /\ id m0 = id m.
Proof.
  intros Hin.
  destruct (find (MerchantRepository.hasId (id m)) rows) as [m0|] eqn:Hf.
  - exists m0. split; [reflexivity|]. apply find_some in Hf.
    destruct Hf as [_ Hf]. apply Nat.eqb_eq. exact Hf.
  - apply find_none with (x := m) in Hf; [|exact Hin].
    unfold MerchantRepository.hasId in Hf. rewrite Nat.eqb_refl in Hf. discriminate.
Qed.

(** Once its only holder is rewritten with an emptied token column, nobody
    holds the token. *)
Lemma spent_after_consumption token m rows f t :
  soleHolder token m rows ->
  (forall x, MerchantRepository.holdsToken token (f x) = false) ->
  spent token t (MerchantRepository.mapRow (id m) f rows).
Proof.
  intros Hsole Hf m' Hin Hh. unfold MerchantRepository.mapRow in Hin.
  apply in_map_iff in Hin. destruct Hin as (x & <- & Hin).
  destruct (MerchantRepository.hasId (id m) x) eqn:E; [congruence|].
  assert (x = m) by (apply Hsole; assumption). subst x.
  unfold MerchantRepository.hasId in E. rewrite Nat.eqb_refl in E. discriminate.
Qed.

Lemma verifyEmail_success env token w m :
  find (MerchantRepository.holdsToken token) (merchants w) = Some m ->
  emailVerified m = false ->
  (forall e, emailVerificationExpiresAt m = Some e -> now env <= e) ->
  exists m' w',
    MerchantService.verifyEmail env token w = (Return (Some m'), w')
    /\ id m' = id m
    /\ emailVerified m' = true
    /\ emailVerifiedAt m' = Some (now env)
    /\ emailVerificationToken m' = None
    /\ emailVerificationExpiresAt m' = None
    /\ merchants w'
       = MerchantRepository.mapRow (id m)
           (assignAll [set_emailVerified true; set_emailVerifiedAt (Some (now env));
                       set_emailVerificationToken None;
                       set_emailVerificationExpiresAt None])
           (merchants w)
    /\ stored w' (id m) m'
    /\ nextId w' = nextId w.
Proof.
  intros Hh Hv Hexp.
  assert (Hfresh : match emailVerificationExpiresAt m with
                   | Some expiresAt => expiresAt <? now env
                   | None => false
                   end = false).
  { destruct (emailVerificationExpiresAt m) as [e|]; [|reflexivity].
    apply Z.ltb_ge. apply Hexp. reflexivity. }
  destruct (find_hasId_of_member m (merchants w)) as (m0 & Hm0 & Hid0).
  { apply find_some in Hh. apply Hh. }
  unfold MerchantService.verifyEmail.
  unfold MerchantRepository.findByVerificationToken at 1.
  unfold bind at 1 2. unfold getRows at 1. unfold ret at 1.
  rewrite Hh, Hv, Hfresh. unfold bind at 1.
  rewrite (@update_stored w (id m) m0
             [set_emailVerified true; set_emailVerifiedAt (Some (now env));
              set_emailVerificationToken None; set_emailVerificationExpiresAt None]
             ltac:(keeps_id) Hm0).
  unfold bind.
  match goal with
  | |- context [tryCatch (deliver env ?e) (logger_error ?msg) ?w1] =>
    destruct (bestEffort_deliver env e msg w1) as (w2 & -> & Hrows & Hnext)
  end.
  eexists _, w2. split; [reflexivity|].
  split; [exact Hid0|]. repeat (split; [reflexivity|]).
  split; [exact Hrows|]. split; [|exact Hnext].
  unfold stored. rewrite Hrows. cbn [merchants setRows].
  rewrite find_mapRow_same by keeps_id. rewrite Hm0. reflexivity.
Qed.


(** C5.  [verifyEmail] throws [MerchantVerificationTokenInvalidException]
    when no row holds the token, [MerchantEmailAlreadyVerifiedException]
    when the holder is verified, and
    [MerchantVerificationTokenExpiredException] when the holder's expiry
    has passed, in that order, and then changes nothing.  Otherwise it
    stores emailVerified = true, emailVerifiedAt = now and an empty token
    and expiry on the holder's row, touching no other column and no other
    row, and returns the stored row.  A token that has been consumed by
    its only holder, or whose only holder's expiry has passed, is spent;
    and a spent token stays spent: after any history of calls in which the
    clock does not run backwards and the random source does not issue the
    same token again, [verifyEmail] with it throws and changes nothing. *)
Theorem verifyEmail_precedence_and_consumption :
  forall env w token,
    let r := MerchantService.verifyEmail env token w in
    let holder := find (MerchantRepository.holdsToken token) (merchants w) in
    (holder = None ->
     r = (Throw MerchantVerificationTokenInvalidException, w))
    /\ (forall m,
           holder = Some m -> emailVerified m = true ->
           r = (Throw MerchantEmailAlreadyVerifiedException, w))
    /\ (forall m e,
           holder = Some m -> emailVerified m = false ->
           emailVerificationExpiresAt m = Some e -> e < now env ->
           r = (Throw MerchantVerificationTokenExpiredException, w)
           /\ (soleHolder token m (merchants w) ->
               spent token (now env) (merchants w)))
    /\ (forall m,
           holder = Some m -> emailVerified m = false ->
           (forall e, emailVerificationExpiresAt m = Some e -> now env <= e) ->
           exists m' w',
             r = (Return (Some m'), w')
             /\ id m' = id m
             /\ emailVerified m' = true
             /\ emailVerifiedAt m' = Some (now env)
             /\ emailVerificationToken m' = None
             /\ emailVerificationExpiresAt m' = None
             /\ (soleHolder token m (merchants w) ->
                 forall t, spent token t (merchants w'))
             /\ stored w' (id m) m'
             /\ merchants w'
                = MerchantRepository.mapRow (id m)
                    (assignAll [set_emailVerified true;
                                set_emailVerifiedAt (Some (now env));
                                set_emailVerificationToken None;
                                set_emailVerificationExpiresAt None])
                    (merchants w)
             /\ nextId w' = nextId w)
    /\ (forall t calls env',
           spent token t (merchants w) ->
           afterAndFresh token t calls ->
           t <= now env' ->
           exists e,
             MerchantService.verifyEmail env' token (history calls w)
             = (Throw e, history calls w)).
Proof.
  intros env w token r holder. subst r.
  split; [|split; [|split; [|split]]].
  - intros Hh. subst holder.
    unfold MerchantService.verifyEmail, MerchantRepository.findByVerificationToken,
      bind, getRows, ret.
    rewrite Hh. reflexivity.
  - intros m Hh Hv. subst holder.
    unfold MerchantService.verifyEmail, MerchantRepository.findByVerificationToken,
      bind, getRows, ret.
    rewrite Hh, Hv. reflexivity.
  - intros m e Hh Hv He Hlt. subst holder. split.
    + unfold MerchantService.verifyEmail, MerchantRepository.findByVerificationToken,
        bind, getRows, ret.
      rewrite Hh, Hv, He.
      replace (e <? now env) with true by (symmetry; apply Z.ltb_lt; exact Hlt).
      reflexivity.
    + intros Hsole m' Hin' Hh'. right.
      assert (m' = m) by (apply Hsole; assumption). subst m'.
      exists e. split; [exact He|exact Hlt].
  - intros m Hh Hv Hexp. subst holder.
    destruct (verifyEmail_success env token w Hh Hv Hexp)
      as (m' & w' & Hr & Hid & H1 & H2 & H3 & H4 & Hrows & Hst & Hnext).
    exists m', w'. split; [exact Hr|].
    split; [exact Hid|]. split; [exact H1|]. split; [exact H2|].
    split; [exact H3|]. split; [exact H4|].
    split; [|split; [exact Hst|split; [exact Hrows|exact Hnext]]].
    intros Hsole t. rewrite Hrows.
    apply spent_after_consumption; [exact Hsole|]. intro x. reflexivity.
  - intros t calls env' Hs Hc Hclock.
    apply verifyEmail_spent with (t := t); [|exact Hclock].
    apply history_spent; assumption.
Qed.

Lemma verifyEmail_consumes_jane_token :
  exists m' w',
    MerchantService.verifyEmail (sampleEnv 1000 "t1" mailerUp) "t0"
      (worldOf [unverifiedMerchant 0 "t0" 86400000])
    = (Return (Some m'), w')
    /\ emailVerified m' = true
    /\ emailVerificationToken m' = None
    /\ stored w' 0 m'
    /\ forall t, spent "t0" t (merchants w').
Proof.
  destruct (proj1 (proj2 (proj2 (proj2
              (verifyEmail_precedence_and_consumption
                 (sampleEnv 1000 "t1" mailerUp)
                 (worldOf [unverifiedMerchant 0 "t0" 86400000]) "t0"))))
              (unverifiedMerchant 0 "t0" 86400000))
    as (m' & w' & Hr & _ & Hv & _ & Ht & _ & Hs & Hst & _).
  - reflexivity.
  - reflexivity.
  - intros e He. injection He as <-. cbn. intro H. discriminate H.
  - exists m', w'. split; [exact Hr|]. split; [exact Hv|]. split; [exact Ht|].
    split; [exact Hst|].
    apply Hs. intros m Hin Hh. destruct Hin as [<-|[]]. reflexivity.
Defined.


(** ** The senders that are best-effort *)

Section Agreement.

Lemma agree_ret {A} (a : A) : agree (ret a) (ret a).
Proof. intros w1 w2 H. split; [reflexivity|exact H]. Qed.

Lemma agree_throw {A} e : agree (@throw A e) (throw e).
Proof. intros w1 w2 H. split; [reflexivity|exact H]. Qed.

Lemma agree_bind {A B} (c1 c2 : M A) (k1 k2 : A -> M B) :
  agree c1 c2 -> (forall a, agree (k1 a) (k2 a)) -> agree (bind c1 k1) (bind c2 k2).
Proof.
  intros Hc Hk w1 w2 H. unfold bind. destruct (Hc w1 w2 H) as [Hf Hs].
  destruct (c1 w1) as [[a1|e1] w1'], (c2 w2) as [[a2|e2] w2'];
    cbn [fst snd] in *; try discriminate.
  - injection Hf as <-. apply Hk. exact Hs.
  - injection Hf as <-. split; [reflexivity|exact Hs].
Qed.

Lemma agree_getRows : agree getRows getRows.
Proof.
  intros w1 w2 H. unfold getRows. cbn [fst snd]. split; [|exact H].
  destruct H as [E _]. rewrite E. reflexivity.
Qed.

Lemma agree_putRows rows : agree (putRows rows) (putRows rows).
Proof.
  intros w1 w2 [_ H]. unfold putRows. cbn [fst snd]. split; [reflexivity|].
  split; [reflexivity|exact H].
Qed.

Lemma agree_create data :
  agree (MerchantRepository.create data) (MerchantRepository.create data).
Proof.
  intros w1 w2 [E1 E2]. unfold MerchantRepository.create. cbn [fst snd].
  rewrite E2. split; [reflexivity|]. split; cbn [merchants nextId]; congruence.
Qed.

Lemma agree_bestEffort env1 env2 e message :
  agree (tryCatch (deliver env1 e) (logger_error message))
        (tryCatch (deliver env2 e) (logger_error message)).
Proof.
  intros w1 w2 H.
  destruct (bestEffort_deliver env1 e message w1) as (w1' & -> & [E1 N1]).
  destruct (bestEffort_deliver env2 e message w2) as (w2' & -> & [E2 N2]).
  cbn [fst snd]. split; [reflexivity|]. destruct H as [E N].
  split; congruence.
Qed.

Lemma agree_tryCatch_ret {A} (a : A) h1 h2 :
  agree (tryCatch (ret a) h1) (tryCatch (ret a) h2).
Proof. intros w1 w2 H. split; [reflexivity|exact H]. Qed.

End Agreement.

Ltac agree_step :=
  lazymatch goal with
  | |- agree (bind _ _) (bind _ _) => apply agree_bind; [|intro; cbv beta]
  | |- agree (ret _) (ret _) => apply agree_ret
  | |- agree (throw _) (throw _) => apply agree_throw
  | |- agree (tryCatch (deliver _ _) _) (tryCatch (deliver _ _) _) =>
    apply agree_bestEffort
  | |- agree (tryCatch (ret _) _) (tryCatch (ret _) _) => apply agree_tryCatch_ret
  | |- agree (tryCatch (if ?b then _ else _) _) _ => destruct b
  | |- agree getRows getRows => apply agree_getRows
  | |- agree (putRows _) (putRows _) => apply agree_putRows
  | |- agree (MerchantRepository.create _) (MerchantRepository.create _) =>
    apply agree_create
  | |- agree (if ?b then _ else _) _ => destruct b
  | |- agree (match ?x with _ => _ end) _ => destruct x
  end.

Ltac agree_auto :=
  unfold MerchantService.getMerchantById, MerchantRepository.updateStatus,
    MerchantRepository.updateKycStatus, MerchantRepository.updateBankAccountStatus,
    MerchantRepository.update, MerchantRepository.findById,
    MerchantRepository.findByEmail, MerchantRepository.findByVerificationToken;
  cbn [now setHours randomBytesHex bcryptHash bankVerificationService withMailer];
  cbv zeta;
  repeat agree_step.

(** The six methods that wrap their send in [try]/[catch] (registration,
    e-mail verification, KYC submission, KYC decision, bank verification,
    suspension and reactivation) answer the same, and leave the same rows,
    whatever the mailer does. *)
Lemma senders_are_best_effort env mailer1 mailer2 :
  (forall dto,
      agree (MerchantService.registerMerchant (withMailer env mailer1) dto)
            (MerchantService.registerMerchant (withMailer env mailer2) dto))
  /\ (forall token,
         agree (MerchantService.verifyEmail (withMailer env mailer1) token)
               (MerchantService.verifyEmail (withMailer env mailer2) token))
  /\ (forall i dto,
         agree (MerchantService.submitKycDocuments (withMailer env mailer1) i dto)
               (MerchantService.submitKycDocuments (withMailer env mailer2) i dto))
  /\ (forall i dto,
         agree (MerchantService.verifyKyc (withMailer env mailer1) i dto)
               (MerchantService.verifyKyc (withMailer env mailer2) i dto))
  /\ (forall i,
         agree (MerchantService.verifyBankAccount (withMailer env mailer1) i)
               (MerchantService.verifyBankAccount (withMailer env mailer2) i))
  /\ (forall i dto,
         agree (MerchantService.changeMerchantStatus (withMailer env mailer1) i dto)
               (MerchantService.changeMerchantStatus (withMailer env mailer2) i dto)).
Proof.
  split; [|split; [|split; [|split; [|split]]]].
  - intro dto. unfold MerchantService.registerMerchant,
                 MerchantService.generateVerificationToken. agree_auto.
  - intro token. unfold MerchantService.verifyEmail. agree_auto.
  - intros i dto. unfold MerchantService.submitKycDocuments. agree_auto.
  - intros i dto. unfold MerchantService.verifyKyc. agree_auto.
  - intros i. unfold MerchantService.verifyBankAccount. agree_auto.
  - intros i dto. unfold MerchantService.changeMerchantStatus. agree_auto.
Qed.


(** * Further properties of the service *)

(** ** What a best-effort send leaves behind *)

Lemma bestEffort_delivered env e message w :
  emailService env e = None ->
  exists w',
    tryCatch (deliver env e) (logger_error message) w = (Return tt, w')
    /\ sameRows w w' /\ mailed w w' [e].
Proof.
  intros H. unfold tryCatch, deliver, logger_error, setOutbox. rewrite H.
  eexists. split; [reflexivity|]. repeat split.
Qed.

Lemma bestEffort_rejected env e message w err :
  emailService env e = Some err ->
  exists w',
    tryCatch (deliver env e) (logger_error message) w = (Return tt, w')
    /\ sameRows w w'
    /\ outbox w' = outbox w
    /\ errorLog w'
       = (errorLog w ++ [{| log_message := message;
                            log_error := CollaboratorError err |}])%list.
Proof.
  intros H. unfold tryCatch, deliver, logger_error, setOutbox. rewrite H.
  eexists. split; [reflexivity|]. repeat split.
Qed.

(** ** KYC submission *)

Lemma submitKyc_missing (submitted : list string) :
  filter (fun type => negb (includes String.eqb submitted type))
         ["government_id"; "proof_of_address"]
  = ((if includes String.eqb submitted "government_id" then [] else ["government_id"])
       ++ (if includes String.eqb submitted "proof_of_address"
           then [] else ["proof_of_address"]))%list.
Proof.
  cbn [filter].
  destruct (includes String.eqb submitted "government_id"),
           (includes String.eqb submitted "proof_of_address"); reflexivity.
Qed.

Lemma includes_false_string l s : includes String.eqb l s = false <-> ~ In s l.
Proof.
  split.
  - intros H Hin. apply includes_In_string in Hin. congruence.
  - intros H. destruct (includes String.eqb l s) eqn:E; [|reflexivity].
    apply includes_In_string in E. contradiction.
Qed.

(** X1.  [submitKycDocuments] refuses, in this order and without changing
    anything: an unverified e-mail ([MerchantEmailNotVerifiedException]), an
    approved KYC ([KycAlreadyApprovedException]), a KYC in review
    ([KycAlreadySubmittedException]), and a request lacking a
    [government_id] or a [proof_of_address] document
    ([KycDocumentRequiredException], naming the missing types in that
    order, joined by a comma and a space). *)
Theorem submitKycDocuments_refusals :
  forall env w i merchant dto,
    stored w i merchant ->
    let r := MerchantService.submitKycDocuments env i dto w in
    (emailVerified merchant = false ->
     r = (Throw MerchantEmailNotVerifiedException, w))
    /\ (emailVerified merchant = true -> kycStatus merchant = KYC_APPROVED ->
        r = (Throw KycAlreadyApprovedException, w))
    /\ (emailVerified merchant = true -> kycStatus merchant = KYC_IN_REVIEW ->
        r = (Throw KycAlreadySubmittedException, w))
    /\ (emailVerified merchant = true ->
        kycStatus merchant <> KYC_APPROVED -> kycStatus merchant <> KYC_IN_REVIEW ->
        (~ submits "government_id" dto -> ~ submits "proof_of_address" dto ->
         r = (Throw (KycDocumentRequiredException "government_id, proof_of_address"), w))
        /\ (~ submits "government_id" dto -> submits "proof_of_address" dto ->
            r = (Throw (KycDocumentRequiredException "government_id"), w))
        /\ (submits "government_id" dto -> ~ submits "proof_of_address" dto ->
            r = (Throw (KycDocumentRequiredException "proof_of_address"), w))).
Proof.
  intros env w i merchant dto Hst r. subst r.
  unfold MerchantService.submitKycDocuments, bind.
  rewrite (getMerchantById_stored Hst). cbv zeta.
  split; [|split; [|split]].
  - intros ->. reflexivity.
  - intros -> ->. reflexivity.
  - intros -> ->. reflexivity.
  - intros -> Ha Hr.
    replace (KycStatus_eqb (kycStatus merchant) KYC_APPROVED) with false
      by (destruct (kycStatus merchant); try reflexivity; congruence).
    replace (KycStatus_eqb (kycStatus merchant) KYC_IN_REVIEW) with false
      by (destruct (kycStatus merchant); try reflexivity; congruence).
    cbn [negb]. rewrite submitKyc_missing. unfold submits.
    split; [|split]; intros Hg Hp.
    + apply includes_false_string in Hg, Hp. rewrite Hg, Hp. reflexivity.
    + apply includes_false_string in Hg. apply includes_In_string in Hp.
      rewrite Hg, Hp. reflexivity.
    + apply includes_In_string in Hg. apply includes_false_string in Hp.
      rewrite Hg, Hp. reflexivity.
Qed.

Lemma submitKycDocuments_refuses_empty_request :
  MerchantService.submitKycDocuments (sampleEnv 0 "t0" mailerUp) 0
    {| SubmitKycDto.documents := [] |}
    (worldOf [kycPendingMerchant 0 true])
  = (Throw (KycDocumentRequiredException "government_id, proof_of_address"),
     worldOf [kycPendingMerchant 0 true]).
Proof.
  assert (Hst : stored (worldOf [kycPendingMerchant 0 true]) 0
                   (kycPendingMerchant 0 true)) by (vm_compute; reflexivity).
  apply (submitKycDocuments_refusals (sampleEnv 0 "t0" mailerUp)
           {| SubmitKycDto.documents := [] |} Hst);
    try reflexivity; try discriminate; intros H; exact H.
Defined.


Lemma submitKycDocuments_run env w i merchant dto :
  stored w i merchant ->
  emailVerified merchant = true ->
  kycStatus merchant <> KYC_APPROVED -> kycStatus merchant <> KYC_IN_REVIEW ->
  submits "government_id" dto -> submits "proof_of_address" dto ->
  exists m' w',
    MerchantService.submitKycDocuments env i dto w = (Return (Some m'), w')
    /\ stored w' i m'
    /\ m' = assignAll [set_kycStatus KYC_PENDING;
                       set_kycDocuments (Some (filedDocuments (now env) dto));
                       set_kycSubmittedAt (Some (now env))] merchant
    /\ (emailService env (sendKycSubmittedEmail (email merchant) (name merchant)) = None ->
        mailed w w' [sendKycSubmittedEmail (email merchant) (name merchant)]).
Proof.
  intros Hst Hv Ha Hr Hg Hp.
  unfold MerchantService.submitKycDocuments, bind.
  rewrite (getMerchantById_stored Hst). cbv zeta. rewrite Hv.
  replace (KycStatus_eqb (kycStatus merchant) KYC_APPROVED) with false
    by (destruct (kycStatus merchant); try reflexivity; congruence).
  replace (KycStatus_eqb (kycStatus merchant) KYC_IN_REVIEW) with false
    by (destruct (kycStatus merchant); try reflexivity; congruence).
  cbn [negb]. rewrite submitKyc_missing.
  unfold submits in Hg, Hp. apply includes_In_string in Hg, Hp. rewrite Hg, Hp.
  cbn [app length Nat.ltb Nat.leb]. unfold MerchantRepository.updateKycStatus.
  fold (filedDocuments (now env) dto).
  rewrite (@update_stored w i merchant
             [set_kycStatus KYC_PENDING;
              set_kycDocuments (Some (filedDocuments (now env) dto));
              set_kycSubmittedAt (Some (now env))] ltac:(keeps_id) Hst).
  set (m1 := assignAll _ merchant). set (w1 := setRows _ w).
  assert (Hst1 : stored w1 i m1) by (apply stored_after_mapRow; [keeps_id|exact Hst]).
  destruct (emailService env (sendKycSubmittedEmail (email merchant) (name merchant)))
    as [err|] eqn:Hmail.
  - destruct (bestEffort_rejected env _
                ("Failed to send KYC submitted email to " ++ email merchant) w1 Hmail)
      as (w2 & -> & Hsame & _).
    exists m1, w2. split; [reflexivity|]. split; [exact (sameRows_stored Hsame Hst1)|].
    split; [reflexivity|]. intros H. discriminate H.
  - destruct (bestEffort_delivered env _
                ("Failed to send KYC submitted email to " ++ email merchant) w1 Hmail)
      as (w2 & -> & Hsame & Hm).
    exists m1, w2. split; [reflexivity|]. split; [exact (sameRows_stored Hsame Hst1)|].
    split; [reflexivity|]. intros _. exact Hm.
Qed.

(** X2.  [submitKycDocuments] accepts a request from a merchant with a verified
    e-mail whose KYC is neither approved nor in review, when the request
    carries a [government_id] and a [proof_of_address] document: the KYC
    status becomes PENDING, kycSubmittedAt is the time of the call, and the
    stored documents are those of the request, in order, each stamped with
    that time and the status pending.  Earlier documents are replaced, so a
    merchant whose KYC is pending, rejected or expired can submit again; the
    merchant's status is left alone. *)
Theorem submitKycDocuments_files_the_request :
  forall env w i merchant dto,
    stored w i merchant ->
    emailVerified merchant = true ->
    kycStatus merchant <> KYC_APPROVED ->
    kycStatus merchant <> KYC_IN_REVIEW ->
    submits "government_id" dto ->
    submits "proof_of_address" dto ->
    exists m' docs w',
      MerchantService.submitKycDocuments env i dto w = (Return (Some m'), w')
      /\ stored w' i m'
      /\ kycStatus m' = KYC_PENDING
      /\ kycSubmittedAt m' = Some (now env)
      /\ kycDocuments m' = Some docs
      /\ map doc_type docs = map KycDocumentDto.type (SubmitKycDto.documents dto)
      /\ map doc_fileName docs
         = map KycDocumentDto.fileName (SubmitKycDto.documents dto)
      /\ map doc_fileUrl docs = map KycDocumentDto.fileUrl (SubmitKycDto.documents dto)
      /\ Forall (filedAt (now env)) docs
      /\ status m' = status merchant.
Proof.
  intros env w i merchant dto Hst Hv Ha Hr Hg Hp.
  destruct (submitKycDocuments_run env dto Hst Hv Ha Hr Hg Hp)
    as (m' & w' & Hrun & Hst' & -> & _).
  exists (assignAll [set_kycStatus KYC_PENDING;
                     set_kycDocuments (Some (filedDocuments (now env) dto));
                     set_kycSubmittedAt (Some (now env))] merchant),
         (filedDocuments (now env) dto), w'.
  split; [exact Hrun|]. split; [exact Hst'|].
  split; [reflexivity|]. split; [reflexivity|]. split; [reflexivity|].
  unfold filedDocuments. rewrite !map_map.
  split; [reflexivity|]. split; [reflexivity|]. split; [reflexivity|].
  split; [|reflexivity].
  apply Forall_forall. intros d Hin. apply in_map_iff in Hin.
  destruct Hin as (doc & <- & _). repeat split.
Qed.

Lemma submitKycDocuments_resubmission :
  exists m' docs w',
    MerchantService.submitKycDocuments (sampleEnv 7000 "t0" mailerUp) 0 bothDocuments
      (worldOf [kycPendingMerchant 0 true])
    = (Return (Some m'), w')
    /\ kycStatus m' = KYC_PENDING
    /\ kycDocuments m' = Some docs
    /\ map doc_type docs = ["proof_of_address"; "government_id"].
Proof.
  assert (Hst : stored (worldOf [kycPendingMerchant 0 true]) 0
                   (kycPendingMerchant 0 true)) by (vm_compute; reflexivity).
  destruct (submitKycDocuments_files_the_request
              (sampleEnv 7000 "t0" mailerUp) bothDocuments Hst)
    as (m' & docs & w' & Hr & _ & Hk & _ & Hd & Ht & _);
    try reflexivity; try discriminate.
  - right. left. reflexivity.
  - left. reflexivity.
  - exists m', docs, w'. split; [exact Hr|]. split; [exact Hk|].
    split; [exact Hd|exact Ht].
Defined.


Lemma bestEffort_cases env e message w :
  exists w',
    tryCatch (deliver env e) (logger_error message) w = (Return tt, w')
    /\ sameRows w w'
    /\ (emailService env e = None -> mailed w w' [e]).
Proof.
  destruct (emailService env e) as [err|] eqn:H.
  - destruct (bestEffort_rejected env e message w H) as (w' & Hr & Hs & _).
    exists w'. split; [exact Hr|]. split; [exact Hs|]. intros E. discriminate E.
  - destruct (bestEffort_delivered env e message w H) as (w' & Hr & Hs & Hm).
    exists w'. split; [exact Hr|]. split; [exact Hs|]. intros _. exact Hm.
Qed.

Lemma mailed_after_rows w rows w' mails :
  mailed (setRows rows w) w' mails -> mailed w w' mails.
Proof. intros H. exact H. Qed.

(** ** KYC decisions, continued *)

Lemma verifyKyc_rejected_run env w i merchant dto :
  stored w i merchant ->
  kycStatus merchant = KYC_PENDING \/ kycStatus merchant = KYC_IN_REVIEW ->
  VerifyKycDto.decision dto = rejected ->
  exists m' w',
    MerchantService.verifyKyc env i dto w = (Return (Some m'), w')
    /\ stored w' i m'
    /\ m' = assignAll [set_kycStatus KYC_REJECTED;
                       set_kycRejectionReason (VerifyKycDto.rejectionReason dto)]
                      merchant
    /\ (emailService env
          (sendKycRejectedEmail (email merchant) (name merchant) (rejectionText dto))
        = None ->
        mailed w w'
          [sendKycRejectedEmail (email merchant) (name merchant) (rejectionText dto)]).
Proof.
  intros Hst Hk Hd. unfold MerchantService.verifyKyc, bind.
  rewrite (getMerchantById_stored Hst).
  replace (negb (KycStatus_eqb (kycStatus merchant) KYC_PENDING)
           && negb (KycStatus_eqb (kycStatus merchant) KYC_IN_REVIEW)) with false
    by (destruct Hk as [-> | ->]; reflexivity).
  rewrite Hd. unfold MerchantRepository.updateKycStatus.
  rewrite (@update_stored w i merchant
             [set_kycStatus KYC_REJECTED;
              set_kycRejectionReason (VerifyKycDto.rejectionReason dto)]
             ltac:(keeps_id) Hst).
  set (m1 := assignAll _ merchant). set (w1 := setRows _ w).
  assert (Hst1 : stored w1 i m1) by (apply stored_after_mapRow; [keeps_id|exact Hst]).
  assert (Htext : MerchantService.orDefault (VerifyKycDto.rejectionReason dto)
                    "Documents could not be verified" = rejectionText dto).
  { unfold MerchantService.orDefault, rejectionText.
    destruct (VerifyKycDto.rejectionReason dto) as [[|c s]|]; reflexivity. }
  rewrite Htext.
  destruct (bestEffort_cases env
              (sendKycRejectedEmail (email merchant) (name merchant) (rejectionText dto))
              ("Failed to send KYC rejected email to " ++ email merchant) w1)
    as (w2 & -> & Hsame & Hm).
  exists m1, w2. split; [reflexivity|]. split; [exact (sameRows_stored Hsame Hst1)|].
  split; [reflexivity|exact Hm].
Qed.

Lemma verifyKyc_approved_run env w i merchant dto :
  stored w i merchant ->
  kycStatus merchant = KYC_PENDING \/ kycStatus merchant = KYC_IN_REVIEW ->
  VerifyKycDto.decision dto = approved ->
  exists m' w',
    MerchantService.verifyKyc env i dto w = (Return (Some m'), w')
    /\ stored w' i m'
    /\ m' = (if emailVerified merchant && MerchantStatus_eqb (status merchant) PENDING
             then set_status ACTIVE else fun m => m)
              (assignAll [set_kycStatus KYC_APPROVED;
                          set_kycVerifiedAt (Some (now env))] merchant)
    /\ (emailService env (sendKycApprovedEmail (email merchant) (name merchant)) = None ->
        mailed w w' [sendKycApprovedEmail (email merchant) (name merchant)]).
Proof.
  intros Hst Hk Hd. unfold MerchantService.verifyKyc, bind.
  rewrite (getMerchantById_stored Hst).
  replace (negb (KycStatus_eqb (kycStatus merchant) KYC_PENDING)
           && negb (KycStatus_eqb (kycStatus merchant) KYC_IN_REVIEW)) with false
    by (destruct Hk as [-> | ->]; reflexivity).
  rewrite Hd. unfold MerchantRepository.updateKycStatus.
  rewrite (@update_stored w i merchant
             [set_kycStatus KYC_APPROVED; set_kycVerifiedAt (Some (now env))]
             ltac:(keeps_id) Hst).
  set (m1 := assignAll _ merchant). set (w1 := setRows _ w).
  assert (Hst1 : stored w1 i m1) by (apply stored_after_mapRow; [keeps_id|exact Hst]).
  unfold ret at 2.
  destruct (emailVerified merchant && MerchantStatus_eqb (status merchant) PENDING).
  - unfold MerchantRepository.updateStatus.
    rewrite (@update_stored w1 i m1 [set_status ACTIVE] ltac:(keeps_id) Hst1).
    set (w2 := setRows _ w1).
    assert (Hst2 : stored w2 i (assignAll [set_status ACTIVE] m1))
      by (apply stored_after_mapRow; [keeps_id|exact Hst1]).
    rewrite (getMerchantById_stored Hst2). unfold ret at 1.
    destruct (bestEffort_cases env
                (sendKycApprovedEmail (email merchant) (name merchant))
                ("Failed to send KYC approved email to " ++ email merchant) w2)
      as (w3 & -> & Hsame & Hm).
    exists (set_status ACTIVE m1), w3. split; [reflexivity|].
    split; [exact (sameRows_stored Hsame Hst2)|]. split; [reflexivity|exact Hm].
  - destruct (bestEffort_cases env
                (sendKycApprovedEmail (email merchant) (name merchant))
                ("Failed to send KYC approved email to " ++ email merchant) w1)
      as (w3 & -> & Hsame & Hm).
    exists m1, w3. split; [reflexivity|].
    split; [exact (sameRows_stored Hsame Hst1)|]. split; [reflexivity|exact Hm].
Qed.

(** X3.  The decision "rejected" on a merchant whose KYC is pending or in review
    stores kycStatus = REJECTED and the reason as given (also when none is
    given), and leaves the merchant's status and kycVerifiedAt alone.  When
    the mailer delivers, exactly one e-mail goes out: the rejection notice,
    carrying the reason, or the sentence "Documents could not be verified"
    when the reason is missing or empty. *)
Theorem verifyKyc_rejection :
  forall env w i merchant dto,
    stored w i merchant ->
    kycStatus merchant = KYC_PENDING \/ kycStatus merchant = KYC_IN_REVIEW ->
    VerifyKycDto.decision dto = rejected ->
    exists m' w',
      MerchantService.verifyKyc env i dto w = (Return (Some m'), w')
      /\ stored w' i m'
      /\ kycStatus m' = KYC_REJECTED
      /\ kycRejectionReason m' = VerifyKycDto.rejectionReason dto
      /\ status m' = status merchant
      /\ kycVerifiedAt m' = kycVerifiedAt merchant
      /\ ((forall e, emailService env e = None) ->
          (forall reason, VerifyKycDto.rejectionReason dto = Some reason ->
                          reason <> "" ->
                          mailed w w' [sendKycRejectedEmail (email merchant)
                                         (name merchant) reason])
          /\ (VerifyKycDto.rejectionReason dto = None
              \/ VerifyKycDto.rejectionReason dto = Some "" ->
              mailed w w' [sendKycRejectedEmail (email merchant) (name merchant)
                             "Documents could not be verified"])).
Proof.
  intros env w i merchant dto Hst Hk Hd.
  destruct (verifyKyc_rejected_run env dto Hst Hk Hd) as (m' & w' & Hr & Hst' & -> & Hm).
  eexists _, w'. split; [exact Hr|]. split; [exact Hst'|].
  split; [reflexivity|]. split; [reflexivity|]. split; [reflexivity|].
  split; [reflexivity|]. intros Hup. specialize (Hm (Hup _)). split.
  - intros reason E Hne. unfold rejectionText in Hm. rewrite E in Hm.
    destruct reason; [contradiction|exact Hm].
  - intros [E|E]; unfold rejectionText in Hm; rewrite E in Hm; exact Hm.
Qed.

Lemma verifyKyc_rejection_without_reason :
  exists m' w',
    MerchantService.verifyKyc (sampleEnv 0 "t0" mailerUp) 0
      {| VerifyKycDto.decision := rejected; VerifyKycDto.rejectionReason := None |}
      (worldOf [kycPendingMerchant 0 true])
    = (Return (Some m'), w')
    /\ kycStatus m' = KYC_REJECTED
    /\ outbox w' = [sendKycRejectedEmail "jane@x.com" "Jane"
                      "Documents could not be verified"].
Proof.
  assert (Hst : stored (worldOf [kycPendingMerchant 0 true]) 0
                   (kycPendingMerchant 0 true)) by (vm_compute; reflexivity).
  destruct (verifyKyc_rejection (sampleEnv 0 "t0" mailerUp)
              {| VerifyKycDto.decision := rejected;
                 VerifyKycDto.rejectionReason := None |} Hst)
    as (m' & w' & Hr & _ & Hk & _ & _ & _ & Hm);
    [left; reflexivity|reflexivity|].
  exists m', w'. split; [exact Hr|]. split; [exact Hk|].
  destruct (Hm (fun _ => eq_refl)) as [_ Hnone].
  destruct (Hnone (or_introl eq_refl)) as [Ho _]. exact Ho.
Defined.

(** X4.  The table [VALID_KYC_TRANSITIONS] is not consulted by the methods that
    change the KYC status: [verifyKyc] approves a merchant whose KYC is
    PENDING, and [submitKycDocuments] takes a PENDING merchant to PENDING
    again, although the table lists neither APPROVED nor PENDING among the
    successors of PENDING. *)
Theorem kyc_transition_table_is_not_enforced :
  forall env w i merchant,
    stored w i merchant ->
    kycStatus merchant = KYC_PENDING ->
    (forall dto,
        VerifyKycDto.decision dto = approved ->
        exists m' w',
          MerchantService.verifyKyc env i dto w = (Return (Some m'), w')
          /\ kycStatus m' = KYC_APPROVED
          /\ ~ In (kycStatus m') (VALID_KYC_TRANSITIONS (kycStatus merchant)))
    /\ (forall dto,
           emailVerified merchant = true ->
           submits "government_id" dto -> submits "proof_of_address" dto ->
           exists m' w',
             MerchantService.submitKycDocuments env i dto w = (Return (Some m'), w')
             /\ kycStatus m' = KYC_PENDING
             /\ ~ In (kycStatus m') (VALID_KYC_TRANSITIONS (kycStatus merchant))).
Proof.
  intros env w i merchant Hst Hk. split.
  - intros dto Hd.
    destruct (verifyKyc_approved_run env dto Hst (or_introl Hk) Hd)
      as (m' & w' & Hr & _ & -> & _).
    eexists _, w'. split; [exact Hr|].
    assert (E : forall b : bool,
               kycStatus ((if b then set_status ACTIVE else fun m => m)
                            (assignAll [set_kycStatus KYC_APPROVED;
                                        set_kycVerifiedAt (Some (now env))] merchant))
               = KYC_APPROVED) by (intros []; reflexivity).
    rewrite E, Hk. split; [reflexivity|]. simpl. intuition discriminate.
  - intros dto Hv Hg Hp.
    destruct (submitKycDocuments_run env dto Hst Hv) as (m' & w' & Hr & _ & -> & _);
      try assumption; try (rewrite Hk; discriminate).
    eexists _, w'. split; [exact Hr|]. split; [reflexivity|].
    rewrite Hk. simpl. intuition discriminate.
Qed.

Lemma kyc_transition_table_witness :
  exists m' w',
    MerchantService.verifyKyc (sampleEnv 0 "t0" mailerUp) 0
      {| VerifyKycDto.decision := approved; VerifyKycDto.rejectionReason := None |}
      (worldOf [kycPendingMerchant 0 false])
    = (Return (Some m'), w')
    /\ kycStatus m' = KYC_APPROVED
    /\ ~ In KYC_APPROVED (VALID_KYC_TRANSITIONS KYC_PENDING).
Proof.
  assert (Hst : stored (worldOf [kycPendingMerchant 0 false]) 0
                   (kycPendingMerchant 0 false)) by (vm_compute; reflexivity).
  destruct (proj1 (kyc_transition_table_is_not_enforced
                     (sampleEnv 0 "t0" mailerUp) Hst eq_refl)
              {| VerifyKycDto.decision := approved;
                 VerifyKycDto.rejectionReason := None |} eq_refl)
    as (m' & w' & Hr & Hk & Hn).
  exists m', w'. split; [exact Hr|]. split; [exact Hk|].
  rewrite Hk in Hn. exact Hn.
Defined.


(** ** Bank-account verification *)

(** X5.  [verifyBankAccount] throws [BankAccountNotFoundException] when the
    account number or the routing number is missing or empty, and
    [BankAccountAlreadyVerifiedException] when the account is verified, in
    that order and without changing anything.  Otherwise the provider
    decides: when it declines, the status FAILED is stored and
    [BankAccountVerificationFailedException] is thrown with the provider's
    error, so this failure does leave a trace in the store; when it
    accepts, the status VERIFIED is stored and the merchant returned. *)
Theorem verifyBankAccount_outcomes :
  forall env w i merchant,
    stored w i merchant ->
    let r := MerchantService.verifyBankAccount env i w in
    let onFile := truthy (bankAccountNumber merchant)
                  && truthy (bankRoutingNumber merchant) in
    (onFile = false -> r = (Throw BankAccountNotFoundException, w))
    /\ (onFile = true -> bankAccountStatus merchant = BANK_VERIFIED ->
        r = (Throw BankAccountAlreadyVerifiedException, w))
    /\ (onFile = true -> bankAccountStatus merchant <> BANK_VERIFIED ->
        success (providerAnswer env merchant) = false ->
        fst r = Throw (BankAccountVerificationFailedException
                         (error (providerAnswer env merchant)))
        /\ stored (snd r) i (set_bankAccountStatus BANK_FAILED merchant))
    /\ (onFile = true -> bankAccountStatus merchant <> BANK_VERIFIED ->
        success (providerAnswer env merchant) = true ->
        exists m',
          fst r = Return (Some m')
          /\ stored (snd r) i m'
          /\ bankAccountStatus m' = BANK_VERIFIED
          /\ bankAccountNumber m' = bankAccountNumber merchant
          /\ bankRoutingNumber m' = bankRoutingNumber merchant).
Proof.
  intros env w i merchant Hst r onFile. subst r onFile.
  unfold MerchantService.verifyBankAccount, bind.
  rewrite (getMerchantById_stored Hst). cbv zeta.
  fold (providerAnswer env merchant). rewrite <- negb_andb.
  destruct (truthy (bankAccountNumber merchant)
            && truthy (bankRoutingNumber merchant)); cbn [negb];
    [|split; [reflexivity|]; repeat split; intros; congruence].
  split; [intros H; discriminate H|].
  assert (Hv : forall s, BankAccountStatus_eqb s BANK_VERIFIED = true
                         <-> s = BANK_VERIFIED).
  { intros []; simpl; split; intros H; try reflexivity; discriminate H. }
  destruct (BankAccountStatus_eqb (bankAccountStatus merchant) BANK_VERIFIED) eqn:Ev.
  { apply Hv in Ev. split; [reflexivity|]. split; intros _ Hn; contradiction. }
  assert (Hnv : bankAccountStatus merchant <> BANK_VERIFIED).
  { intros H. apply Hv in H. congruence. }
  split; [intros _ H; contradiction|].
  unfold MerchantRepository.updateBankAccountStatus.
  destruct (success (providerAnswer env merchant)); cbn [negb]; split;
    intros _ _ Hs; try discriminate Hs.
  - rewrite (@update_stored w i merchant
               [set_bankAccountStatus BANK_VERIFIED; set_bankVerifiedAt (Some (now env))]
               ltac:(keeps_id) Hst).
    set (w1 := setRows _ w).
    destruct (bestEffort_deliver env
                (sendBankAccountVerifiedEmail (email merchant) (name merchant))
                ("Failed to send bank verified email to " ++ email merchant) w1)
      as (w2 & -> & Hsame).
    cbn [fst snd]. eexists. split; [reflexivity|]. split.
    + apply (sameRows_stored Hsame).
      apply (stored_after_mapRow
               (assignAll [set_bankAccountStatus BANK_VERIFIED;
                           set_bankVerifiedAt (Some (now env))]));
        [keeps_id|exact Hst].
    + repeat split.
  - rewrite (@update_stored w i merchant [set_bankAccountStatus BANK_FAILED]
               ltac:(keeps_id) Hst).
    cbn [fst snd]. split; [reflexivity|].
    apply (stored_after_mapRow (assignAll [set_bankAccountStatus BANK_FAILED]));
      [keeps_id|exact Hst].
Qed.

Lemma verifyBankAccount_declined_leaves_failed :
  fst (MerchantService.verifyBankAccount decliningBankEnv 0
         (worldOf [bankedMerchant 0 BANK_PENDING]))
  = Throw (BankAccountVerificationFailedException (Some "account closed"))
  /\ stored (snd (MerchantService.verifyBankAccount decliningBankEnv 0
                    (worldOf [bankedMerchant 0 BANK_PENDING])))
            0 (bankedMerchant 0 BANK_FAILED).
Proof.
  assert (Hst : stored (worldOf [bankedMerchant 0 BANK_PENDING]) 0
                   (bankedMerchant 0 BANK_PENDING)) by (vm_compute; reflexivity).
  apply (verifyBankAccount_outcomes decliningBankEnv Hst);
    [reflexivity|discriminate|reflexivity].
Defined.


(** ** Status changes, continued *)

Lemma mailed_nothing w w' :
  outbox w' = outbox w -> errorLog w' = errorLog w -> mailed w w' [].
Proof. intros Ho He. split; [rewrite app_nil_r; exact Ho|exact He]. Qed.

Lemma changeMerchantStatus_run env w i merchant dto :
  stored w i merchant ->
  In (ChangeMerchantStatusDto.status dto) (VALID_STATUS_TRANSITIONS (status merchant)) ->
  (forall e, emailService env e = None) ->
  exists m' w',
    MerchantService.changeMerchantStatus env i dto w = (Return (Some m'), w')
    /\ stored w' i m'
    /\ m' = assignAll
              (set_status (ChangeMerchantStatusDto.status dto)
               :: match ChangeMerchantStatusDto.status dto with
                  | SUSPENDED =>
                    [set_suspensionReason (ChangeMerchantStatusDto.reason dto)]
                  | CLOSED =>
                    [set_closedAt (Some (now env));
                     set_closedReason (ChangeMerchantStatusDto.reason dto)]
                  | _ => []
                  end) merchant
    /\ mailed w w'
         (if MerchantStatus_eqb (ChangeMerchantStatusDto.status dto) SUSPENDED
          then [sendAccountSuspendedEmail (email merchant) (name merchant)
                  (ChangeMerchantStatusDto.reason dto)]
          else if MerchantStatus_eqb (ChangeMerchantStatusDto.status dto) ACTIVE
                  && MerchantStatus_eqb (status merchant) SUSPENDED
               then [sendAccountReactivatedEmail (email merchant) (name merchant)]
               else []).
Proof.
  intros Hst Hin Hup. unfold MerchantService.changeMerchantStatus, bind.
  rewrite (getMerchantById_stored Hst). cbv zeta.
  apply includes_In_status in Hin. rewrite Hin. cbn [negb].
  unfold MerchantRepository.updateStatus.
  set (updateData := match ChangeMerchantStatusDto.status dto with
                     | SUSPENDED => _ | CLOSED => _ | _ => _ end).
  assert (Hid : forall m,
             id (assignAll (set_status (ChangeMerchantStatusDto.status dto)
                            :: updateData) m) = id m).
  { apply assignAll_keeps_id_status. subst updateData.
    destruct (ChangeMerchantStatusDto.status dto); intros; reflexivity. }
  rewrite (update_stored _ Hid Hst).
  set (m1 := assignAll _ merchant). set (w1 := setRows _ w).
  assert (Hst1 : stored w1 i m1) by (apply stored_after_mapRow; assumption).
  destruct (MerchantStatus_eqb (ChangeMerchantStatusDto.status dto) SUSPENDED).
  - destruct (bestEffort_delivered env _
                ("Failed to send status change email to " ++ email merchant) w1
                (Hup (sendAccountSuspendedEmail (email merchant) (name merchant)
                        (ChangeMerchantStatusDto.reason dto))))
      as (w2 & -> & Hsame & Hm).
    exists m1, w2. split; [reflexivity|].
    split; [exact (sameRows_stored Hsame Hst1)|]. split; [reflexivity|exact Hm].
  - destruct (MerchantStatus_eqb (ChangeMerchantStatusDto.status dto) ACTIVE
              && MerchantStatus_eqb (status merchant) SUSPENDED).
    + destruct (bestEffort_delivered env _
                  ("Failed to send status change email to " ++ email merchant) w1
                  (Hup (sendAccountReactivatedEmail (email merchant) (name merchant))))
        as (w2 & -> & Hsame & Hm).
      exists m1, w2. split; [reflexivity|].
      split; [exact (sameRows_stored Hsame Hst1)|]. split; [reflexivity|exact Hm].
    + exists m1, w1. split; [reflexivity|]. split; [exact Hst1|].
      split; [reflexivity|]. apply mailed_nothing; reflexivity.
Qed.

(** X6.  What a status change writes beside the status, and whom it tells (with a
    mailer that delivers).  Suspending stores the reason and sends the
    suspension notice; closing stores closedAt = now and the closing reason
    and sends nothing; activating and deactivating store nothing else, and
    only the activation of a suspended merchant sends a notice.  The
    suspension reason is not erased by the reactivation. *)
Theorem changeMerchantStatus_records_and_notifies :
  forall env w i merchant dto,
    stored w i merchant ->
    In (ChangeMerchantStatusDto.status dto) (VALID_STATUS_TRANSITIONS (status merchant)) ->
    (forall e, emailService env e = None) ->
    let target := ChangeMerchantStatusDto.status dto in
    let reason := ChangeMerchantStatusDto.reason dto in
    exists m' w',
      MerchantService.changeMerchantStatus env i dto w = (Return (Some m'), w')
      /\ stored w' i m'
      /\ (target = SUSPENDED ->
          suspensionReason m' = reason
          /\ closedAt m' = closedAt merchant /\ closedReason m' = closedReason merchant
          /\ mailed w w' [sendAccountSuspendedEmail (email merchant) (name merchant)
                            reason])
      /\ (target = CLOSED ->
          closedAt m' = Some (now env) /\ closedReason m' = reason
          /\ suspensionReason m' = suspensionReason merchant
          /\ mailed w w' [])
      /\ (target = ACTIVE \/ target = INACTIVE ->
          suspensionReason m' = suspensionReason merchant
          /\ closedAt m' = closedAt merchant /\ closedReason m' = closedReason merchant)
      /\ (target = ACTIVE -> status merchant = SUSPENDED ->
          mailed w w' [sendAccountReactivatedEmail (email merchant) (name merchant)])
      /\ (target = ACTIVE -> status merchant <> SUSPENDED -> mailed w w' [])
      /\ (target = INACTIVE -> mailed w w' []).
Proof.
  intros env w i merchant dto Hst Hin Hup target reason.
  destruct (changeMerchantStatus_run env dto Hst Hin Hup)
    as (m' & w' & Hr & Hst' & -> & Hm).
  eexists _, w'. split; [exact Hr|]. split; [exact Hst'|].
  subst target reason.
  destruct (ChangeMerchantStatusDto.status dto);
    cbn [MerchantStatus_eqb andb] in Hm.
  - exfalso. destruct (status merchant); simpl in Hin; intuition discriminate.
  - split; [intros H; discriminate H|]. split; [intros H; discriminate H|].
    split; [intros _; repeat split|].
    split.
    + intros _ Hs. rewrite Hs in Hm. exact Hm.
    + split; [|intros H; discriminate H].
      intros _ Hs. destruct (status merchant); try exact Hm. contradiction.
  - split; [intros H; discriminate H|]. split; [intros H; discriminate H|].
    split; [intros _; repeat split|].
    split; [intros H; discriminate H|]. split; [intros H; discriminate H|].
    intros _. exact Hm.
  - split; [intros _; repeat split; apply Hm|].
    split; [intros H; discriminate H|].
    split; [intros [H|H]; discriminate H|].
    split; [intros H; discriminate H|]. split; intros H; discriminate H.
  - split; [intros H; discriminate H|].
    split; [intros _; repeat split; apply Hm|].
    split; [intros [H|H]; discriminate H|].
    split; [intros H; discriminate H|]. split; intros H; discriminate H.
Qed.

Lemma changeMerchantStatus_suspension_recorded :
  exists m' w',
    MerchantService.changeMerchantStatus (sampleEnv 0 "t0" mailerUp) 0
      {| ChangeMerchantStatusDto.status := SUSPENDED;
         ChangeMerchantStatusDto.reason := Some "Violation of terms" |}
      (worldOf [sampleMerchant 0 ACTIVE])
    = (Return (Some m'), w')
    /\ suspensionReason m' = Some "Violation of terms"
    /\ outbox w' = [sendAccountSuspendedEmail "jane@x.com" "Jane"
                      (Some "Violation of terms")].
Proof.
  assert (Hst : stored (worldOf [sampleMerchant 0 ACTIVE]) 0 (sampleMerchant 0 ACTIVE))
    by (vm_compute; reflexivity).
  destruct (changeMerchantStatus_records_and_notifies
              (sampleEnv 0 "t0" mailerUp)
              {| ChangeMerchantStatusDto.status := SUSPENDED;
                 ChangeMerchantStatusDto.reason := Some "Violation of terms" |} Hst)
    as (m' & w' & Hr & _ & Hs & _).
  - right. left. reflexivity.
  - intros e. reflexivity.
  - destruct (Hs eq_refl) as (H1 & _ & _ & [Ho _]).
    exists m', w'. split; [exact Hr|]. split; [exact H1|exact Ho].
Defined.


(** ** The gate of suspended and closed accounts *)

Lemma validateMerchantActive_suspended m w :
  status m = SUSPENDED ->
  MerchantService.validateMerchantActive m w
  = (Throw (MerchantSuspendedException
              (MerchantService.orUndefined (suspensionReason m))), w).
Proof. intros H. unfold MerchantService.validateMerchantActive. rewrite H. reflexivity. Qed.

Lemma validateMerchantActive_closed m w :
  status m = CLOSED ->
  MerchantService.validateMerchantActive m w = (Throw MerchantClosedException, w).
Proof. intros H. unfold MerchantService.validateMerchantActive. rewrite H. reflexivity. Qed.

(** X7.  For a SUSPENDED merchant the updates of the bank account, the currency
    settings, the business details and the address all throw
    [MerchantSuspendedException], carrying the suspension reason (none when
    it is missing or empty); for a CLOSED merchant they throw
    [MerchantClosedException].  This happens before the request is looked
    at, so an invalid request gets the same answer, and nothing changes. *)
Theorem suspended_and_closed_accounts_refuse_updates :
  forall w i merchant bank currency business address,
    stored w i merchant ->
    (status merchant = SUSPENDED ->
     let refused :=
       (Throw (MerchantSuspendedException
                 (MerchantService.orUndefined (suspensionReason merchant))), w) in
     MerchantService.updateBankAccount i bank w = refused
     /\ MerchantService.updateCurrencySettings i currency w = refused
     /\ MerchantService.updateBusinessDetails i business w = refused
     /\ MerchantService.updateAddress i address w = refused)
    /\ (status merchant = CLOSED ->
        let refused := (Throw MerchantClosedException, w) in
        MerchantService.updateBankAccount i bank w = refused
        /\ MerchantService.updateCurrencySettings i currency w = refused
        /\ MerchantService.updateBusinessDetails i business w = refused
        /\ MerchantService.updateAddress i address w = refused).
Proof.
  intros w i merchant bank currency business address Hst. split; intros Hs refused;
    subst refused;
    unfold MerchantService.updateBankAccount, MerchantService.updateCurrencySettings,
      MerchantService.updateBusinessDetails, MerchantService.updateAddress, bind;
    rewrite !(getMerchantById_stored Hst);
    [rewrite !(validateMerchantActive_suspended _ _ Hs)
    |rewrite !(validateMerchantActive_closed _ _ Hs)];
    repeat split.
Qed.

Lemma suspended_account_refuses_bank_update :
  MerchantService.updateBankAccount 0 (bankDto "12" "123")
    (worldOf [suspendedMerchant 0 (Some "Violation of terms")])
  = (Throw (MerchantSuspendedException (Some "Violation of terms")),
     worldOf [suspendedMerchant 0 (Some "Violation of terms")]).
Proof.
  assert (Hst : stored (worldOf [suspendedMerchant 0 (Some "Violation of terms")]) 0
                   (suspendedMerchant 0 (Some "Violation of terms")))
    by (vm_compute; reflexivity).
  apply (suspended_and_closed_accounts_refuse_updates
           (bankDto "12" "123")
           {| CurrencySettingsDto.supportedCurrencies := [];
              CurrencySettingsDto.defaultCurrency := "USD" |}
           (acmeDetails None) (mainStreet "us") Hst).
  reflexivity.
Defined.

(** ** Unknown merchants *)

(** X8.  Every method that takes a merchant id throws
    [MerchantNotFoundException], carrying that id, when no row has it, and
    changes nothing; the two methods that take an e-mail address throw the
    same exception without an id when no row carries the address. *)
Theorem unknown_merchant_is_not_found :
  forall env w,
    (forall i,
        find (MerchantRepository.hasId i) (merchants w) = None ->
        MerchantService.getMerchantById i w = (Throw (MerchantNotFoundException (Some i)), w)
        /\ (forall dto, MerchantService.submitKycDocuments env i dto w = (Throw (MerchantNotFoundException (Some i)), w))
        /\ (forall dto, MerchantService.verifyKyc env i dto w = (Throw (MerchantNotFoundException (Some i)), w))
        /\ (forall dto, MerchantService.updateBankAccount i dto w = (Throw (MerchantNotFoundException (Some i)), w))
        /\ MerchantService.verifyBankAccount env i w = (Throw (MerchantNotFoundException (Some i)), w)
        /\ (forall dto, MerchantService.updateCurrencySettings i dto w = (Throw (MerchantNotFoundException (Some i)), w))
        /\ (forall dto, MerchantService.changeMerchantStatus env i dto w = (Throw (MerchantNotFoundException (Some i)), w))
        /\ (forall dto, MerchantService.updateApiQuota i dto w = (Throw (MerchantNotFoundException (Some i)), w))
        /\ MerchantService.checkAndIncrementApiQuota i w = (Throw (MerchantNotFoundException (Some i)), w)
        /\ (forall dto, MerchantService.updateBusinessDetails i dto w = (Throw (MerchantNotFoundException (Some i)), w))
        /\ (forall dto, MerchantService.updateAddress i dto w = (Throw (MerchantNotFoundException (Some i)), w))
        /\ (forall dto,
               MerchantService.updateNotificationPreferences i dto w = (Throw (MerchantNotFoundException (Some i)), w)))
    /\ (forall e,
           find (MerchantRepository.sameEmail e) (merchants w) = None ->
           MerchantService.getMerchantByEmail e w
           = (Throw (MerchantNotFoundException None), w)
           /\ MerchantService.resendVerificationEmail env e w
              = (Throw (MerchantNotFoundException None), w)).
Proof.
  intros env w. split.
  - intros i H.
    pose proof (getMerchantById_missing w i H) as Hg.
    split; [exact Hg|].
    unfold MerchantService.submitKycDocuments, MerchantService.verifyKyc,
      MerchantService.updateBankAccount, MerchantService.verifyBankAccount,
      MerchantService.updateCurrencySettings, MerchantService.changeMerchantStatus,
      MerchantService.updateApiQuota, MerchantService.checkAndIncrementApiQuota,
      MerchantService.updateBusinessDetails, MerchantService.updateAddress,
      MerchantService.updateNotificationPreferences, bind.
    rewrite !Hg. repeat split.
  - intros e H.
    unfold MerchantService.getMerchantByEmail, MerchantService.resendVerificationEmail,
      MerchantRepository.findByEmail, bind, getRows, ret.
    rewrite H. split; reflexivity.
Qed.

Lemma unknown_merchant_witness :
  MerchantService.checkAndIncrementApiQuota 7 (worldOf [sampleMerchant 0 ACTIVE])
  = (Throw (MerchantNotFoundException (Some 7%nat)), worldOf [sampleMerchant 0 ACTIVE]).
Proof.
  apply (unknown_merchant_is_not_found (sampleEnv 0 "t0" mailerUp)
           (worldOf [sampleMerchant 0 ACTIVE])).
  reflexivity.
Defined.


(** ** Business details *)

Lemma length_check_passes v :
  (5 <= utf16Length v <= 50)%nat ->
  ((utf16Length v <? 5) || (50 <? utf16Length v))%nat = false.
Proof.
  intros [H1 H2]. apply orb_false_iff. split; apply Nat.ltb_ge; lia.
Qed.

Lemma length_check_fails v :
  (utf16Length v < 5 \/ 50 < utf16Length v)%nat ->
  ((utf16Length v <? 5) || (50 <? utf16Length v))%nat = true.
Proof.
  intros [H|H]; apply orb_true_iff; [left|right]; apply Nat.ltb_lt; exact H.
Qed.

Lemma truthy_nonempty v : v <> "" -> truthy (Some v) = true.
Proof. destruct v; [congruence|reflexivity]. Qed.

Lemma optional_length_check_passes (s : option string) (check : string -> M unit) w :
  (forall v, (5 <= utf16Length v <= 50)%nat -> check v w = (Return tt, w)) ->
  lengthOk s ->
  match s with
  | Some v => if truthy (Some v) then check v else ret tt
  | None => ret tt
  end w = (Return tt, w).
Proof.
  intros Hc Hok. destruct s as [v|]; [|reflexivity].
  destruct v as [|c v]; [reflexivity|].
  rewrite truthy_nonempty by discriminate.
  apply Hc. apply Hok; [reflexivity|discriminate].
Qed.

(** X9.  [updateBusinessDetails] on a merchant that is neither suspended nor
    closed checks the registration number first and the tax id second: a
    non-empty value shorter than 5 or longer than 50 (counted, as [length]
    does, in UTF-16 code units) makes it
    throw a plain [Error] (not one of the domain exceptions) and nothing is
    stored.  Missing and empty values are not checked.  Otherwise the
    business name and type of the request are stored, with the registration
    number and tax id when given; the status stays. *)
Theorem updateBusinessDetails_checks_lengths :
  forall w i merchant dto,
    stored w i merchant ->
    status merchant <> SUSPENDED -> status merchant <> CLOSED ->
    let regNumber := UpdateBusinessDetailsDto.businessRegistrationNumber dto in
    let taxNumber := UpdateBusinessDetailsDto.taxId dto in
    (forall v, regNumber = Some v -> v <> "" ->
               (utf16Length v < 5 \/ 50 < utf16Length v)%nat ->
               MerchantService.updateBusinessDetails i dto w
               = (Throw (PlainError "Invalid business registration number format"), w))
    /\ (lengthOk regNumber ->
        forall v, taxNumber = Some v -> v <> "" ->
                  (utf16Length v < 5 \/ 50 < utf16Length v)%nat ->
                  MerchantService.updateBusinessDetails i dto w
                  = (Throw (PlainError "Invalid tax ID format"), w))
    /\ (lengthOk regNumber -> lengthOk taxNumber ->
        exists m' w',
          MerchantService.updateBusinessDetails i dto w = (Return (Some m'), w')
          /\ stored w' i m'
          /\ businessName m' = Some (UpdateBusinessDetailsDto.businessName dto)
          /\ businessType m' = Some (UpdateBusinessDetailsDto.businessType dto)
          /\ (forall v, regNumber = Some v -> businessRegistrationNumber m' = Some v)
          /\ (forall v, taxNumber = Some v -> taxId m' = Some v)
          /\ status m' = status merchant
          /\ email m' = email merchant).
Proof.
  intros w i merchant dto Hst Hs Hc regNumber taxNumber.
  assert (Hreg : forall v, (5 <= utf16Length v <= 50)%nat ->
                           MerchantService.validateBusinessRegistrationNumber v w
                           = (Return tt, w)).
  { intros v Hv. unfold MerchantService.validateBusinessRegistrationNumber.
    rewrite length_check_passes by exact Hv. reflexivity. }
  assert (Htax : forall v, (5 <= utf16Length v <= 50)%nat ->
                           MerchantService.validateTaxId v w = (Return tt, w)).
  { intros v Hv. unfold MerchantService.validateTaxId.
    rewrite length_check_passes by exact Hv. reflexivity. }
  unfold MerchantService.updateBusinessDetails, bind.
  rewrite (getMerchantById_stored Hst), (validateMerchantActive_ok _ _ Hs Hc).
  fold regNumber taxNumber.
  split; [|split].
  - intros v E Hne Hbad. rewrite E, truthy_nonempty by exact Hne.
    unfold MerchantService.validateBusinessRegistrationNumber.
    rewrite length_check_fails by exact Hbad. reflexivity.
  - intros Hok v E Hne Hbad.
    rewrite (optional_length_check_passes _ Hreg Hok).
    rewrite E, truthy_nonempty by exact Hne.
    unfold MerchantService.validateTaxId.
    rewrite length_check_fails by exact Hbad. reflexivity.
  - intros Hok Hok'.
    rewrite (optional_length_check_passes _ Hreg Hok).
    rewrite (optional_length_check_passes _ Htax Hok').
    match goal with
    | |- context [MerchantRepository.update i ?data w] =>
      rewrite (@update_stored w i merchant data ltac:(keeps_id) Hst);
        eexists; eexists; split; [reflexivity|]; split;
          [apply (stored_after_mapRow (assignAll data)); [keeps_id|exact Hst]|]
    end.
    repeat split; intros; try assumption; reflexivity.
Qed.

(** Four letters of two bytes each are four code units, and a character
    outside the basic plane is two. *)
Lemma utf16Length_examples :
  utf16Length "éééé" = 4%nat /\ String.length "éééé" = 8%nat
  /\ utf16Length "😀" = 2%nat /\ utf16Length "12345" = 5%nat.
Proof. repeat split. Qed.

Lemma updateBusinessDetails_short_registration_number :
  MerchantService.updateBusinessDetails 0 (acmeDetails (Some "éééé"))
    (worldOf [sampleMerchant 0 ACTIVE])
  = (Throw (PlainError "Invalid business registration number format"),
     worldOf [sampleMerchant 0 ACTIVE]).
Proof.
  assert (Hst : stored (worldOf [sampleMerchant 0 ACTIVE]) 0 (sampleMerchant 0 ACTIVE))
    by (vm_compute; reflexivity).
  apply (proj1 (@updateBusinessDetails_checks_lengths _ _ _ (acmeDetails (Some "éééé"))
                  Hst ltac:(discriminate) ltac:(discriminate)) "éééé").
  - reflexivity.
  - discriminate.
  - left. simpl. lia.
Defined.

(** ** Addresses *)

Lemma toUpperCaseChar_idem c : toUpperCaseChar (toUpperCaseChar c) = toUpperCaseChar c.
Proof.
  destruct c as [[] [] [] [] [] [] [] []]; vm_compute; reflexivity.
Qed.

Lemma toUpperCaseChar_lower c : toUpperCaseChar (toLowerCaseChar c) = toUpperCaseChar c.
Proof.
  destruct c as [[] [] [] [] [] [] [] []]; vm_compute; reflexivity.
Qed.

Lemma toLowerCaseChar_upper c : toLowerCaseChar (toUpperCaseChar c) = toLowerCaseChar c.
Proof.
  destruct c as [[] [] [] [] [] [] [] []]; vm_compute; reflexivity.
Qed.

Lemma toUpperCase_idem s : toUpperCase (toUpperCase s) = toUpperCase s.
Proof.
  induction s as [|c s IH]; simpl; [reflexivity|].
  rewrite toUpperCaseChar_idem, IH. reflexivity.
Qed.

Lemma toUpperCase_lower s : toUpperCase (toLowerCase s) = toUpperCase s.
Proof.
  induction s as [|c s IH]; simpl; [reflexivity|].
  rewrite toUpperCaseChar_lower, IH. reflexivity.
Qed.

Lemma toLowerCase_upper s : toLowerCase (toUpperCase s) = toLowerCase s.
Proof.
  induction s as [|c s IH]; simpl; [reflexivity|].
  rewrite toLowerCaseChar_upper, IH. reflexivity.
Qed.

Lemma toUpperCase_length s : String.length (toUpperCase s) = String.length s.
Proof. induction s as [|c s IH]; simpl; [reflexivity|]. rewrite IH. reflexivity. Qed.

Lemma toUpperCase_same_up_to_case a b :
  toLowerCase a = toLowerCase b -> toUpperCase a = toUpperCase b.
Proof.
  intros H. rewrite <- (toUpperCase_lower a), <- (toUpperCase_lower b), H.
  reflexivity.
Qed.

(** X10.  [updateAddress] on a merchant that is neither suspended nor closed
    stores the address of the request with the country code in upper case:
    the stored code has the length of the given one, equals it up to case
    and is its own upper-case form.  So two requests that differ only in the
    case of the country code have the same effect.  (Country codes of ASCII
    characters.) *)
Theorem updateAddress_stores_country_in_upper_case :
  forall w i merchant dto,
    stored w i merchant ->
    status merchant <> SUSPENDED -> status merchant <> CLOSED ->
    asciiText (AddressDto.country dto) ->
    (exists m' w' code,
        MerchantService.updateAddress i dto w = (Return (Some m'), w')
        /\ stored w' i m'
        /\ addressLine1 m' = Some (AddressDto.addressLine1 dto)
        /\ city m' = Some (AddressDto.city dto)
        /\ state m' = Some (AddressDto.state dto)
        /\ postalCode m' = Some (AddressDto.postalCode dto)
        /\ country m' = Some code
        /\ String.length code = String.length (AddressDto.country dto)
        /\ toLowerCase code = toLowerCase (AddressDto.country dto)
        /\ toUpperCase code = code
        /\ status m' = status merchant)
    /\ (forall dto',
           sameBut_country dto dto' ->
           toLowerCase (AddressDto.country dto') = toLowerCase (AddressDto.country dto) ->
           MerchantService.updateAddress i dto' w = MerchantService.updateAddress i dto w).
Proof.
  intros w i merchant dto Hst Hs Hc _. split.
  - unfold MerchantService.updateAddress, bind.
    rewrite (getMerchantById_stored Hst), (validateMerchantActive_ok _ _ Hs Hc).
    match goal with
    | |- context [MerchantRepository.update i ?data w] =>
      rewrite (@update_stored w i merchant data ltac:(keeps_id) Hst);
        eexists; eexists; exists (toUpperCase (AddressDto.country dto));
        split; [reflexivity|]; split;
          [apply (stored_after_mapRow (assignAll data)); [keeps_id|exact Hst]|]
    end.
    repeat split.
    + apply toUpperCase_length.
    + apply toLowerCase_upper.
    + apply toUpperCase_idem.
  - intros dto' (E1 & E2 & E3 & E4 & E5) E.
    unfold MerchantService.updateAddress.
    rewrite E1, E2, E3, E4, E5, (toUpperCase_same_up_to_case _ _ E).
    reflexivity.
Qed.

Lemma updateAddress_lower_case_country :
  MerchantService.updateAddress 0 (mainStreet "us") (worldOf [sampleMerchant 0 ACTIVE])
  = MerchantService.updateAddress 0 (mainStreet "US") (worldOf [sampleMerchant 0 ACTIVE]).
Proof.
  assert (Hst : stored (worldOf [sampleMerchant 0 ACTIVE]) 0 (sampleMerchant 0 ACTIVE))
    by (vm_compute; reflexivity).
  assert (Ha : asciiText (AddressDto.country (mainStreet "US"))).
  { repeat constructor. }
  apply (proj2 (@updateAddress_stores_country_in_upper_case _ _ _ (mainStreet "US")
                  Hst ltac:(discriminate) ltac:(discriminate) Ha) (mainStreet "us")).
  - repeat split.
  - reflexivity.
Defined.

(** ** Notification preferences *)

Lemma spreadPreferences_twice prefs dto :
  MerchantService.spreadPreferences (MerchantService.spreadPreferences prefs dto) dto
  = MerchantService.spreadPreferences prefs dto.
Proof.
  destruct dto as [[] [] [] [] [] [] [] []]; reflexivity.
Qed.

Lemma mapRow_twice i (f g : Merchant -> Merchant) rows :
  (forall m, id (f m) = id m) ->
  (forall m, g (f m) = f m) ->
  MerchantRepository.mapRow i g (MerchantRepository.mapRow i f rows)
  = MerchantRepository.mapRow i f rows.
Proof.
  intros Hid Hfg. unfold MerchantRepository.mapRow. rewrite map_map.
  apply map_ext. intros m.
  destruct (MerchantRepository.hasId i m) eqn:E.
  - unfold MerchantRepository.hasId in *. rewrite Hid, E. apply Hfg.
  - rewrite E. reflexivity.
Qed.

Lemma setRows_setRows rows rows' w : setRows rows (setRows rows' w) = setRows rows w.
Proof. reflexivity. Qed.

Lemma spreadPreferences_laidOver current dto :
  laidOver dto current (MerchantService.spreadPreferences current dto).
Proof.
  unfold laidOver, preferenceProperties.
  repeat (constructor;
          [ cbn [fst snd MerchantService.spreadPreferences
                 emailNotifications smsNotifications pushNotifications
                 paymentReceived settlementCompleted kycStatusUpdate
                 securityAlerts marketingEmails];
            match goal with
            | |- match ?x with _ => _ end => destruct x
            end; reflexivity
          | ]).
  constructor.
Qed.

(** X11.  [updateNotificationPreferences] works on a merchant of any status, also
    a suspended or closed one.  It stores the current preferences (the
    defaults when the merchant has none) with the properties of the request
    laid over them: a property the request has replaces the current one,
    also when it holds [null] or [undefined], which then is what is stored;
    a property the request does not have is kept.  It sends nothing and
    leaves the status alone.  Sending the same request again changes
    nothing. *)
Theorem updateNotificationPreferences_merges_and_repeats :
  forall w i merchant dto,
    stored w i merchant ->
    let currentPrefs :=
      match notificationPreferences merchant with
      | Some prefs => prefs
      | None => MerchantService.getDefaultNotificationPreferences
      end in
    exists m' w' prefs,
      MerchantService.updateNotificationPreferences i dto w = (Return (Some m'), w')
      /\ stored w' i m'
      /\ notificationPreferences m' = Some prefs
      /\ laidOver dto currentPrefs prefs
      /\ status m' = status merchant
      /\ mailed w w' []
      /\ MerchantService.updateNotificationPreferences i dto w' = (Return (Some m'), w').
Proof.
  intros w i merchant dto Hst currentPrefs.
  set (newPrefs := MerchantService.spreadPreferences currentPrefs dto).
  assert (Hrun : forall w0 m0,
             stored w0 i m0 ->
             MerchantService.updateNotificationPreferences i dto w0
             = (Return (Some (set_notificationPreferences
                                (Some (MerchantService.spreadPreferences
                                         match notificationPreferences m0 with
                                         | Some prefs => prefs
                                         | None => MerchantService.getDefaultNotificationPreferences
                                         end dto)) m0)),
                setRows (MerchantRepository.mapRow i (set_notificationPreferences
                                     (Some (MerchantService.spreadPreferences
                                              match notificationPreferences m0 with
                                              | Some prefs => prefs
                                              | None => MerchantService.getDefaultNotificationPreferences
                                              end dto)))
                           (merchants w0)) w0)).
  { intros w0 m0 H0. unfold MerchantService.updateNotificationPreferences, bind.
    rewrite (getMerchantById_stored H0).
    match goal with
    | |- context [MerchantRepository.update i ?data w0] =>
      rewrite (@update_stored w0 i m0 data ltac:(keeps_id) H0)
    end.
    reflexivity. }
  pose proof (@stored_after_mapRow w i merchant
                (set_notificationPreferences (Some newPrefs)) ltac:(keeps_id) Hst) as Hst'.
  eexists; eexists; exists newPrefs. split; [apply (Hrun _ _ Hst)|].
  fold currentPrefs. fold newPrefs.
  split; [exact Hst'|].
  split; [reflexivity|]. split; [apply spreadPreferences_laidOver|].
  split; [reflexivity|].
  split; [split; [cbn [outbox setRows]; symmetry; apply app_nil_r|reflexivity]|].
  rewrite (Hrun _ _ Hst').
  cbn [notificationPreferences set_notificationPreferences].
  change (notificationPreferences (set_notificationPreferences (Some newPrefs) merchant))
    with (Some newPrefs).
  cbv beta iota. unfold newPrefs at 1 3. rewrite spreadPreferences_twice.
  fold newPrefs. cbn [merchants setRows].
  rewrite mapRow_twice; [|keeps_id|reflexivity].
  reflexivity.
Qed.

Lemma updateNotificationPreferences_on_a_closed_account :
  exists m' w' prefs,
    MerchantService.updateNotificationPreferences 0 muteMarketing
      (worldOf [closedMerchant 0]) = (Return (Some m'), w')
    /\ notificationPreferences m' = Some prefs
    /\ smsNotifications prefs = Some true
    /\ pushNotifications prefs = None
    /\ status m' = CLOSED.
Proof.
  assert (Hst : stored (worldOf [closedMerchant 0]) 0 (closedMerchant 0))
    by (vm_compute; reflexivity).
  destruct (@updateNotificationPreferences_merges_and_repeats _ _ _ muteMarketing Hst)
    as (m' & w' & prefs & Hr & _ & Hp & Hl & Hs & _).
  exists m', w', prefs. split; [exact Hr|]. split; [exact Hp|].
  apply Forall_inv_tail in Hl. pose proof (Forall_inv Hl) as Hsms.
  apply Forall_inv_tail in Hl. pose proof (Forall_inv Hl) as Hpush.
  split; [exact Hsms|]. split; [exact Hpush|]. rewrite Hs. reflexivity.
Defined.

(** ** Paging of search results *)

Lemma ceilDiv_least total limit :
  0 < limit ->
  (MerchantService.ceilDiv total limit - 1) * limit < total
  <= MerchantService.ceilDiv total limit * limit.
Proof.
  intros Hl. unfold MerchantService.ceilDiv.
  pose proof (Z.div_mod (- total) limit ltac:(lia)) as Hd.
  pose proof (Z.mod_pos_bound (- total) limit Hl) as Hm.
  nia.
Qed.

Lemma numberOr_positive n d :
  0 < d -> (forall v, n = Some v -> 0 <= v) -> 0 < MerchantService.numberOr n d.
Proof.
  intros Hd Hn. unfold MerchantService.numberOr. destruct n as [v|]; [|exact Hd].
  destruct (v =? 0) eqn:E; [exact Hd|].
  apply Z.eqb_neq in E. specialize (Hn v eq_refl). lia.
Qed.

(** X12.  [searchMerchants] hands on the rows and the count the store found, and
    pages them: a missing or zero page number becomes 1, a missing or zero
    page size becomes 20, so the page size is never 0; and the number of
    pages is the least number of pages of that size that hold all the rows
    found (none when nothing was found).  A failure of the search is passed
    on.  (Counts below 2^53, page sizes not negative.) *)
Theorem searchMerchants_pages_the_result :
  forall search dto w,
    (forall v, SearchMerchantsDto.limit dto = Some v -> 0 <= v) ->
    (forall rows count w',
        search dto w = (Return (rows, count), w') ->
        0 <= count < 2 ^ 53 ->
        exists r,
          MerchantService.searchMerchants search dto w = (Return r, w')
          /\ data r = rows /\ total r = count
          /\ page r = MerchantService.numberOr (SearchMerchantsDto.page dto) 1
          /\ page r <> 0
          /\ 0 < limit r
          /\ (SearchMerchantsDto.limit dto = None \/ SearchMerchantsDto.limit dto = Some 0 ->
              limit r = 20)
          /\ (totalPages r - 1) * limit r < count <= totalPages r * limit r
          /\ (count = 0 -> totalPages r = 0))
    /\ (forall e w',
           search dto w = (Throw e, w') ->
           MerchantService.searchMerchants search dto w = (Throw e, w')).
Proof.
  intros search dto w Hl. split.
  - intros rows count w' Hs Hc.
    unfold MerchantService.searchMerchants, bind. rewrite Hs. cbn [fst snd ret].
    eexists. split; [reflexivity|]. cbn [data total page limit totalPages].
    assert (Hpos : 0 < MerchantService.numberOr (SearchMerchantsDto.limit dto) 20)
      by (apply numberOr_positive; [lia|exact Hl]).
    pose proof (ceilDiv_least count Hpos) as Hceil.
    repeat split; try (exact Hpos || apply Hceil).
    + unfold MerchantService.numberOr.
      destruct (SearchMerchantsDto.page dto) as [v|]; [|discriminate].
      destruct (v =? 0) eqn:E; [discriminate|apply Z.eqb_neq; exact E].
    + intros [E|E]; rewrite E; reflexivity.
    + intros ->. nia.
  - intros e w' Hs. unfold MerchantService.searchMerchants, bind. rewrite Hs.
    reflexivity.
Qed.

Lemma searchMerchants_45_rows_in_3_pages :
  exists r,
    MerchantService.searchMerchants (countingSearch 45) (firstPage None) emptyWorld
    = (Return r, emptyWorld)
    /\ limit r = 20 /\ totalPages r = 3.
Proof.
  destruct (proj1 (@searchMerchants_pages_the_result (countingSearch 45) (firstPage None)
                     emptyWorld ltac:(discriminate))
                  [] 45 emptyWorld eq_refl ltac:(lia))
    as (r & Hr & _ & _ & _ & _ & _ & Hl & Hp & _).
  exists r. split; [exact Hr|].
  specialize (Hl (or_introl eq_refl)). split; [exact Hl|].
  rewrite Hl in Hp. lia.
Defined.


(** ** The three shortcuts of the status change *)

Lemma changeMerchantStatus_refused env w i merchant dto :
  stored w i merchant ->
  ~ In (ChangeMerchantStatusDto.status dto) (VALID_STATUS_TRANSITIONS (status merchant)) ->
  MerchantService.changeMerchantStatus env i dto w
  = (Throw (MerchantInvalidStatusException (status merchant)
              (ChangeMerchantStatusDto.status dto)), w).
Proof.
  intros Hst Hnot. unfold MerchantService.changeMerchantStatus, bind.
  rewrite (getMerchantById_stored Hst).
  destruct (includes MerchantStatus_eqb _ _) eqn:E.
  - apply includes_In_status in E. contradiction.
  - reflexivity.
Qed.

Lemma changeMerchantStatus_done env w i merchant dto :
  stored w i merchant ->
  In (ChangeMerchantStatusDto.status dto) (VALID_STATUS_TRANSITIONS (status merchant)) ->
  exists m' w',
    MerchantService.changeMerchantStatus env i dto w = (Return (Some m'), w')
    /\ stored w' i m'
    /\ m' = assignAll
              (set_status (ChangeMerchantStatusDto.status dto)
               :: match ChangeMerchantStatusDto.status dto with
                  | SUSPENDED =>
                    [set_suspensionReason (ChangeMerchantStatusDto.reason dto)]
                  | CLOSED =>
                    [set_closedAt (Some (now env));
                     set_closedReason (ChangeMerchantStatusDto.reason dto)]
                  | _ => []
                  end) merchant.
Proof.
  intros Hst Hin. unfold MerchantService.changeMerchantStatus, bind.
  rewrite (getMerchantById_stored Hst). cbv zeta.
  apply includes_In_status in Hin. rewrite Hin. cbn [negb].
  unfold MerchantRepository.updateStatus.
  set (updateData := match ChangeMerchantStatusDto.status dto with
                     | SUSPENDED => _ | CLOSED => _ | _ => _ end).
  assert (Hid : forall m,
             id (assignAll (set_status (ChangeMerchantStatusDto.status dto)
                            :: updateData) m) = id m).
  { apply assignAll_keeps_id_status. subst updateData.
    destruct (ChangeMerchantStatusDto.status dto); intros; reflexivity. }
  rewrite (update_stored _ Hid Hst).
  set (m1 := assignAll _ merchant). set (w1 := setRows _ w).
  assert (Hst1 : stored w1 i m1) by (apply stored_after_mapRow; assumption).
  destruct (MerchantStatus_eqb (ChangeMerchantStatusDto.status dto) SUSPENDED).
  - destruct (bestEffort_deliver env
                (sendAccountSuspendedEmail (email merchant) (name merchant)
                   (ChangeMerchantStatusDto.reason dto))
                ("Failed to send status change email to " ++ email merchant) w1)
      as (w2 & -> & Hsame).
    exists m1, w2. split; [reflexivity|].
    split; [exact (sameRows_stored Hsame Hst1)|reflexivity].
  - destruct (MerchantStatus_eqb (ChangeMerchantStatusDto.status dto) ACTIVE
              && MerchantStatus_eqb (status merchant) SUSPENDED).
    + destruct (bestEffort_deliver env
                  (sendAccountReactivatedEmail (email merchant) (name merchant))
                  ("Failed to send status change email to " ++ email merchant) w1)
        as (w2 & -> & Hsame).
      exists m1, w2. split; [reflexivity|].
      split; [exact (sameRows_stored Hsame Hst1)|reflexivity].
    + exists m1, w1. split; [reflexivity|]. split; [exact Hst1|reflexivity].
Qed.

(** X13.  The shortcuts [activateMerchant], [suspendMerchant] and
    [closeMerchantAccount] go through the transition table.  Activation
    works from PENDING, INACTIVE and SUSPENDED and is refused for a merchant
    that is already ACTIVE or is CLOSED; suspension works from PENDING,
    ACTIVE and INACTIVE and is refused for a SUSPENDED or CLOSED merchant;
    closing works from every status but CLOSED.  A refusal throws
    [MerchantInvalidStatusException] with the current and the requested
    status and changes nothing; a suspension stores its reason, a closing
    its reason and the time. *)
Theorem status_shortcuts_follow_the_table :
  forall env w i merchant reason,
    stored w i merchant ->
    let refused target :=
      (Throw (MerchantInvalidStatusException (status merchant) target), w) in
    match status merchant with
    | ACTIVE | CLOSED => MerchantService.activateMerchant env i w = refused ACTIVE
    | _ => exists m', nowIn ACTIVE i (MerchantService.activateMerchant env i w) m'
    end
    /\ match status merchant with
       | SUSPENDED | CLOSED =>
         MerchantService.suspendMerchant env i reason w = refused SUSPENDED
       | _ => exists m',
           nowIn SUSPENDED i (MerchantService.suspendMerchant env i reason w) m'
           /\ suspensionReason m' = reason
       end
    /\ match status merchant with
       | CLOSED => MerchantService.closeMerchantAccount env i reason w = refused CLOSED
       | _ => exists m',
           nowIn CLOSED i (MerchantService.closeMerchantAccount env i reason w) m'
           /\ closedReason m' = reason /\ closedAt m' = Some (now env)
       end.
Proof.
  intros env w i merchant reason Hst refused. subst refused.
  unfold MerchantService.activateMerchant, MerchantService.suspendMerchant,
    MerchantService.closeMerchantAccount, nowIn.
  pose proof (fun dto => @changeMerchantStatus_refused env w i merchant dto Hst) as Hno.
  pose proof (fun dto => @changeMerchantStatus_done env w i merchant dto Hst) as Hyes.
  assert (Hgo : forall dto,
             In (ChangeMerchantStatusDto.status dto)
                (VALID_STATUS_TRANSITIONS (status merchant)) ->
             exists m',
               (fst (MerchantService.changeMerchantStatus env i dto w) = Return (Some m')
                /\ stored (snd (MerchantService.changeMerchantStatus env i dto w)) i m'
                /\ status m' = ChangeMerchantStatusDto.status dto)
               /\ (ChangeMerchantStatusDto.status dto = SUSPENDED ->
                   suspensionReason m' = ChangeMerchantStatusDto.reason dto)
               /\ (ChangeMerchantStatusDto.status dto = CLOSED ->
                   closedReason m' = ChangeMerchantStatusDto.reason dto
                   /\ closedAt m' = Some (now env))).
  { intros dto Hin. destruct (Hyes dto Hin) as (m' & w' & -> & Hst' & ->).
    exists (assignAll
              (set_status (ChangeMerchantStatusDto.status dto)
               :: match ChangeMerchantStatusDto.status dto with
                  | SUSPENDED =>
                    [set_suspensionReason (ChangeMerchantStatusDto.reason dto)]
                  | CLOSED =>
                    [set_closedAt (Some (now env));
                     set_closedReason (ChangeMerchantStatusDto.reason dto)]
                  | _ => []
                  end) merchant).
    split; [split; [reflexivity|split; [exact Hst'|]]|split].
    - destruct (ChangeMerchantStatusDto.status dto); reflexivity.
    - intros E. rewrite E. reflexivity.
    - intros E. rewrite E. split; reflexivity. }
  destruct (status merchant) eqn:Es; cbn [VALID_STATUS_TRANSITIONS] in Hno, Hgo;
    (split; [|split]);
    match goal with
    | |- context [MerchantService.changeMerchantStatus env i ?dto w] =>
      first
        [ apply (Hno dto); cbn; intuition discriminate
        | destruct (Hgo dto) as (m' & H1 & H2 & H3);
          [ cbn; repeat (first [left; reflexivity | right])
          | exists m';
            first [ exact H1
                  | split; [exact H1|];
                    first [exact (H2 eq_refl) | exact (H3 eq_refl)] ] ] ]
    end.
Qed.

Lemma activating_an_active_merchant_is_refused :
  MerchantService.activateMerchant (sampleEnv 0 "t0" mailerUp) 0
    (worldOf [sampleMerchant 0 ACTIVE])
  = (Throw (MerchantInvalidStatusException ACTIVE ACTIVE),
     worldOf [sampleMerchant 0 ACTIVE]).
Proof.
  assert (Hst : stored (worldOf [sampleMerchant 0 ACTIVE]) 0 (sampleMerchant 0 ACTIVE))
    by (vm_compute; reflexivity).
  exact (proj1 (@status_shortcuts_follow_the_table (sampleEnv 0 "t0" mailerUp)
                  _ _ _ None Hst)).
Defined.


(** ** What no session undoes *)

Section RowHas.

Variable i : MerchantId.
Variable Q : Merchant -> Prop.

Lemma rowHas_mapRow j f rows :
  (forall m, id (f m) = id m) ->
  (j = i -> forall m, Q m -> Q (f m)) ->
  rowHas i Q rows -> rowHas i Q (MerchantRepository.mapRow j f rows).
Proof.
  intros Hid Hq (m & Hf & Hm). destruct (Nat.eq_dec j i) as [->|Hne].
  - exists (f m). rewrite find_mapRow_same by exact Hid. rewrite Hf.
    split; [reflexivity|apply Hq; [reflexivity|exact Hm]].
  - exists m. rewrite find_mapRow_other by assumption. split; assumption.
Qed.

Lemma rowHas_map f rows :
  (forall m, id (f m) = id m) ->
  (forall m, Q m -> Q (f m)) ->
  rowHas i Q rows -> rowHas i Q (map f rows).
Proof.
  intros Hid Hq (m & Hf & Hm). exists (f m). split; [|apply Hq; exact Hm].
  clear Hm. revert Hf. induction rows as [|r rows IH]; simpl; [discriminate|].
  unfold MerchantRepository.hasId in *. rewrite Hid.
  destruct (Nat.eqb (id r) i); [intros [= ->]; reflexivity|exact IH].
Qed.

Lemma rowHas_app rows more : rowHas i Q rows -> rowHas i Q (rows ++ more).
Proof.
  intros (m & Hf & Hm). exists m. split; [apply find_app_l; exact Hf|exact Hm].
Qed.

(** What follows a lookup of the row [j] runs knowing that, when [j] is
    [i], the row that was read has [Q]. *)
Lemma rowHas_after_lookup {A} j (k : Merchant -> M A) :
  (forall m, (j = i -> Q m) -> preserves (rowHas i Q) (k m)) ->
  preserves (rowHas i Q) (bind (MerchantService.getMerchantById j) k).
Proof.
  intros Hk w HP. unfold bind.
  destruct (find (MerchantRepository.hasId j) (merchants w)) as [m|] eqn:Hf.
  - rewrite (@getMerchantById_stored w j m Hf). apply Hk; [|exact HP].
    intros ->. destruct HP as (m0 & Hf0 & Hm0). rewrite Hf in Hf0.
    injection Hf0 as ->. exact Hm0.
  - rewrite (getMerchantById_missing w j Hf). exact HP.
Qed.

End RowHas.

Lemma distinctEmails_map f rows :
  (forall m, email (f m) = email m) ->
  distinctEmails rows -> distinctEmails (map f rows).
Proof.
  intros He H. unfold distinctEmails in *. rewrite map_map.
  rewrite (map_ext _ (fun m => toLowerCase (email m))); [exact H|].
  intros m. rewrite He. reflexivity.
Qed.

Lemma distinctEmails_mapRow j f rows :
  (forall m, email (f m) = email m) ->
  distinctEmails rows -> distinctEmails (MerchantRepository.mapRow j f rows).
Proof.
  intros He H. unfold MerchantRepository.mapRow. apply distinctEmails_map; [|exact H].
  intros m. destruct (MerchantRepository.hasId j m); [apply He|reflexivity].
Qed.

Lemma Forall_mapRow (Q : Merchant -> Prop) j f rows :
  (forall m, Q m -> Q (f m)) ->
  Forall Q rows -> Forall Q (MerchantRepository.mapRow j f rows).
Proof.
  intros Hq H. unfold MerchantRepository.mapRow. apply Forall_map.
  apply (Forall_impl _ (P := Q)); [|exact H].
  intros m Hm. destruct (MerchantRepository.hasId j m); [apply Hq|]; exact Hm.
Qed.

Lemma Forall_map_rows (Q : Merchant -> Prop) f rows :
  (forall m, Q m -> Q (f m)) -> Forall Q rows -> Forall Q (map f rows).
Proof.
  intros Hq H. apply Forall_map. apply (Forall_impl _ (P := Q)); [|exact H].
  exact Hq.
Qed.

Lemma Forall_new_row (Q : Merchant -> Prop) rows m :
  Q m -> Forall Q rows -> Forall Q (rows ++ [m]).
Proof. intros Hm H. apply Forall_app. split; [exact H|]. constructor; [exact Hm|constructor]. Qed.

(** One step through the body of a method; [upd] settles what an
    assignment does to the property at hand, of one row ([rowHas]) or of
    every row ([Forall]). *)
Ltac walk upd :=
  lazymatch goal with
  | |- preserves (rowHas _ _) (bind (MerchantService.getMerchantById _) _) =>
    apply rowHas_after_lookup; let m := fresh "merchant" in
                               let H := fresh "Hread" in intros m H
  | |- preserves _ (MerchantService.getMerchantById _) =>
    unfold MerchantService.getMerchantById
  | |- preserves _ (bind _ _) => apply preserves_bind; [|intro]
  | |- preserves _ (ret _) => apply preserves_ret
  | |- preserves _ (throw _) => apply preserves_throw
  | |- preserves _ (tryCatch _ _) => apply preserves_tryCatch; [|intro]
  | |- preserves _ (deliver _ _) => apply preserves_deliver
  | |- preserves _ (logger_error _ _) => apply preserves_logger_error
  | |- preserves _ getRows => apply preserves_getRows
  | |- preserves _ (MerchantRepository.findById _) => apply preserves_findById
  | |- preserves _ (MerchantService.forEach _ _) => apply preserves_forEach; intro
  | |- preserves _ (MerchantRepository.update _ (_ :: match ?x with _ => _ end)) =>
    destruct x eqn:?
  | |- preserves _ (MerchantRepository.update _ _) =>
    apply preserves_update;
    let rows := fresh "rows" in
    let H := fresh "Hrows" in
    intros rows H;
    first [ apply rowHas_mapRow; [keeps_id|upd|exact H]
          | apply Forall_mapRow; [upd|exact H]
          | apply distinctEmails_mapRow; [upd|exact H] ]
  | |- preserves _ (MerchantRepository.create _) =>
    apply preserves_create;
    let rows := fresh "rows" in
    let n := fresh "n" in
    let H := fresh "Hrows" in
    intros rows n H;
    first [ apply rowHas_app; exact H
          | apply Forall_new_row; [upd|exact H] ]
  | |- preserves _ (MerchantRepository.incrementApiQuota _) =>
    unfold MerchantRepository.incrementApiQuota; apply preserves_rewrite;
    let rows := fresh "rows" in
    let H := fresh "Hrows" in
    intros rows H;
    first [ apply rowHas_mapRow; [keeps_id|upd|exact H]
          | apply Forall_mapRow; [upd|exact H]
          | apply distinctEmails_mapRow; [upd|exact H] ]
  | |- preserves _ MerchantRepository.resetApiQuotas =>
    unfold MerchantRepository.resetApiQuotas; apply preserves_rewrite;
    let rows := fresh "rows" in
    let H := fresh "Hrows" in
    intros rows H;
    first [ apply rowHas_map; [keeps_id|upd|exact H]
          | apply Forall_map_rows; [upd|exact H]
          | apply distinctEmails_map; [upd|exact H] ]
  | |- preserves _ (if ?b then _ else _) => destruct b eqn:?
  | |- preserves _ (match ?x with _ => _ end) => destruct x eqn:?
  end.

Ltac open_method :=
  unfold MerchantService.registerMerchant, MerchantService.verifyEmail,
    MerchantService.resendVerificationEmail, MerchantService.submitKycDocuments,
    MerchantService.verifyKyc, MerchantService.updateBankAccount,
    MerchantService.verifyBankAccount, MerchantService.updateCurrencySettings,
    MerchantService.activateMerchant, MerchantService.suspendMerchant,
    MerchantService.closeMerchantAccount,
    MerchantService.changeMerchantStatus, MerchantService.updateApiQuota,
    MerchantService.checkAndIncrementApiQuota, MerchantService.resetApiQuotas,
    MerchantService.cleanupExpiredTokens, MerchantService.updateBusinessDetails,
    MerchantService.updateAddress, MerchantService.updateNotificationPreferences,
    MerchantService.validateMerchantActive,
    MerchantService.validateBankAccountDetails,
    MerchantService.validateBusinessRegistrationNumber,
    MerchantService.validateTaxId,
    MerchantRepository.findByEmail, MerchantRepository.findByVerificationToken,
    MerchantRepository.findExpiredVerificationTokens,
    MerchantRepository.updateKycStatus, MerchantRepository.updateStatus,
    MerchantRepository.updateBankAccountStatus;
  cbv zeta;
  cbn [ChangeMerchantStatusDto.status ChangeMerchantStatusDto.reason].

(** An assignment that leaves the property alone, or establishes it. *)
Ltac kept :=
  let m := fresh "m" in
  let H := fresh "H" in
  intros; first [assumption | reflexivity | split; first [assumption|reflexivity]].

(** Reads the goal as [preserves P c] for the method [c] that is run. *)
Ltac as_preserves :=
  let w := fresh "w" in
  intros w;
  match goal with
  | |- ?P (merchants w) -> _ (merchants (snd (?c w))) =>
    revert w; change (preserves P c)
  end.

Lemma session_keeps (P : list Merchant -> Prop) :
  (forall env r w, P (merchants w) -> P (merchants (serve env r w))) ->
  forall requests w, P (merchants w) -> P (merchants (session requests w)).
Proof.
  intros Hstep requests. induction requests as [|[env r] requests IH]; intros w H;
    [exact H|].
  cbn [session fold_left fst snd]. apply IH. apply Hstep. exact H.
Qed.

Lemma serve_keeps_verified i env r w :
  rowHas i (fun m => emailVerified m = true) (merchants w) ->
  rowHas i (fun m => emailVerified m = true) (merchants (serve env r w)).
Proof.
  revert w. destruct r as [[]| | | | | |]; cbn [serve perform]; as_preserves;
    open_method; repeat walk ltac:(kept).
Qed.


(** The lookup that went before shows the assignment at hand is not
    reached for the row in question. *)
Ltac unreached :=
  let E := fresh "E" in
  intros E ? ?; exfalso; unfold closedSince, approvedSince in *;
  match goal with
  | Hr : _ = _ -> _ /\ _ |- _ =>
    let Hs := fresh "Hs" in
    destruct (Hr E) as [Hs _]; rewrite Hs in *
  end;
  cbn in *; rewrite ?andb_false_r in *; discriminate.

Lemma serve_keeps_closed i closed reason env r w :
  rowHas i (closedSince closed reason) (merchants w) ->
  rowHas i (closedSince closed reason) (merchants (serve env r w)).
Proof.
  revert w. destruct r as [[]| | | | | |]; cbn [serve perform]; as_preserves;
    open_method; repeat walk ltac:(first [kept | unreached]).
Qed.

Lemma serve_keeps_approved i verified env r w :
  rowHas i (approvedSince verified) (merchants w) ->
  rowHas i (approvedSince verified) (merchants (serve env r w)).
Proof.
  revert w. destruct r as [[]| | | | | |]; cbn [serve perform]; as_preserves;
    open_method; repeat walk ltac:(first [kept | unreached]).
Qed.


(** X14.  Once an account is CLOSED it stays CLOSED, with the closing time and
    reason it has, through every sequence of calls of the service: no
    method reopens it, neither the status change and its shortcuts nor the
    KYC approval that activates a pending merchant. *)
Theorem closed_account_stays_closed :
  forall requests w i merchant,
    stored w i merchant ->
    status merchant = CLOSED ->
    exists m',
      stored (session requests w) i m'
      /\ status m' = CLOSED
      /\ closedAt m' = closedAt merchant
      /\ closedReason m' = closedReason merchant.
Proof.
  intros requests w i merchant Hst Hs.
  destruct (@session_keeps
              (rowHas i (closedSince (closedAt merchant) (closedReason merchant)))
              (fun env r w0 => @serve_keeps_closed i _ _ env r w0) requests w)
    as (m' & Hf & H1 & H2 & H3).
  - exists merchant. split; [exact Hst|]. repeat split. exact Hs.
  - exists m'. repeat split; assumption.
Qed.

Lemma closed_account_survives_activation_and_approval :
  exists m',
    stored (session [(sampleEnv 5 "t5" mailerUp, RequestActivateMerchant 0);
                     (sampleEnv 6 "t6" mailerUp, ServiceCall (CallVerifyKyc 0 approval))]
              (worldOf [closedWithPendingKyc 0])) 0 m'
    /\ status m' = CLOSED.
Proof.
  assert (Hst : stored (worldOf [closedWithPendingKyc 0]) 0 (closedWithPendingKyc 0))
    by (vm_compute; reflexivity).
  destruct (@closed_account_stays_closed
              [(sampleEnv 5 "t5" mailerUp, RequestActivateMerchant 0);
               (sampleEnv 6 "t6" mailerUp, ServiceCall (CallVerifyKyc 0 approval))]
              _ _ _ Hst eq_refl) as (m' & H1 & H2 & _).
  exists m'. split; assumption.
Defined.

(** X15.  A verified e-mail address stays verified through every sequence of
    calls of the service: nothing sets emailVerified back to false. *)
Theorem verified_email_stays_verified :
  forall requests w i merchant,
    stored w i merchant ->
    emailVerified merchant = true ->
    exists m', stored (session requests w) i m' /\ emailVerified m' = true.
Proof.
  intros requests w i merchant Hst Hv.
  apply (@session_keeps (rowHas i (fun m => emailVerified m = true))
           (fun env r w0 => @serve_keeps_verified i env r w0) requests w).
  exists merchant. split; assumption.
Qed.

Lemma verified_email_survives_resend :
  exists m',
    stored (session [(sampleEnv 5 "t5" mailerUp,
                      ServiceCall (CallResendVerificationEmail "jane@x.com"));
                     (sampleEnv 6 "t6" mailerUp, ServiceCall CallCleanupExpiredTokens)]
              (worldOf [kycPendingMerchant 0 true])) 0 m'
    /\ emailVerified m' = true.
Proof.
  assert (Hst : stored (worldOf [kycPendingMerchant 0 true]) 0 (kycPendingMerchant 0 true))
    by (vm_compute; reflexivity).
  exact (@verified_email_stays_verified
           [(sampleEnv 5 "t5" mailerUp,
             ServiceCall (CallResendVerificationEmail "jane@x.com"));
            (sampleEnv 6 "t6" mailerUp, ServiceCall CallCleanupExpiredTokens)]
           _ _ _ Hst eq_refl).
Defined.

(** X16.  An approved KYC stays approved, with its approval time, through every
    sequence of calls of the service: a later decision and a new submission
    are refused, and no method moves APPROVED on to EXPIRED, the one
    successor the transition table gives it. *)
Theorem approved_kyc_stays_approved :
  forall requests w i merchant,
    stored w i merchant ->
    kycStatus merchant = KYC_APPROVED ->
    exists m',
      stored (session requests w) i m'
      /\ kycStatus m' = KYC_APPROVED
      /\ kycVerifiedAt m' = kycVerifiedAt merchant.
Proof.
  intros requests w i merchant Hst Hk.
  destruct (@session_keeps (rowHas i (approvedSince (kycVerifiedAt merchant)))
              (fun env r w0 => @serve_keeps_approved i _ env r w0) requests w)
    as (m' & Hf & H1 & H2).
  - exists merchant. split; [exact Hst|]. split; [exact Hk|reflexivity].
  - exists m'. repeat split; assumption.
Qed.

Lemma approved_kyc_survives_rejection :
  exists m',
    stored (session [(sampleEnv 5 "t5" mailerUp, ServiceCall (CallVerifyKyc 0 rejection))]
              (worldOf [approvedMerchant 0 3])) 0 m'
    /\ kycStatus m' = KYC_APPROVED.
Proof.
  assert (Hst : stored (worldOf [approvedMerchant 0 3]) 0 (approvedMerchant 0 3))
    by (vm_compute; reflexivity).
  destruct (@approved_kyc_stays_approved
              [(sampleEnv 5 "t5" mailerUp, ServiceCall (CallVerifyKyc 0 rejection))]
              _ _ _ Hst eq_refl) as (m' & H1 & H2 & _).
  exists m'. split; assumption.
Defined.


Lemma serve_keeps_defaultSupported env r w :
  Forall defaultSupported (merchants w) ->
  Forall defaultSupported (merchants (serve env r w)).
Proof.
  revert w. destruct r as [[]| | | | | |]; cbn [serve perform]; as_preserves;
    open_method;
    repeat walk
      ltac:(first
              [ kept
              | cbv; left; reflexivity
              | intros ? _; unfold defaultSupported; cbn;
                match goal with
                | |- context [includes String.eqb ?l ?d] =>
                  let E := fresh "E" in
                  destruct (includes String.eqb l d) eqn:E; cbn;
                  [ apply includes_In_string; exact E
                  | apply in_or_app; right; left; reflexivity ]
                end ]).
Qed.

Lemma serve_keeps_kycWritten env r w :
  Forall kycWritten (merchants w) -> Forall kycWritten (merchants (serve env r w)).
Proof.
  revert w. destruct r as [[]| | | | | |]; cbn [serve perform]; as_preserves;
    open_method;
    repeat walk ltac:(first [kept | intros; cbv; split; discriminate]).
Qed.


(** X17.  Every merchant's default currency is among its supported currencies in
    every state the service reaches from a state where that holds, the
    empty store among them: registration stores USD with the list [USD],
    the currency settings repair the list they store, and no other method
    writes either column. *)
Theorem default_currency_is_always_supported :
  forall requests w,
    Forall defaultSupported (merchants w) ->
    Forall defaultSupported (merchants (session requests w)).
Proof.
  intros requests w. apply (@session_keeps (Forall defaultSupported)).
  intros env r w0. apply serve_keeps_defaultSupported.
Qed.

Lemma default_currency_after_registration_and_settings :
  Forall defaultSupported
    (merchants
       (session [(sampleEnv 5 "t5" mailerUp, ServiceCall (CallRegisterMerchant jane));
                 (sampleEnv 6 "t6" mailerUp,
                  ServiceCall (CallUpdateCurrencySettings 0 euroSettings))]
          emptyWorld)).
Proof.
  apply default_currency_is_always_supported. constructor.
Defined.

Lemma submitKycDocuments_not_in_review env i dto w :
  Forall kycWritten (merchants w) ->
  fst (MerchantService.submitKycDocuments env i dto w)
  <> Throw KycAlreadySubmittedException.
Proof.
  intros Hall. unfold MerchantService.submitKycDocuments, bind.
  destruct (find (MerchantRepository.hasId i) (merchants w)) as [m|] eqn:Hf.
  - rewrite (@getMerchantById_stored w i m Hf).
    assert (Hk : KycStatus_eqb (kycStatus m) KYC_IN_REVIEW = false).
    { apply find_some in Hf. destruct Hf as [Hin _].
      rewrite Forall_forall in Hall. destruct (Hall m Hin) as [Hne _].
      destruct (kycStatus m); try reflexivity. congruence. }
    rewrite Hk. cbv zeta.
    destruct (negb (emailVerified m)); [discriminate|].
    destruct (KycStatus_eqb (kycStatus m) KYC_APPROVED); [discriminate|].
    destruct (0 <? length _)%nat; [discriminate|].
    unfold MerchantRepository.updateKycStatus.
    match goal with
    | |- context [MerchantRepository.update i ?data w] =>
      rewrite (@update_stored w i m data ltac:(keeps_id) Hf)
    end.
    match goal with
    | |- context [tryCatch (deliver env ?e) (logger_error ?msg) ?w1] =>
      destruct (bestEffort_deliver env e msg w1) as (w2 & -> & _)
    end.
    discriminate.
  - rewrite (getMerchantById_missing w i Hf). discriminate.
Qed.

(** X18.  The KYC states IN_REVIEW and EXPIRED are never entered: in every state
    the service reaches from a state without them, the empty store among
    them, no merchant is in either.  So the refusal
    [KycAlreadySubmittedException] of [submitKycDocuments] is never given
    there. *)
Theorem kyc_is_never_in_review_or_expired :
  forall requests w,
    Forall kycWritten (merchants w) ->
    Forall kycWritten (merchants (session requests w))
    /\ (forall env i dto,
           fst (MerchantService.submitKycDocuments env i dto (session requests w))
           <> Throw KycAlreadySubmittedException).
Proof.
  intros requests w H.
  assert (H' : Forall kycWritten (merchants (session requests w))).
  { revert H. apply (@session_keeps (Forall kycWritten)).
    intros env r w0. apply serve_keeps_kycWritten. }
  split; [exact H'|]. intros env i dto.
  apply submitKycDocuments_not_in_review. exact H'.
Qed.

Lemma kyc_states_after_registration :
  Forall kycWritten
    (merchants
       (session [(sampleEnv 5 "t5" mailerUp, ServiceCall (CallRegisterMerchant jane));
                 (sampleEnv 6 "t6" mailerUp, ServiceCall (CallVerifyEmail "t5"))]
          emptyWorld)).
Proof.
  apply (@kyc_is_never_in_review_or_expired
           [(sampleEnv 5 "t5" mailerUp, ServiceCall (CallRegisterMerchant jane));
            (sampleEnv 6 "t6" mailerUp, ServiceCall (CallVerifyEmail "t5"))]
           emptyWorld).
  constructor.
Defined.


(** ** A bank account from filing to verification *)

Lemma verifyBankAccount_not_on_file env w i m :
  stored w i m ->
  truthy (bankAccountNumber m) && truthy (bankRoutingNumber m) = false ->
  MerchantService.verifyBankAccount env i w = (Throw BankAccountNotFoundException, w).
Proof.
  intros Hst Hf. unfold MerchantService.verifyBankAccount, bind.
  rewrite (getMerchantById_stored Hst), <- negb_andb, Hf. reflexivity.
Qed.

Lemma verifyBankAccount_already env w i m :
  stored w i m ->
  truthy (bankAccountNumber m) && truthy (bankRoutingNumber m) = true ->
  bankAccountStatus m = BANK_VERIFIED ->
  MerchantService.verifyBankAccount env i w
  = (Throw BankAccountAlreadyVerifiedException, w).
Proof.
  intros Hst Hf Hv. unfold MerchantService.verifyBankAccount, bind.
  rewrite (getMerchantById_stored Hst), <- negb_andb, Hf, Hv. reflexivity.
Qed.

Lemma verifyBankAccount_accepted env w i m :
  stored w i m ->
  truthy (bankAccountNumber m) && truthy (bankRoutingNumber m) = true ->
  bankAccountStatus m <> BANK_VERIFIED ->
  success (providerAnswer env m) = true ->
  exists w',
    MerchantService.verifyBankAccount env i w
    = (Return (Some (assignAll [set_bankAccountStatus BANK_VERIFIED;
                                set_bankVerifiedAt (Some (now env))] m)), w')
    /\ stored w' i (assignAll [set_bankAccountStatus BANK_VERIFIED;
                               set_bankVerifiedAt (Some (now env))] m).
Proof.
  intros Hst Hf Hnv Hok. unfold MerchantService.verifyBankAccount, bind.
  rewrite (getMerchantById_stored Hst), <- negb_andb, Hf. cbv zeta.
  fold (providerAnswer env m). rewrite Hok. cbn [negb].
  replace (BankAccountStatus_eqb (bankAccountStatus m) BANK_VERIFIED) with false
    by (destruct (bankAccountStatus m); try reflexivity; congruence).
  unfold MerchantRepository.updateBankAccountStatus.
  rewrite (@update_stored w i m
             [set_bankAccountStatus BANK_VERIFIED; set_bankVerifiedAt (Some (now env))]
             ltac:(keeps_id) Hst).
  set (w1 := setRows _ w).
  destruct (bestEffort_deliver env
              (sendBankAccountVerifiedEmail (email m) (name m))
              ("Failed to send bank verified email to " ++ email m) w1)
    as (w2 & -> & Hsame).
  exists w2. split; [reflexivity|].
  apply (sameRows_stored Hsame).
  apply (stored_after_mapRow
           (assignAll [set_bankAccountStatus BANK_VERIFIED;
                       set_bankVerifiedAt (Some (now env))]));
    [keeps_id|exact Hst].
Qed.

Lemma accountNumberOk_nonempty s : accountNumberOk s = true -> truthy (Some s) = true.
Proof.
  destruct s; [|reflexivity]. unfold accountNumberOk. simpl. discriminate.
Qed.

(** X19.  A bank account that passes the checks of [updateBankAccount] is stored
    with the status PENDING, whatever the status was, a verified one
    included, and the time of an earlier verification stays in place.  If
    the routing number of the request is empty the account can then not be
    verified: [verifyBankAccount] throws [BankAccountNotFoundException].
    Otherwise, when the provider accepts the three details of the request,
    the account becomes VERIFIED at the time of the call, and a second
    verification throws [BankAccountAlreadyVerifiedException]. *)
Theorem bank_account_from_update_to_verification :
  forall env env' w i merchant dto,
    stored w i merchant ->
    status merchant <> SUSPENDED -> status merchant <> CLOSED ->
    bankDetailsOk dto ->
    exists m1 w1,
      MerchantService.updateBankAccount i dto w = (Return (Some m1), w1)
      /\ stored w1 i m1
      /\ bankAccountStatus m1 = BANK_PENDING
      /\ bankVerifiedAt m1 = bankVerifiedAt merchant
      /\ (BankAccountDto.routingNumber dto = "" ->
          MerchantService.verifyBankAccount env i w1
          = (Throw BankAccountNotFoundException, w1))
      /\ (BankAccountDto.routingNumber dto <> "" ->
          success (bankVerificationService env
                     (BankAccountDto.accountNumber dto)
                     (BankAccountDto.routingNumber dto)
                     (BankAccountDto.accountHolderName dto)) = true ->
          exists m2 w2,
            MerchantService.verifyBankAccount env i w1 = (Return (Some m2), w2)
            /\ stored w2 i m2
            /\ bankAccountStatus m2 = BANK_VERIFIED
            /\ bankVerifiedAt m2 = Some (now env)
            /\ bankAccountNumber m2 = Some (BankAccountDto.accountNumber dto)
            /\ MerchantService.verifyBankAccount env' i w2
               = (Throw BankAccountAlreadyVerifiedException, w2)).
Proof.
  intros env env' w i merchant dto Hst Hs Hc Hok.
  destruct (validateBankAccountDetails_cases dto w) as [[_ Hv]|[Hno _]];
    [|contradiction].
  unfold MerchantService.updateBankAccount, bind.
  rewrite (getMerchantById_stored Hst), (validateMerchantActive_ok _ _ Hs Hc), Hv.
  match goal with
  | |- context [MerchantRepository.update i ?data w] =>
    rewrite (@update_stored w i merchant data ltac:(keeps_id) Hst);
      pose (m1 := assignAll data merchant);
      assert (Hst1 : stored (setRows (MerchantRepository.mapRow i (assignAll data)
                                        (merchants w)) w) i m1)
        by (apply (stored_after_mapRow (assignAll data)); [keeps_id|exact Hst])
  end.
  set (w1 := setRows _ w) in *.
  exists m1, w1. split; [reflexivity|]. split; [exact Hst1|].
  split; [reflexivity|]. split; [reflexivity|].
  assert (Hacc : truthy (bankAccountNumber m1) = true).
  { destruct Hok as [Ha _]. exact (accountNumberOk_nonempty _ Ha). }
  split.
  - intros Hr. apply (verifyBankAccount_not_on_file env Hst1).
    rewrite Hacc. change (bankRoutingNumber m1)
      with (Some (BankAccountDto.routingNumber dto)).
    rewrite Hr. reflexivity.
  - intros Hr Hyes.
    assert (Hfile : truthy (bankAccountNumber m1) && truthy (bankRoutingNumber m1) = true).
    { rewrite Hacc. change (bankRoutingNumber m1)
        with (Some (BankAccountDto.routingNumber dto)).
      rewrite truthy_nonempty by exact Hr. reflexivity. }
    assert (Hans : success (providerAnswer env m1) = true).
    { unfold providerAnswer.
      change (bankAccountNumber m1) with (Some (BankAccountDto.accountNumber dto)).
      change (bankRoutingNumber m1) with (Some (BankAccountDto.routingNumber dto)).
      change (bankAccountHolderName m1)
        with (Some (BankAccountDto.accountHolderName dto)).
      unfold MerchantService.orDefault.
      rewrite (accountNumberOk_nonempty _ (proj1 Hok)).
      rewrite truthy_nonempty by exact Hr.
      destruct (BankAccountDto.accountHolderName dto) eqn:Eh; exact Hyes. }
    destruct (@verifyBankAccount_accepted env w1 i m1 Hst1 Hfile
                ltac:(discriminate) Hans) as (w2 & Hrun & Hst2).
    eexists _, w2. split; [exact Hrun|]. split; [exact Hst2|].
    split; [reflexivity|]. split; [reflexivity|]. split; [reflexivity|].
    apply (verifyBankAccount_already env' Hst2); [exact Hfile|reflexivity].
Qed.

Lemma bank_account_without_routing_number_cannot_be_verified :
  exists m1 w1,
    MerchantService.updateBankAccount 0 (bankDto "1234567890" "")
      (worldOf [sampleMerchant 0 ACTIVE]) = (Return (Some m1), w1)
    /\ MerchantService.verifyBankAccount (sampleEnv 5 "t5" mailerUp) 0 w1
       = (Throw BankAccountNotFoundException, w1).
Proof.
  assert (Hst : stored (worldOf [sampleMerchant 0 ACTIVE]) 0 (sampleMerchant 0 ACTIVE))
    by (vm_compute; reflexivity).
  assert (Hok : bankDetailsOk (bankDto "1234567890" "")).
  { split; [reflexivity|]. split; [intros (v & [= <-] & Hv); congruence|].
    split; intros s E; discriminate E. }
  destruct (@bank_account_from_update_to_verification
              (sampleEnv 5 "t5" mailerUp) (sampleEnv 6 "t6" mailerUp)
              _ _ _ (bankDto "1234567890" "") Hst
              ltac:(discriminate) ltac:(discriminate) Hok)
    as (m1 & w1 & Hr & _ & _ & _ & Hnone & _).
  exists m1, w1. split; [exact Hr|]. apply Hnone. reflexivity.
Defined.


(** ** The quota, call by call *)

Lemma quota_after_repeated_calls i n : forall w m,
  stored w i m ->
  exists m',
    stored (afterQuotaCalls (repeat i n) w) i m'
    /\ apiQuotaUsed m' = apiQuotaUsed m + Z.of_nat (Nat.min n (remainingCalls m))
    /\ apiQuotaLimit m' = apiQuotaLimit m
    /\ apiQuotaResetAt m' = apiQuotaResetAt m.
Proof.
  induction n as [|n IH]; intros w m Hst.
  - exists m. split; [exact Hst|]. cbn [Nat.min Z.of_nat]. repeat split. lia.
  - cbn [repeat afterQuotaCalls fold_left].
    fold (afterQuotaCalls (repeat i n)
            (snd (MerchantService.checkAndIncrementApiQuota i w))).
    destruct (Z_lt_le_dec (apiQuotaUsed m) (apiQuotaLimit m)) as [Hlt|Hge].
    + rewrite (checkAndIncrement_admitted Hst Hlt). cbn [snd].
      assert (Hst1 : stored (setRows (MerchantRepository.mapRow i
                                        (fun r => set_apiQuotaUsed (apiQuotaUsed r + 1) r)
                                        (merchants w)) w) i
                       (set_apiQuotaUsed (apiQuotaUsed m + 1) m)).
      { apply (stored_after_mapRow (fun r => set_apiQuotaUsed (apiQuotaUsed r + 1) r));
          [keeps_id|exact Hst]. }
      destruct (IH _ _ Hst1) as (m' & Hst' & Hu & Hl & Hr).
      exists m'. split; [exact Hst'|]. split; [|split; [exact Hl|exact Hr]].
      rewrite Hu. unfold remainingCalls.
      change (apiQuotaUsed (set_apiQuotaUsed (apiQuotaUsed m + 1) m))
        with (apiQuotaUsed m + 1).
      change (apiQuotaLimit (set_apiQuotaUsed (apiQuotaUsed m + 1) m))
        with (apiQuotaLimit m).
      lia.
    + rewrite (checkAndIncrement_exceeded Hst Hge). cbn [snd].
      destruct (IH _ _ Hst) as (m' & Hst' & Hu & Hl & Hr).
      exists m'. split; [exact Hst'|]. split; [|split; [exact Hl|exact Hr]].
      rewrite Hu. unfold remainingCalls. lia.
Qed.

(** X20.  Counting from a merchant with [used] calls of [limit], the quota check
    lets exactly limit - used calls through, each adding one to the
    counter, and refuses every later one with [ApiQuotaExceededException],
    which carries the limit and the reset time and changes nothing.  When
    the counter is at or over the limit already, no call gets through. *)
Theorem quota_admits_exactly_the_remaining_calls :
  forall w i m n,
    stored w i m ->
    let w' := afterQuotaCalls (repeat i n) w in
    (exists m',
        stored w' i m'
        /\ apiQuotaUsed m' = apiQuotaUsed m + Z.of_nat (Nat.min n (remainingCalls m))
        /\ apiQuotaLimit m' = apiQuotaLimit m)
    /\ ((n < remainingCalls m)%nat ->
        exists w'', MerchantService.checkAndIncrementApiQuota i w' = (Return tt, w''))
    /\ ((remainingCalls m <= n)%nat ->
        MerchantService.checkAndIncrementApiQuota i w'
        = (Throw (ApiQuotaExceededException (apiQuotaLimit m) (apiQuotaResetAt m)), w')).
Proof.
  intros w i m n Hst w'. subst w'.
  destruct (@quota_after_repeated_calls i n w m Hst) as (m' & Hst' & Hu & Hl & Hr).
  split; [exists m'; repeat split; assumption|]. split.
  - intros Hn. eexists. apply (checkAndIncrement_admitted Hst').
    rewrite Hu, Hl. unfold remainingCalls in *. lia.
  - intros Hn. rewrite <- Hl, <- Hr. apply (checkAndIncrement_exceeded Hst').
    rewrite Hu, Hl. unfold remainingCalls in *. lia.
Qed.

Lemma quota_third_call_refused :
  MerchantService.checkAndIncrementApiQuota 0
    (afterQuotaCalls (repeat 0%nat 2) (worldOf [quotaMerchant 0 998 1000]))
  = (Throw (ApiQuotaExceededException 1000 None),
     afterQuotaCalls (repeat 0%nat 2) (worldOf [quotaMerchant 0 998 1000])).
Proof.
  assert (Hst : stored (worldOf [quotaMerchant 0 998 1000]) 0 (quotaMerchant 0 998 1000))
    by (vm_compute; reflexivity).
  apply (proj2 (proj2 (@quota_admits_exactly_the_remaining_calls _ _ _ 2%nat Hst))).
  apply Nat.le_refl.
Defined.


(** ** The hourly clean-up *)

Lemma update_run i data w :
  MerchantRepository.update i data w
  = (Return (find (MerchantRepository.hasId i)
               (MerchantRepository.mapRow i (assignAll data) (merchants w))),
     setRows (MerchantRepository.mapRow i (assignAll data) (merchants w)) w).
Proof. reflexivity. Qed.

Lemma setRows_same w : setRows (merchants w) w = w.
Proof. destruct w; reflexivity. Qed.

Lemma forEach_updates data l : forall w,
  MerchantService.forEach l
    (fun merchant => MerchantRepository.update (id merchant) data ;; ret tt) w
  = (Return tt,
     setRows (fold_left (fun rows m => MerchantRepository.mapRow (id m) (assignAll data) rows)
                l (merchants w)) w).
Proof.
  induction l as [|x l IH]; intros w.
  - cbn [MerchantService.forEach fold_left]. rewrite setRows_same. reflexivity.
  - cbn [MerchantService.forEach fold_left]. unfold bind at 1 2.
    rewrite update_run. unfold ret at 1. rewrite IH. reflexivity.
Qed.

Lemma fold_mapRow (f : Merchant -> Merchant) l :
  (forall m, id (f m) = id m) -> (forall m, f (f m) = f m) ->
  forall rows,
    fold_left (fun rows m => MerchantRepository.mapRow (id m) f rows) l rows
    = map (fun r => if existsb (fun m => Nat.eqb (id m) (id r)) l then f r else r) rows.
Proof.
  intros Hid Hff. induction l as [|x l IH]; intros rows.
  - cbn [fold_left existsb]. symmetry. apply map_id.
  - cbn [fold_left existsb]. rewrite IH. unfold MerchantRepository.mapRow.
    rewrite map_map. apply map_ext. intros r. unfold MerchantRepository.hasId.
    rewrite (Nat.eqb_sym (id x) (id r)).
    destruct (Nat.eqb (id r) (id x)); cbn [orb]; [|reflexivity].
    destruct (existsb _ l); [apply Hff|reflexivity].
Qed.

Lemma unique_id_same_row (rows : list Merchant) a b :
  NoDup (map id rows) -> In a rows -> In b rows -> id a = id b -> a = b.
Proof.
  induction rows as [|r rows IH]; intros Hnd Ha Hb E; [contradiction|].
  cbn [map] in Hnd. inversion Hnd as [|? ? Hnot Hrest]; subst.
  destruct Ha as [->|Ha], Hb as [->|Hb].
  - reflexivity.
  - exfalso. apply Hnot. rewrite E. apply in_map. exact Hb.
  - exfalso. apply Hnot. rewrite <- E. apply in_map. exact Ha.
  - apply IH; assumption.
Qed.

Lemma expired_by_id env rows r :
  NoDup (map id rows) -> In r rows ->
  existsb (fun m => Nat.eqb (id m) (id r))
          (filter (MerchantRepository.tokenExpired env) rows)
  = MerchantRepository.tokenExpired env r.
Proof.
  intros Hnd Hin.
  destruct (MerchantRepository.tokenExpired env r) eqn:E.
  - apply existsb_exists. exists r. split; [|apply Nat.eqb_refl].
    apply filter_In. split; assumption.
  - destruct (existsb _ _) eqn:Ex; [|reflexivity].
    apply existsb_exists in Ex. destruct Ex as (m & Hm & Eid).
    apply filter_In in Hm. destruct Hm as [Hm Hexp].
    apply Nat.eqb_eq in Eid.
    rewrite (@unique_id_same_row rows m r Hnd Hm Hin Eid) in Hexp. congruence.
Qed.

Lemma clearToken_not_expired env m :
  MerchantRepository.tokenExpired env (clearToken m) = false.
Proof. reflexivity. Qed.

Lemma filter_map_none {A} (p : A -> bool) (g : A -> A) l :
  (forall x, p (g x) = false) -> filter p (map g l) = [].
Proof.
  intros H. induction l as [|x l IH]; simpl; [reflexivity|]. rewrite H. exact IH.
Qed.

(** X21.  With unique primary keys, [cleanupExpiredTokens] empties the token and
    its expiry time on exactly the rows whose token has expired without
    being used, and leaves every other row, and every other column, as it
    was.  Afterwards no expired token is left, and a second run right after
    changes nothing. *)
Theorem cleanupExpiredTokens_clears_exactly_the_expired :
  forall env w,
    uniqueIds w ->
    exists w',
      MerchantService.cleanupExpiredTokens env w = (Return tt, w')
      /\ merchants w'
         = map (fun m => if MerchantRepository.tokenExpired env m
                         then clearToken m else m) (merchants w)
      /\ nextId w' = nextId w /\ mailed w w' []
      /\ MerchantRepository.findExpiredVerificationTokens env w' = (Return [], w')
      /\ MerchantService.cleanupExpiredTokens env w' = (Return tt, w').
Proof.
  intros env w Hnd.
  assert (Hrun : forall w0,
             MerchantService.cleanupExpiredTokens env w0
             = (Return tt,
                setRows
                  (fold_left
                     (fun rows m => MerchantRepository.mapRow (id m) clearToken rows)
                     (filter (MerchantRepository.tokenExpired env) (merchants w0))
                     (merchants w0)) w0)).
  { intros w0. unfold MerchantService.cleanupExpiredTokens,
      MerchantRepository.findExpiredVerificationTokens.
    unfold bind at 1 2. unfold getRows at 1. unfold ret at 1.
    apply forEach_updates. }
  set (rows' := map (fun m => if MerchantRepository.tokenExpired env m
                              then clearToken m else m) (merchants w)).
  assert (Hrows : fold_left
                    (fun rows m => MerchantRepository.mapRow (id m) clearToken rows)
                    (filter (MerchantRepository.tokenExpired env) (merchants w))
                    (merchants w) = rows').
  { rewrite fold_mapRow; [|keeps_id|reflexivity].
    apply map_ext_in. intros r Hin. rewrite (@expired_by_id env _ r Hnd Hin).
    reflexivity. }
  assert (Hnone : filter (MerchantRepository.tokenExpired env) rows' = []).
  { apply filter_map_none. intros m.
    destruct (MerchantRepository.tokenExpired env m) eqn:E;
      [apply clearToken_not_expired|exact E]. }
  exists (setRows rows' w). rewrite Hrun, Hrows.
  split; [reflexivity|]. split; [reflexivity|]. split; [reflexivity|].
  split; [apply mailed_nothing; reflexivity|]. split.
  - unfold MerchantRepository.findExpiredVerificationTokens, bind, getRows, ret.
    cbn [merchants setRows]. rewrite Hnone. reflexivity.
  - rewrite Hrun. cbn [merchants setRows]. rewrite Hnone. reflexivity.
Qed.

Lemma cleanupExpiredTokens_drops_a_stale_token :
  exists w',
    MerchantService.cleanupExpiredTokens (sampleEnv 100 "t100" mailerUp)
      (worldOf [unverifiedMerchant 0 "t0" 50; unverifiedMerchant 1 "t1" 150])
    = (Return tt, w')
    /\ merchants w' = [clearToken (unverifiedMerchant 0 "t0" 50);
                       unverifiedMerchant 1 "t1" 150].
Proof.
  assert (Hnd : uniqueIds (worldOf [unverifiedMerchant 0 "t0" 50;
                                    unverifiedMerchant 1 "t1" 150])).
  { unfold uniqueIds. cbn. repeat constructor; cbn; intuition discriminate. }
  destruct (@cleanupExpiredTokens_clears_exactly_the_expired
              (sampleEnv 100 "t100" mailerUp) _ Hnd) as (w' & Hr & Hrows & _).
  exists w'. split; [exact Hr|]. rewrite Hrows. reflexivity.
Defined.


(** ** From registration to the first login *)

Lemma registerMerchant_run env dto w :
  find (MerchantRepository.sameEmail (RegisterMerchantDto.email dto)) (merchants w)
  = None ->
  exists m w',
    MerchantService.registerMerchant env dto w = (Return m, w')
    /\ merchants w' = (merchants w ++ [m])%list
    /\ nextId w' = S (nextId w)
    /\ id m = nextId w
    /\ email m = toLowerCase (RegisterMerchantDto.email dto)
    /\ name m = RegisterMerchantDto.name dto
    /\ passwordHash m = Some (bcryptHash env (RegisterMerchantDto.password dto))
    /\ emailVerified m = false
    /\ emailVerificationToken m = Some (randomBytesHex env)
    /\ emailVerificationExpiresAt m = Some (tokenExpiry env)
    /\ status m = PENDING
    /\ kycStatus m = KYC_NOT_STARTED.
Proof.
  intros H. unfold MerchantService.registerMerchant, MerchantRepository.findByEmail,
              bind, getRows, ret.
  rewrite H. unfold MerchantRepository.create.
  match goal with
  | |- context [assignAll ?data (MerchantRepository.newRow (nextId w))] =>
    set (m := assignAll data (MerchantRepository.newRow (nextId w)))
  end.
  match goal with
  | |- context [tryCatch (deliver env ?e) (logger_error ?msg) ?w1] =>
    destruct (bestEffort_deliver env e msg w1) as (w2 & -> & Hrows & Hnext)
  end.
  exists m, w2. split; [reflexivity|].
  split; [exact Hrows|]. split; [exact Hnext|].
  subst m. vm_compute. repeat split.
Qed.

Lemma find_last {A} (p : A -> bool) l x :
  find p l = None -> p x = true -> find p (l ++ [x]) = Some x.
Proof.
  intros Hn Hx. rewrite find_app_r by exact Hn. cbn [find]. rewrite Hx. reflexivity.
Qed.

Lemma holdsToken_own token m :
  emailVerificationToken m = Some token -> MerchantRepository.holdsToken token m = true.
Proof.
  intros E. unfold MerchantRepository.holdsToken. rewrite E. apply String.eqb_refl.
Qed.

Lemma sameEmail_up_to_case e e' m :
  toLowerCase e' = toLowerCase e ->
  MerchantRepository.sameEmail e' m = MerchantRepository.sameEmail e m.
Proof. intros E. unfold MerchantRepository.sameEmail. rewrite E. reflexivity. Qed.

Lemma find_ext {A} (p q : A -> bool) l :
  (forall x, p x = q x) -> find p l = find q l.
Proof.
  intros H. induction l as [|x l IH]; simpl; [reflexivity|]. rewrite H, IH. reflexivity.
Qed.

(** X22.  A registration the store can take, for an address of ASCII
    characters, returns the new merchant, and the merchant is then found by
    its id and by its e-mail address in any mix of upper and lower case.
    The address is stored in lower case, the password only as its hash,
    the status is PENDING and the KYC has not started. *)
Theorem registered_merchant_is_found :
  forall env dto w,
    canRegister env dto w ->
    asciiText (RegisterMerchantDto.email dto) ->
    exists m w',
      MerchantService.registerMerchant env dto w = (Return m, w')
      /\ MerchantService.getMerchantById (id m) w' = (Return m, w')
      /\ (forall e,
             asciiText e ->
             toLowerCase e = toLowerCase (RegisterMerchantDto.email dto) ->
             MerchantService.getMerchantByEmail e w' = (Return m, w'))
      /\ email m = toLowerCase (RegisterMerchantDto.email dto)
      /\ passwordHash m = Some (bcryptHash env (RegisterMerchantDto.password dto))
      /\ status m = PENDING /\ kycStatus m = KYC_NOT_STARTED
      /\ emailVerified m = false.
Proof.
  intros env dto w (Hmail & Hid & _) _.
  destruct (registerMerchant_run env dto w Hmail)
    as (m & w' & Hr & Hrows & _ & Em & Ee & _ & Ep & Ev & _ & _ & Es & Ek).
  exists m, w'. split; [exact Hr|]. split; [|split].
  - apply getMerchantById_stored. unfold stored. rewrite Hrows, Em.
    apply find_last; [exact Hid|].
    unfold MerchantRepository.hasId. rewrite Em. apply Nat.eqb_refl.
  - intros e _ E.
    unfold MerchantService.getMerchantByEmail, MerchantRepository.findByEmail,
      bind, getRows, ret.
    rewrite Hrows.
    rewrite (find_ext _ (MerchantRepository.sameEmail (RegisterMerchantDto.email dto)))
      by (intros x; apply sameEmail_up_to_case; exact E).
    rewrite (@find_last _ _ (merchants w) m Hmail); [reflexivity|].
    unfold MerchantRepository.sameEmail. rewrite Ee, toLowerCase_idem.
    apply String.eqb_refl.
  - repeat split; assumption.
Qed.

Lemma jane_is_found_in_capitals :
  exists m w',
    MerchantService.registerMerchant (sampleEnv 5 "t5" mailerUp) jane emptyWorld
    = (Return m, w')
    /\ MerchantService.getMerchantByEmail "JANE@X.COM" w' = (Return m, w').
Proof.
  destruct (@registered_merchant_is_found (sampleEnv 5 "t5" mailerUp) jane emptyWorld)
    as (m & w' & Hr & _ & He & _).
  - repeat split.
  - apply asciiText_forallb. reflexivity.
  - exists m, w'. split; [exact Hr|].
    apply He; [apply asciiText_forallb|]; reflexivity.
Defined.


(** ** The verification token *)

Lemma verifyEmail_run env token w m :
  find (MerchantRepository.holdsToken token) (merchants w) = Some m ->
  stored w (id m) m ->
  emailVerified m = false ->
  (forall e, emailVerificationExpiresAt m = Some e -> now env <= e) ->
  exists w',
    MerchantService.verifyEmail env token w = (Return (Some (markVerified env m)), w')
    /\ stored w' (id m) (markVerified env m)
    /\ merchants w' = MerchantRepository.mapRow (id m) (markVerified env) (merchants w)
    /\ nextId w' = nextId w.
Proof.
  intros Hh Hst Hv Hexp.
  assert (Hfresh : match emailVerificationExpiresAt m with
                   | Some expiresAt => expiresAt <? now env
                   | None => false
                   end = false).
  { destruct (emailVerificationExpiresAt m) as [e|]; [|reflexivity].
    apply Z.ltb_ge. apply Hexp. reflexivity. }
  unfold MerchantService.verifyEmail.
  unfold MerchantRepository.findByVerificationToken at 1.
  unfold bind at 1 2. unfold getRows at 1. unfold ret at 1.
  rewrite Hh, Hv, Hfresh. unfold bind at 1.
  rewrite (@update_stored w (id m) m
             [set_emailVerified true; set_emailVerifiedAt (Some (now env));
              set_emailVerificationToken None; set_emailVerificationExpiresAt None]
             ltac:(keeps_id) Hst).
  fold (markVerified env). unfold bind.
  match goal with
  | |- context [tryCatch (deliver env ?e) (logger_error ?msg) ?w1] =>
    destruct (bestEffort_deliver env e msg w1) as (w2 & -> & Hrows & Hnext)
  end.
  exists w2. split; [reflexivity|]. split; [|split; [exact Hrows|exact Hnext]].
  unfold stored. rewrite Hrows. cbn [merchants setRows].
  rewrite find_mapRow_same by keeps_id. rewrite Hst. reflexivity.
Qed.

Lemma verifyEmail_expired env token w m e :
  find (MerchantRepository.holdsToken token) (merchants w) = Some m ->
  emailVerified m = false ->
  emailVerificationExpiresAt m = Some e -> e < now env ->
  MerchantService.verifyEmail env token w
  = (Throw MerchantVerificationTokenExpiredException, w).
Proof.
  intros Hh Hv He Hlt.
  unfold MerchantService.verifyEmail, MerchantRepository.findByVerificationToken,
    bind, getRows, ret.
  rewrite Hh, Hv, He. apply Z.ltb_lt in Hlt. rewrite Hlt. reflexivity.
Qed.

Lemma verifyEmail_unknown env token w :
  find (MerchantRepository.holdsToken token) (merchants w) = None ->
  MerchantService.verifyEmail env token w
  = (Throw MerchantVerificationTokenInvalidException, w).
Proof.
  intros Hh.
  unfold MerchantService.verifyEmail, MerchantRepository.findByVerificationToken,
    bind, getRows, ret.
  rewrite Hh. reflexivity.
Qed.




(** ** From registration to an active account *)

(** X24.  The whole way in: a registration the store can take, the verification
    of the e-mail address before the token expires (24 hours later by the
    wall clock of the process), the submission of the two required
    documents and the approval of the KYC leave the merchant ACTIVE, with
    an approved KYC, a verified address and no token, whatever the mailer
    does on the way.  (The stored address is stated for addresses of ASCII
    characters.) *)
Theorem onboarding_activates_the_merchant :
  forall env1 env2 env3 env4 dto docs decision w,
    canRegister env1 dto w ->
    asciiText (RegisterMerchantDto.email dto) ->
    now env2 <= tokenExpiry env1 ->
    submits "government_id" docs -> submits "proof_of_address" docs ->
    VerifyKycDto.decision decision = approved ->
    exists m1 w1 m2 w2 m3 w3 m4 w4,
      MerchantService.registerMerchant env1 dto w = (Return m1, w1)
      /\ MerchantService.verifyEmail env2 (randomBytesHex env1) w1
         = (Return (Some m2), w2)
      /\ MerchantService.submitKycDocuments env3 (id m1) docs w2
         = (Return (Some m3), w3)
      /\ MerchantService.verifyKyc env4 (id m1) decision w3 = (Return (Some m4), w4)
      /\ stored w4 (id m1) m4
      /\ status m4 = ACTIVE
      /\ kycStatus m4 = KYC_APPROVED
      /\ kycVerifiedAt m4 = Some (now env4)
      /\ emailVerified m4 = true
      /\ emailVerificationToken m4 = None
      /\ email m4 = toLowerCase (RegisterMerchantDto.email dto).
Proof.
  intros env1 env2 env3 env4 dto docs decision w (Hmail & Hid & Htok)
         _ Hclock Hgov Hproof Hdec.
  destruct (registerMerchant_run env1 dto w Hmail)
    as (m1 & w1 & Hr & Hrows & _ & Em & Ee & _ & _ & Ev & Et & Ex & Es & Ek).
  assert (Hh : find (MerchantRepository.holdsToken (randomBytesHex env1)) (merchants w1)
               = Some m1).
  { rewrite Hrows. apply find_last; [exact Htok|]. apply holdsToken_own. exact Et. }
  assert (Hst1 : stored w1 (id m1) m1).
  { unfold stored. rewrite Hrows, Em. apply find_last; [exact Hid|].
    unfold MerchantRepository.hasId. rewrite Em. apply Nat.eqb_refl. }
  destruct (@verifyEmail_run env2 (randomBytesHex env1) w1 m1 Hh Hst1 Ev)
    as (w2 & Hrun2 & Hst2 & _).
  { intros e He. rewrite Ex in He. injection He as <-. exact Hclock. }
  set (m2 := markVerified env2 m1) in *.
  assert (Ek2 : kycStatus m2 = KYC_NOT_STARTED) by exact Ek.
  destruct (@submitKycDocuments_run env3 w2 (id m1) m2 docs Hst2 eq_refl)
    as (m3 & w3 & Hrun3 & Hst3 & E3 & _);
    [rewrite Ek2; discriminate|rewrite Ek2; discriminate|exact Hgov|exact Hproof|].
  assert (Ek3 : kycStatus m3 = KYC_PENDING) by (rewrite E3; reflexivity).
  assert (Ev3 : emailVerified m3 = true) by (rewrite E3; reflexivity).
  assert (Es3 : status m3 = PENDING) by (rewrite E3; exact Es).
  destruct (@verifyKyc_approved_run env4 w3 (id m1) m3 decision Hst3
              (or_introl Ek3) Hdec) as (m4 & w4 & Hrun4 & Hst4 & E4 & _).
  rewrite Ev3, Es3 in E4. cbn [andb MerchantStatus_eqb] in E4.
  exists m1, w1, m2, w2, m3, w3, m4, w4.
  split; [exact Hr|]. split; [exact Hrun2|]. split; [exact Hrun3|].
  split; [exact Hrun4|]. split; [exact Hst4|].
  rewrite E4, E3. repeat split. exact Ee.
Qed.

Lemma jane_is_onboarded :
  exists m1 w1 m2 w2 m3 w3 m4 w4,
    MerchantService.registerMerchant (sampleEnv 0 "t0" mailerUp) jane emptyWorld
    = (Return m1, w1)
    /\ MerchantService.verifyEmail (sampleEnv 10 "t1" mailerDown) "t0" w1
       = (Return (Some m2), w2)
    /\ MerchantService.submitKycDocuments (sampleEnv 20 "t2" mailerUp) (id m1)
         bothDocuments w2 = (Return (Some m3), w3)
    /\ MerchantService.verifyKyc (sampleEnv 30 "t3" mailerUp) (id m1) approval w3
       = (Return (Some m4), w4)
    /\ status m4 = ACTIVE /\ kycStatus m4 = KYC_APPROVED.
Proof.
  destruct (@onboarding_activates_the_merchant
              (sampleEnv 0 "t0" mailerUp) (sampleEnv 10 "t1" mailerDown)
              (sampleEnv 20 "t2" mailerUp) (sampleEnv 30 "t3" mailerUp)
              jane bothDocuments approval emptyWorld)
    as (m1 & w1 & m2 & w2 & m3 & w3 & m4 & w4 & H1 & H2 & H3 & H4 & _ & Hs & Hk & _).
  - repeat split.
  - apply asciiText_forallb. reflexivity.
  - vm_compute. intro H. discriminate H.
  - right. left. reflexivity.
  - left. reflexivity.
  - reflexivity.
  - exists m1, w1, m2, w2, m3, w3, m4, w4. repeat split; assumption.
Defined.


(** ** A resent verification mail *)

Lemma find_mapRow_by (p : Merchant -> bool) i f rows :
  (forall r, MerchantRepository.hasId i r = true -> p (f r) = true) ->
  (forall r, In r rows -> MerchantRepository.hasId i r = false -> p r = false) ->
  find p (MerchantRepository.mapRow i f rows)
  = option_map f (find (MerchantRepository.hasId i) rows).
Proof.
  intros Hin Hout. induction rows as [|r rows IH]; [reflexivity|].
  cbn [MerchantRepository.mapRow map find].
  destruct (MerchantRepository.hasId i r) eqn:E.
  - rewrite (Hin r E). reflexivity.
  - rewrite (Hout r (or_introl eq_refl) E). apply IH.
    intros r' Hr'. apply Hout. right. exact Hr'.
Qed.

Lemma find_mapRow_none (p : Merchant -> bool) i f rows :
  (forall r, MerchantRepository.hasId i r = true -> p (f r) = false) ->
  (forall r, In r rows -> MerchantRepository.hasId i r = false -> p r = false) ->
  find p (MerchantRepository.mapRow i f rows) = None.
Proof.
  intros Hin Hout. induction rows as [|r rows IH]; [reflexivity|].
  cbn [MerchantRepository.mapRow map find].
  destruct (MerchantRepository.hasId i r) eqn:E.
  - rewrite (Hin r E). apply IH. intros r' Hr'. apply Hout. right. exact Hr'.
  - rewrite (Hout r (or_introl eq_refl) E). apply IH.
    intros r' Hr'. apply Hout. right. exact Hr'.
Qed.

Lemma unique_stored w m : uniqueIds w -> In m (merchants w) -> stored w (id m) m.
Proof.
  intros Hnd Hin. destruct (find_hasId_of_member m (merchants w) Hin) as (m0 & Hf & E).
  unfold stored. rewrite Hf. f_equal.
  apply (@unique_id_same_row (merchants w) m0 m Hnd); [|exact Hin|exact E].
  apply find_some in Hf. apply Hf.
Qed.

Lemma resendVerificationEmail_rows env w e merchant :
  find (MerchantRepository.sameEmail e) (merchants w) = Some merchant ->
  emailVerified merchant = false ->
  merchants (snd (MerchantService.resendVerificationEmail env e w))
  = MerchantRepository.mapRow (id merchant) (newToken env) (merchants w).
Proof.
  intros Hfind Hnot.
  unfold MerchantService.resendVerificationEmail, MerchantRepository.findByEmail,
    MerchantRepository.update, MerchantRepository.findById,
    bind, getRows, putRows, ret, deliver, setOutbox,
    MerchantService.generateVerificationToken.
  rewrite Hfind, Hnot. cbn [merchants setRows outbox].
  destruct (emailService env _); reflexivity.
Qed.

(** X25.  Resending the verification mail replaces the token, whether or not the
    mail goes out: afterwards the token the merchant held is refused with
    [MerchantVerificationTokenInvalidException], and the new one verifies
    the merchant until its expiry, 24 hours after the resending by the wall
    clock of the process ([setHours(getHours() + 24)]), and is refused as
    expired after that.  (Unique primary keys; no other merchant holds
    either token.) *)
Theorem resend_replaces_the_token :
  forall env env' w e merchant old,
    uniqueIds w ->
    find (MerchantRepository.sameEmail e) (merchants w) = Some merchant ->
    emailVerified merchant = false ->
    old <> randomBytesHex env ->
    (forall r, In r (merchants w) -> id r <> id merchant ->
               MerchantRepository.holdsToken old r = false
               /\ MerchantRepository.holdsToken (randomBytesHex env) r = false) ->
    let w' := snd (MerchantService.resendVerificationEmail env e w) in
    MerchantService.verifyEmail env' old w'
    = (Throw MerchantVerificationTokenInvalidException, w')
    /\ (now env' <= tokenExpiry env ->
        exists m' w'',
          MerchantService.verifyEmail env' (randomBytesHex env) w'
          = (Return (Some m'), w'')
          /\ stored w'' (id merchant) m'
          /\ emailVerified m' = true)
    /\ (tokenExpiry env < now env' ->
        MerchantService.verifyEmail env' (randomBytesHex env) w'
        = (Throw MerchantVerificationTokenExpiredException, w')).
Proof.
  intros env env' w e merchant old Hnd Hfind Hnot Hne Hothers w'.
  pose proof (@resendVerificationEmail_rows env w e merchant Hfind Hnot) as Hrows.
  fold w' in Hrows.
  assert (Hin : In merchant (merchants w)) by (apply find_some in Hfind; apply Hfind).
  pose proof (@unique_stored w merchant Hnd Hin) as Hst.
  assert (Hout : forall r, In r (merchants w) ->
                           MerchantRepository.hasId (id merchant) r = false ->
                           id r <> id merchant).
  { intros r _ E. unfold MerchantRepository.hasId in E. apply Nat.eqb_neq. exact E. }
  assert (Hnew : find (MerchantRepository.holdsToken (randomBytesHex env)) (merchants w')
                 = Some (newToken env merchant)).
  { rewrite Hrows, find_mapRow_by.
    - rewrite Hst. reflexivity.
    - intros r _. apply holdsToken_own. reflexivity.
    - intros r Hr E. apply (Hothers r Hr (Hout r Hr E)). }
  assert (Hst' : stored w' (id merchant) (newToken env merchant)).
  { unfold stored. rewrite Hrows, find_mapRow_same by keeps_id.
    rewrite Hst. reflexivity. }
  split; [|split].
  - apply verifyEmail_unknown. rewrite Hrows. apply find_mapRow_none.
    + intros r _. apply holdsToken_fresh with (fresh := randomBytesHex env);
        [congruence|reflexivity].
    + intros r Hr E. apply (Hothers r Hr (Hout r Hr E)).
  - intros Hclock.
    destruct (@verifyEmail_run env' (randomBytesHex env) w' (newToken env merchant)
                Hnew Hst' Hnot) as (w'' & Hrun & Hst'' & _).
    { intros x [= <-]. exact Hclock. }
    exists (markVerified env' (newToken env merchant)), w''.
    split; [exact Hrun|]. split; [exact Hst''|reflexivity].
  - intros Hclock.
    apply (@verifyEmail_expired env' (randomBytesHex env) w' (newToken env merchant)
             (tokenExpiry env) Hnew Hnot eq_refl).
    exact Hclock.
Qed.

Lemma old_token_dies_when_the_mail_is_lost :
  MerchantService.verifyEmail (sampleEnv 20 "t2" mailerUp) "t0"
    (snd (MerchantService.resendVerificationEmail (sampleEnv 10 "t1" mailerDown)
            "jane@x.com" (worldOf [unverifiedMerchant 0 "t0" 50])))
  = (Throw MerchantVerificationTokenInvalidException,
     snd (MerchantService.resendVerificationEmail (sampleEnv 10 "t1" mailerDown)
            "jane@x.com" (worldOf [unverifiedMerchant 0 "t0" 50]))).
Proof.
  apply (@resend_replaces_the_token
           (sampleEnv 10 "t1" mailerDown) (sampleEnv 20 "t2" mailerUp)
           (worldOf [unverifiedMerchant 0 "t0" 50]) "jane@x.com"
           (unverifiedMerchant 0 "t0" 50) "t0").
  - unfold uniqueIds. cbn. repeat constructor. intros [].
  - vm_compute. reflexivity.
  - reflexivity.
  - discriminate.
  - intros r [<-|[]] Hr. exfalso. apply Hr. reflexivity.
Defined.


(** ** One address, one merchant *)

Lemma free_address_is_new e rows :
  find (MerchantRepository.sameEmail e) rows = None ->
  ~ In (toLowerCase e) (map (fun m => toLowerCase (email m)) rows).
Proof.
  intros Hnone Hin. apply in_map_iff in Hin. destruct Hin as (m & E & Hm).
  pose proof (find_none _ _ Hnone m Hm) as Hf.
  unfold MerchantRepository.sameEmail in Hf. rewrite E, String.eqb_refl in Hf.
  discriminate Hf.
Qed.

Lemma NoDup_last {A} (l : list A) x : NoDup l -> ~ In x l -> NoDup (l ++ [x]).
Proof.
  induction l as [|a l IH]; intros Hnd Hx; cbn [app].
  - constructor; [intros []|constructor].
  - inversion Hnd as [|? ? Ha Hl]; subst. constructor.
    + intros Hin. apply in_app_or in Hin. destruct Hin as [Hin|[->|[]]].
      * exact (Ha Hin).
      * apply Hx. left. reflexivity.
    + apply IH; [exact Hl|]. intros Hin. apply Hx. right. exact Hin.
Qed.

Lemma registerMerchant_keeps_emails env dto w :
  distinctEmails (merchants w) ->
  distinctEmails (merchants (snd (MerchantService.registerMerchant env dto w))).
Proof.
  intros H.
  destruct (find (MerchantRepository.sameEmail (RegisterMerchantDto.email dto))
              (merchants w)) as [x|] eqn:Hf.
  - rewrite (registerMerchant_taken env dto w Hf). exact H.
  - destruct (registerMerchant_run env dto w Hf)
      as (m & w' & -> & Hrows & _ & _ & Ee & _).
    cbn [snd]. rewrite Hrows. unfold distinctEmails in *. rewrite map_app.
    cbn [map]. rewrite Ee, toLowerCase_idem.
    apply NoDup_last; [exact H|]. apply free_address_is_new. exact Hf.
Qed.

Lemma serve_keeps_emails env r w :
  distinctEmails (merchants w) -> distinctEmails (merchants (serve env r w)).
Proof.
  revert w. destruct r as [[]| | | | | |]; cbn [serve perform];
    try (intro; apply registerMerchant_keeps_emails);
    as_preserves; open_method; repeat walk ltac:(intros; reflexivity).
Qed.

Lemma asciiChar_toLowerCase c :
  (nat_of_ascii c <? 128)%nat = true ->
  (nat_of_ascii (toLowerCaseChar c) <? 128)%nat = true.
Proof.
  destruct c as [[] [] [] [] [] [] [] []]; vm_compute; intros H; exact H.
Qed.

Lemma asciiText_toLowerCase s : asciiText s -> asciiText (toLowerCase s).
Proof.
  unfold asciiText. induction s as [|c s IH]; intros H; [constructor|].
  cbn [toLowerCase list_ascii_of_string] in *.
  inversion H as [|? ? Hc Hs]; subst. constructor; [|apply IH; exact Hs].
  apply Nat.ltb_lt. apply asciiChar_toLowerCase. apply Nat.ltb_lt. exact Hc.
Qed.

Lemma registerMerchant_keeps_asciiEmails env dto w :
  asciiText (RegisterMerchantDto.email dto) ->
  asciiEmails (merchants w) ->
  asciiEmails (merchants (snd (MerchantService.registerMerchant env dto w))).
Proof.
  intros Ha H.
  destruct (find (MerchantRepository.sameEmail (RegisterMerchantDto.email dto))
              (merchants w)) as [x|] eqn:Hf.
  - rewrite (registerMerchant_taken env dto w Hf). exact H.
  - destruct (registerMerchant_run env dto w Hf)
      as (m & w' & -> & Hrows & _ & _ & Ee & _).
    cbn [snd]. rewrite Hrows. apply Forall_new_row; [|exact H].
    rewrite Ee. apply asciiText_toLowerCase. exact Ha.
Qed.

Lemma serve_keeps_asciiEmails env r w :
  asciiRegistration r ->
  asciiEmails (merchants w) -> asciiEmails (merchants (serve env r w)).
Proof.
  intros Hr. revert w. destruct r as [[]| | | | | |]; cbn [serve perform];
    try (intro; apply registerMerchant_keeps_asciiEmails; exact Hr);
    as_preserves; open_method; repeat walk ltac:(kept).
Qed.

(** X26.  No two merchants share an e-mail address, upper and lower case taken as
    equal, in any state the service reaches from a state where that holds,
    the empty store among them: registration refuses a taken address and
    stores the address in lower case, and no other method writes the
    address.  Stated for addresses of ASCII characters, stored and
    registered; the stored addresses then stay ASCII as well. *)
Theorem email_addresses_stay_distinct :
  forall requests w,
    asciiRegistrations requests ->
    asciiEmails (merchants w) ->
    distinctEmails (merchants w) ->
    asciiEmails (merchants (session requests w))
    /\ distinctEmails (merchants (session requests w)).
Proof.
  intros requests. induction requests as [|[env r] requests IH];
    intros w Hreq Ha Hd; [split; assumption|].
  inversion Hreq as [|? ? Hr Hrest]; subst. cbn [snd] in Hr.
  cbn [session fold_left fst snd]. apply IH; [exact Hrest| |].
  - apply serve_keeps_asciiEmails; assumption.
  - apply serve_keeps_emails. exact Hd.
Qed.

Lemma email_addresses_after_two_registrations :
  distinctEmails
    (merchants
       (session [(sampleEnv 5 "t5" mailerUp, ServiceCall (CallRegisterMerchant jane));
                 (sampleEnv 6 "t6" mailerUp,
                  ServiceCall (CallRegisterMerchant janeShouting))]
          emptyWorld)).
Proof.
  apply (@email_addresses_stay_distinct
           [(sampleEnv 5 "t5" mailerUp, ServiceCall (CallRegisterMerchant jane));
            (sampleEnv 6 "t6" mailerUp, ServiceCall (CallRegisterMerchant janeShouting))]
           emptyWorld).
  - repeat (constructor; [apply asciiText_forallb; reflexivity|]). constructor.
  - constructor.
  - constructor.
Defined.
